(** * schema-sheets-get: a shallow embedding of [get.mjs]

    The development follows the script top to bottom:

    - [JsString]   the string primitives the script calls
                   ([replace] with a global one-character pattern, [indexOf],
                   [substring], [split], [trim], [toUpperCase]);
    - [Js]         the values a result record can hold, [String(v)],
                   [JSON.stringify], property lookup and assignment;
    - the two formatting helpers [escapeShellValue] and [propertyToVarName];
    - [Proc]       a small monad for the effects of the script: the log of
                   everything the process did, exceptions, [process.exit];
    - the script itself: [cleanup], [getSchemas], [executeQuery] and the
                   top level;
    - the properties.

    Conventions.  A JavaScript string is a sequence of UTF-16 code units; the
    embedding uses [string], whose characters are the code units 0..255.  All
    the patterns of the script (backslash, double quote, backtick, dollar,
    newline, comma, colon and the class of non-word characters) work on one
    code unit at a time, so nothing of the script's behaviour is lost on
    larger code units: they are neither matched by the escaping patterns
    nor kept by the variable-name pattern. *)

From Stdlib Require Import String Ascii List Bool Arith NArith Lia.
From Stdlib Require Import DecimalString.
Import ListNotations.

Set Warnings "-register-all".

Local Open Scope list_scope.
Local Open Scope string_scope.

(* ===================================================================== *)
(** * Characters the script names                                         *)
(* ===================================================================== *)

Definition backslash : ascii := "092"%char.
Definition dquote    : ascii := "034"%char.
Definition backtick  : ascii := "096"%char.
Definition dollar    : ascii := "036"%char.
Definition newline   : ascii := "010"%char.
Definition comma     : ascii := "044"%char.
Definition colon     : ascii := "058"%char.
Definition underscore : ascii := "095"%char.

(** One-character strings, for building expected outputs. *)
Definition str1 (c : ascii) : string := String c EmptyString.

(* ===================================================================== *)
(** * String primitives                                                   *)
(* ===================================================================== *)

Module JsString.

(** [s.replace(/c/g, r)] for a pattern that matches the single code unit
    [c], and a replacement [r] in which no [$]-pattern occurs.  The four
    replacements of [escapeShellValue] are of that kind: the only [$] in
    them is the last character of ['\\$'], where it stands for itself. *)
Fixpoint replaceAll (c : ascii) (r : string) (s : string) : string :=
  match s with
  | EmptyString => EmptyString
  | String a rest =>
      if Ascii.eqb a c then r ++ replaceAll c r rest
      else String a (replaceAll c r rest)
  end.

(** [s.replace(/[^...]/g, r)] for a negated character class given as the
    predicate [keep] of the characters that are left alone. *)
Fixpoint replaceOutside (keep : ascii -> bool) (r : ascii) (s : string) : string :=
  match s with
  | EmptyString => EmptyString
  | String a rest =>
      String (if keep a then a else r) (replaceOutside keep r rest)
  end.

Definition code (c : ascii) : nat := nat_of_ascii c.

Definition between (lo hi : nat) (c : ascii) : bool :=
  Nat.leb lo (code c) && Nat.leb (code c) hi.

Definition is_lower (c : ascii) : bool := between 97 122 c.
Definition is_upper (c : ascii) : bool := between 65 90 c.
Definition is_digit (c : ascii) : bool := between 48 57 c.

(** The class [[a-zA-Z0-9_]]. *)
Definition is_word (c : ascii) : bool :=
  is_lower c || is_upper c || is_digit c || Ascii.eqb c underscore.

(** [toUpperCase] on the basic Latin letters; every other character of the
    class [[a-zA-Z0-9_]] is its own upper case.  [propertyToVarName] calls
    [toUpperCase] on strings over that class only (see
    [replaceOutside_word] below), where this is all of its behaviour. *)
Definition upper_char (c : ascii) : ascii :=
  if is_lower c then ascii_of_nat (code c - 32) else c.

Fixpoint toUpperCase (s : string) : string :=
  match s with
  | EmptyString => EmptyString
  | String a rest => String (upper_char a) (toUpperCase rest)
  end.

(** [s.indexOf(c)], [None] standing for [-1]. *)
Fixpoint indexOf (c : ascii) (s : string) : option nat :=
  match s with
  | EmptyString => None
  | String a rest =>
      if Ascii.eqb a c then Some 0
      else match indexOf c rest with
           | Some i => Some (S i)
           | None => None
           end
  end.

(** [s.substring(0, n)] and [s.substring(n)] for [n <= s.length]. *)
Fixpoint take (n : nat) (s : string) : string :=
  match n, s with
  | S k, String a rest => String a (take k rest)
  | _, _ => EmptyString
  end.

Fixpoint drop (n : nat) (s : string) : string :=
  match n, s with
  | S k, String _ rest => drop k rest
  | _, _ => s
  end.

(** [s.split(c)]: the pieces between the occurrences of [c]; always at
    least one piece. *)
Fixpoint split (c : ascii) (s : string) : list string :=
  match s with
  | EmptyString => [EmptyString]
  | String a rest =>
      if Ascii.eqb a c then EmptyString :: split c rest
      else match split c rest with
           | piece :: pieces => String a piece :: pieces
           | [] => [String a EmptyString]
           end
  end.

(** White space and line terminators among the code units 0..255: tab,
    line feed, vertical tab, form feed, carriage return, space and
    no-break space. *)
Definition is_space (c : ascii) : bool :=
  between 9 13 c || Nat.eqb (code c) 32 || Nat.eqb (code c) 160.

Fixpoint trimStart (s : string) : string :=
  match s with
  | EmptyString => EmptyString
  | String a rest => if is_space a then trimStart rest else s
  end.

(** [trimEnd] keeps a character when something other than white space
    follows it, or when it is itself not white space. *)
Fixpoint trimEnd (s : string) : string :=
  match s with
  | EmptyString => EmptyString
  | String a rest =>
      match trimEnd rest with
      | EmptyString => if is_space a then EmptyString else String a EmptyString
      | kept => String a kept
      end
  end.

Definition trim (s : string) : string := trimEnd (trimStart s).

(** [pieces.join(sep)]. *)
Fixpoint join (sep : string) (pieces : list string) : string :=
  match pieces with
  | [] => EmptyString
  | [p] => p
  | p :: rest => p ++ sep ++ join sep rest
  end.

Definition is_empty (s : string) : bool :=
  match s with EmptyString => true | _ => false end.

(** Every character of [s] satisfies [p]. *)
Fixpoint all (p : ascii -> bool) (s : string) : bool :=
  match s with
  | EmptyString => true
  | String a rest => p a && all p rest
  end.

(** The class [[A-Z0-9_]]. *)
Definition is_var_char (c : ascii) : bool :=
  is_upper c || is_digit c || Ascii.eqb c underscore.

End JsString.

(* ===================================================================== *)
(** * JavaScript values                                                   *)
(* ===================================================================== *)

Module Js.

(** What a record's [json] can hold, and what a property lookup on it can
    return.  A number is kept as the decimal text [Number::toString] gives
    for it, which is also what [String(n)] and [JSON.stringify(n)] give for
    the finite numbers of a JSON document.  An object lists its own
    enumerable properties in the order [Object.keys] enumerates them.
    [Native name] is a built-in function object, reached only through the
    prototype chain. *)
Inductive value : Type :=
| Undefined
| Null
| Bool (b : bool)
| Num (text : string)
| Str (s : string)
| Arr (items : list value)
| Obj (fields : list (string * value))
| Native (name : string).

Definition is_undefined (v : value) : bool :=
  match v with Undefined => true | _ => false end.

(** [String(v)]. An array joins the texts of its items with a comma, the
    items [null] and [undefined] giving the empty text. *)
Fixpoint ToString (v : value) : string :=
  match v with
  | Undefined => "undefined"
  | Null => "null"
  | Bool true => "true"
  | Bool false => "false"
  | Num text => text
  | Str s => s
  | Arr items =>
      JsString.join ","
        ((fix each (l : list value) : list string :=
            match l with
            | [] => []
            | Undefined :: rest => EmptyString :: each rest
            | Null :: rest => EmptyString :: each rest
            | x :: rest => ToString x :: each rest
            end) items)
  | Obj _ => "[object Object]"
  | Native name => "function " ++ name ++ "() { [native code] }"
  end.

(** ** Property lookup *)

(** Own property [k] of an object. *)
Fixpoint own (k : string) (fields : list (string * value)) : option value :=
  match fields with
  | [] => None
  | (k', v) :: rest => if String.eqb k' k then Some v else own k rest
  end.

(** The members of [Object.prototype] that a string key reaches.  All are
    built-in functions but [__proto__], an accessor whose getter returns
    the prototype of the receiver: for an ordinary object that is
    [Object.prototype] itself, an object without enumerable own property,
    which [String], [JSON.stringify] and [Object.keys] cannot tell from
    the empty object. *)
Definition object_prototype_functions : list string :=
  [ "__defineGetter__"; "__defineSetter__"; "hasOwnProperty";
    "__lookupGetter__"; "__lookupSetter__"; "isPrototypeOf";
    "propertyIsEnumerable"; "toString"; "valueOf"; "toLocaleString" ].

Definition object_prototype (k : string) : value :=
  if String.eqb k "__proto__" then Obj []
  else if String.eqb k "constructor" then Native "Object"
  else if existsb (String.eqb k) object_prototype_functions then Native k
  else Undefined.

(** A canonical array index: the decimal text, without leading zero, of
    an integer below 2^32 - 1. *)
Definition digit_value (c : ascii) : option N :=
  if JsString.is_digit c then Some (N.of_nat (JsString.code c - 48)) else None.

Fixpoint digits_value (acc : N) (s : string) : option N :=
  match s with
  | EmptyString => Some acc
  | String c rest =>
      match digit_value c with
      | Some d => digits_value (acc * 10 + d) rest
      | None => None
      end
  end.

Definition array_index (k : string) : option N :=
  match k with
  | EmptyString => None
  | String c rest =>
      if Ascii.eqb c "0"%char && negb (JsString.is_empty rest) then None
      else match digits_value 0 k with
           | Some n => if N.ltb n 4294967295 then Some n else None
           | None => None
           end
  end.

(** The decimal text of a natural number, as in [String(3)]. *)
Definition of_nat (n : nat) : string :=
  NilEmpty.string_of_uint (Nat.to_uint n).

(** What the receivers other than plain objects inherit (from
    [Array.prototype], [String.prototype], [Number.prototype],
    [Boolean.prototype], [Function.prototype] and, behind them,
    [Object.prototype]) is a table of the engine: the embedding takes it
    as a parameter, [Undefined] standing for an absent member. *)
Definition prototypes : Type := value -> string -> value.

(** [receiver[k]].  [None] is the [TypeError] thrown when the receiver is
    [null] or [undefined]; [Some Undefined] is an absent property.  An
    object answers with its own property first and [Object.prototype]
    next; an array and a string have the own properties [length] and
    their indices. *)
Definition get (P : prototypes) (receiver : value) (k : string) : option value :=
  match receiver with
  | Undefined | Null => None
  | Obj fields =>
      match own k fields with
      | Some v => Some v
      | None => Some (object_prototype k)
      end
  | Arr items =>
      if String.eqb k "length" then Some (Num (of_nat (List.length items)))
      else match array_index k with
           | Some i =>
               match nth_error items (N.to_nat i) with
               | Some v => Some v
               | None => Some (P receiver k)
               end
           | None => Some (P receiver k)
           end
  | Str s =>
      if String.eqb k "length" then Some (Num (of_nat (String.length s)))
      else match array_index k with
           | Some i =>
               match String.get (N.to_nat i) s with
               | Some c => Some (Str (String c EmptyString))
               | None => Some (P receiver k)
               end
           | None => Some (P receiver k)
           end
  | _ => Some (P receiver k)
  end.

(** [Object.keys(v)]; [None] is the [TypeError] for [null] and
    [undefined]. *)
Definition keys (v : value) : option (list string) :=
  match v with
  | Undefined | Null => None
  | Obj fields => Some (map fst fields)
  | Arr items => Some (map of_nat (seq 0 (List.length items)))
  | Str s => Some (map of_nat (seq 0 (String.length s)))
  | _ => Some []
  end.

(** ** Assignment to a property of a plain object *)

Fixpoint update (k : string) (v : value) (fields : list (string * value))
  : list (string * value) :=
  match fields with
  | [] => []
  | (k', v') :: rest =>
      if String.eqb k' k then (k', v) :: rest else (k', v') :: update k v rest
  end.

(** A new index key goes after the index keys that are smaller and before
    everything else: own keys enumerate with the array indices first, in
    ascending order, and the other strings next, in creation order. *)
Fixpoint insert_index (i : N) (k : string) (v : value)
  (fields : list (string * value)) : list (string * value) :=
  match fields with
  | [] => [(k, v)]
  | (k', v') :: rest =>
      match array_index k' with
      | Some j => if N.ltb j i then (k', v') :: insert_index i k v rest
                  else (k, v) :: fields
      | None => (k, v) :: fields
      end
  end.

(** [output[k] = v] on an object created by [{}].  The key [__proto__]
    reaches the setter inherited from [Object.prototype], which creates
    no own property. *)
Definition set (k : string) (v : value) (fields : list (string * value))
  : list (string * value) :=
  if String.eqb k "__proto__" then fields
  else match own k fields with
       | Some _ => update k v fields
       | None =>
           match array_index k with
           | Some i => insert_index i k v fields
           | None => fields ++ [(k, v)]
           end
       end.

(** ** [JSON.stringify] *)

Definition hex_digit (n : nat) : ascii :=
  if Nat.ltb n 10 then ascii_of_nat (48 + n) else ascii_of_nat (87 + n).

(** One code unit inside a JSON string literal. *)
Definition quote_char (c : ascii) : string :=
  let n := JsString.code c in
  if Ascii.eqb c dquote then String backslash (str1 dquote)
  else if Ascii.eqb c backslash then String backslash (str1 backslash)
  else if Nat.eqb n 8 then String backslash "b"
  else if Nat.eqb n 9 then String backslash "t"
  else if Nat.eqb n 10 then String backslash "n"
  else if Nat.eqb n 12 then String backslash "f"
  else if Nat.eqb n 13 then String backslash "r"
  else if Nat.ltb n 32 then
    String backslash
      ("u00" ++ String (hex_digit (n / 16)) (str1 (hex_digit (n mod 16))))
  else str1 c.

Fixpoint quote_chars (s : string) : string :=
  match s with
  | EmptyString => EmptyString
  | String c rest => quote_char c ++ quote_chars rest
  end.

Definition quote (s : string) : string :=
  String dquote (quote_chars s ++ str1 dquote).

(** [JSON.stringify(v)] without indentation; [None] is the result
    [undefined], given for [undefined] and for functions.  Inside an
    array these give [null]; inside an object their property is left
    out. *)
Fixpoint stringify (v : value) : option string :=
  match v with
  | Undefined => None
  | Native _ => None
  | Null => Some "null"
  | Bool true => Some "true"
  | Bool false => Some "false"
  | Num text => Some text
  | Str s => Some (quote s)
  | Arr items =>
      Some ("[" ++ JsString.join ","
              ((fix each (l : list value) : list string :=
                  match l with
                  | [] => []
                  | x :: rest =>
                      match stringify x with
                      | Some t => t
                      | None => "null"
                      end :: each rest
                  end) items) ++ "]")
  | Obj fields =>
      Some ("{" ++ JsString.join ","
              ((fix each (l : list (string * value)) : list string :=
                  match l with
                  | [] => []
                  | (k, x) :: rest =>
                      match stringify x with
                      | Some t => (quote k ++ ":" ++ t) :: each rest
                      | None => each rest
                      end
                  end) fields) ++ "}")
  end.

(** [JSON.stringify(v)] as a value, ready to be logged. *)
Definition stringify_value (v : value) : value :=
  match stringify v with
  | Some text => Str text
  | None => Undefined
  end.

End Js.

(* ===================================================================== *)
(** * The two formatting helpers                                          *)
(* ===================================================================== *)

(** [escapeShellValue(value)], get.mjs lines 97-107. *)
Definition escapeShellValue (value : Js.value) : string :=
  let str := Js.ToString value in
  JsString.replaceAll newline (String backslash "n")
    (JsString.replaceAll dollar (String backslash (str1 dollar))
       (JsString.replaceAll backtick (String backslash (str1 backtick))
          (JsString.replaceAll dquote (String backslash (str1 dquote))
             (JsString.replaceAll backslash (String backslash (str1 backslash))
                str)))).

(** [propertyToVarName(property)], get.mjs lines 109-116. *)
Definition propertyToVarName (property : string) : string :=
  JsString.toUpperCase
    (JsString.replaceOutside JsString.is_word underscore property).

(* ===================================================================== *)
(** * The effects of the script                                           *)
(* ===================================================================== *)

Module Proc.

(** Everything the process does that can be observed from outside, in the
    order it does it. *)
Inductive Event : Type :=
| Stdout (v : Js.value)             (* console.log(v): the result payload *)
| DebugLine (label : string)        (* debug(...) under --debug: a console.log *)
| Stderr (parts : list string)      (* console.error(...) *)
| NewCorestore (storagePath : string)
| NewSchemaSheets (key encryptionKey : list Byte.byte)
| Ready                             (* sheets.ready() *)
| Join                              (* swarm.join(...) *)
| AddAutobaseBackground
| CallListSchemas                   (* sheets.listSchemas() *)
| CallListQueries (schemaId : string)
| CallList (schemaId query : string)
| Sleep (ms : nat)                  (* setTimeout(..., ms) *)
| BlindClose                        (* blind.close() *)
| SwarmDestroy                      (* swarm.destroy() *)
| StoreClose                        (* store.close() *)
| Rm (path : string).               (* rm(path, { recursive, force }) *)

(** How a computation ends: with a value, with an exception on its way to
    the nearest handler, or with [process.exit(code)], which no handler
    stops. *)
Inductive res (A : Type) : Type :=
| Val (a : A)
| Thrown (error : string)
| Exited (code : nat).
Arguments Val {A} a.
Arguments Thrown {A} error.
Arguments Exited {A} code.

(** How many times each collaborator has been called so far: the answer
    of a collaborator may change from one call to the next. *)
Record calls : Type := {
  n_listSchemas : nat;
  n_listQueries : nat;
  n_list : nat;
  n_rm : nat
}.

Definition no_calls : calls :=
  {| n_listSchemas := 0; n_listQueries := 0; n_list := 0; n_rm := 0 |}.

Definition M (A : Type) : Type := calls -> res A * calls * list Event.

Definition ret {A} (a : A) : M A := fun c => (Val a, c, []).

Definition bind {A B} (m : M A) (f : A -> M B) : M B :=
  fun c =>
    match m c with
    | (Val a, c1, out1) =>
        let '(r, c2, out2) := f a c1 in (r, c2, (out1 ++ out2)%list)
    | (Thrown e, c1, out1) => (Thrown e, c1, out1)
    | (Exited n, c1, out1) => (Exited n, c1, out1)
    end.

Definition throw {A} (error : string) : M A := fun c => (Thrown error, c, []).

Definition process_exit {A} (code : nat) : M A := fun c => (Exited code, c, []).

Definition emit (e : Event) : M unit := fun c => (Val tt, c, [e]).

(** [try { body } catch (error) { handler }]. *)
Definition try_catch {A} (body : M A) (handler : string -> M A) : M A :=
  fun c =>
    match body c with
    | (Thrown e, c1, out1) =>
        let '(r, c2, out2) := handler e c1 in (r, c2, (out1 ++ out2)%list)
    | other => other
    end.

Fixpoint forEach {A} (l : list A) (f : A -> M unit) : M unit :=
  match l with
  | [] => ret tt
  | x :: rest => bind (f x) (fun _ => forEach rest f)
  end.

End Proc.

Import Proc.

Notation "x <- m ;; k" := (Proc.bind m (fun x => k))
  (at level 61, m at next level, right associativity).
Notation "m ;; k" := (Proc.bind m (fun _ => k))
  (at level 61, right associativity).

(* ===================================================================== *)
(** * Command line and collaborators                                      *)
(* ===================================================================== *)

(** [args.flags], as paparam hands them over; [storage] is absent when no
    [-s] was given. *)
Record Flags : Type := {
  namedQuery : bool;
  storage : option string;
  blind : list string;
  json : bool;
  export : bool;
  debugFlag : bool
}.

Record Args : Type := {
  roomLink : string;
  query : string;
  flags : Flags
}.

Record Schema : Type := { schemaId : string }.

Record NamedQuery : Type := { name : string; JMESPathQuery : string }.

(** A promise of a collaborator, once settled. *)
Inductive Outcome (A : Type) : Type :=
| Resolved (a : A)
| Rejected (error : string).
Arguments Resolved {A} a.
Arguments Rejected {A} error.

(** The collaborators of the script: the libraries it imports and the
    store behind them.  A call that is repeated takes the number of earlier
    calls, so that the store can answer differently while it synchronises.
    [sheets_list] answers with the [json] of each record. *)
Record Env : Type := {
  tempPath : string;
  z32_decode : string -> option (list Byte.byte);   (* None: z32.decode throws *)
  prototypes : Js.prototypes;
  sheets_ready : Outcome unit;
  swarm_join : Outcome unit;
  sheets_listSchemas : nat -> Outcome (list Schema);
  sheets_listQueries : nat -> string -> Outcome (list NamedQuery);
  sheets_list : nat -> string -> string -> Outcome (list Js.value);
  fs_rm : nat -> string -> Outcome unit
}.

(** A value used as a condition: a string is true when it is not empty. *)
Definition given (o : option string) : bool :=
  match o with
  | Some s => negb (JsString.is_empty s)
  | None => false
  end.

(** [buf.subarray(0, n)] and [buf.subarray(n)]: both ends are clamped to
    the length of the buffer. *)
Definition subarray_to (n : nat) (buf : list Byte.byte) : list Byte.byte :=
  firstn n buf.
Definition subarray_from (n : nat) (buf : list Byte.byte) : list Byte.byte :=
  skipn n buf.

(** The access descriptor, get.mjs lines 73-75: [None] when [z32.decode]
    throws, and otherwise the pair of [key] and [encryptionKey]. *)
Definition decodeRoomLink (decode : string -> option (list Byte.byte))
  (link : string) : option (list Byte.byte * list Byte.byte) :=
  match decode link with
  | None => None
  | Some decoded => Some (subarray_to 32 decoded, subarray_from 32 decoded)
  end.

(** The query argument in named mode, get.mjs lines 140-152: the name
    before the first colon and, when there is a colon, the properties after
    it. *)
Definition parseNamedQuery (queryInput : string) : string * option (list string) :=
  match JsString.indexOf colon queryInput with
  | Some colonIndex =>
      let queryName := JsString.take colonIndex queryInput in
      let propertiesStr := JsString.drop (colonIndex + 1) queryInput in
      (queryName,
       Some (filter (fun p => Nat.ltb 0 (String.length p))
               (map JsString.trim (JsString.split comma propertiesStr))))
  | None => (queryInput, None)
  end.

(* ===================================================================== *)
(** * The script                                                          *)
(* ===================================================================== *)

Section Script.

Variable env : Env.
Variable args : Args.

Definition debug (label : string) : M unit :=
  if debugFlag (flags args) then emit (DebugLine label) else ret tt.

Definition console_log (v : Js.value) : M unit := emit (Stdout v).

Definition console_error (parts : list string) : M unit := emit (Stderr parts).

Definition sleep (ms : nat) : M unit := emit (Sleep ms).

(** [args.flags.storage || tempPath()]. *)
Definition storagePath : string :=
  match storage (flags args) with
  | Some s => if JsString.is_empty s then tempPath env else s
  | None => tempPath env
  end.

(** Awaiting a promise of a collaborator: its value, or its rejection
    thrown. *)
Definition await {A} (o : Outcome A) : M A :=
  match o with
  | Resolved a => ret a
  | Rejected error => throw error
  end.

Definition await_listSchemas : M (list Schema) :=
  fun c =>
    (emit CallListSchemas ;; await (sheets_listSchemas env (n_listSchemas c)))
      {| n_listSchemas := S (n_listSchemas c); n_listQueries := n_listQueries c;
         n_list := n_list c; n_rm := n_rm c |}.

Definition await_listQueries (schemaId : string) : M (list NamedQuery) :=
  fun c =>
    (emit (CallListQueries schemaId) ;;
     await (sheets_listQueries env (n_listQueries c) schemaId))
      {| n_listSchemas := n_listSchemas c; n_listQueries := S (n_listQueries c);
         n_list := n_list c; n_rm := n_rm c |}.

Definition await_list (schemaId q : string) : M (list Js.value) :=
  fun c =>
    (emit (CallList schemaId q) ;; await (sheets_list env (n_list c) schemaId q))
      {| n_listSchemas := n_listSchemas c; n_listQueries := n_listQueries c;
         n_list := S (n_list c); n_rm := n_rm c |}.

Definition await_rm (path : string) : M unit :=
  fun c =>
    (emit (Rm path) ;; await (fs_rm env (n_rm c) path))
      {| n_listSchemas := n_listSchemas c; n_listQueries := n_listQueries c;
         n_list := n_list c; n_rm := S (n_rm c) |}.

(** [cleanup], get.mjs lines 51-68.  The three closing calls are started
    and not awaited. *)
Definition cleanup : M unit :=
  debug "Cleaning up..." ;;
  emit BlindClose ;;
  emit SwarmDestroy ;;
  emit StoreClose ;;
  if negb (given (storage (flags args))) then
    try_catch
      (await_rm storagePath ;;
       debug "Temporary storage removed")
      (fun error => console_error ["Error removing temp storage:"; error])
  else
    debug "Keeping user-provided storage".

(** One turn of the loop of [getSchemas], get.mjs lines 277-296: the new
    values of [retries] and [schemas]. *)
Definition getSchemas_turn (retries : nat) (schemas : list Schema)
  : M (nat * list Schema) :=
  try_catch
    (debug "Attempting to list schemas" ;;
     schemas' <- await_listSchemas ;;
     debug "listSchemas() returned" ;;
     if Nat.eqb (List.length schemas') 0 then
       let retries' := retries - 1 in
       (if Nat.ltb 0 retries' then
          debug "No schemas found, waiting 2s before retry..." ;; sleep 2000
        else ret tt) ;;
       ret (retries', schemas')
     else ret (retries, schemas'))
    (fun error =>
       debug "Error listing schemas" ;;
       let retries' := retries - 1 in
       (if Nat.ltb 0 retries' then
          debug "Waiting 2s before retry..." ;; sleep 2000
        else ret tt) ;;
       ret (retries', schemas)).

(** [while (retries > 0 && schemas.length === 0)], at most [turns] times
    around.  The loop leaves by its test well before: see
    [getSchemas_while_turns]. *)
Fixpoint getSchemas_while (turns retries : nat) (schemas : list Schema)
  : M (list Schema) :=
  if Nat.ltb 0 retries && Nat.eqb (List.length schemas) 0 then
    match turns with
    | 0 => ret schemas
    | S turns' =>
        state <- getSchemas_turn retries schemas ;;
        getSchemas_while turns' (fst state) (snd state)
    end
  else ret schemas.

(** [getSchemas], get.mjs lines 272-300. *)
Definition getSchemas : M (list Schema) := getSchemas_while 3 3 [].

(** [x[0]] followed by a property read: a [TypeError] when [x] is
    empty. *)
Definition first {A} (l : list A) : M A :=
  match l with
  | x :: _ => ret x
  | [] => throw "TypeError"
  end.

(** [receiver[k]] in the script. *)
Definition get_property (receiver : Js.value) (k : string) : M Js.value :=
  match Js.get (prototypes env) receiver k with
  | Some v => ret v
  | None => throw "TypeError"
  end.

Definition exportPrefix : string :=
  if export (flags args) then "export " else EmptyString.

(** The template of a shell assignment, get.mjs lines 205 and 241. *)
Definition assignment (prop : string) (v : Js.value) : string :=
  exportPrefix ++ propertyToVarName prop ++ "=" ++ str1 dquote
    ++ escapeShellValue v ++ str1 dquote.

(** Single property mode, get.mjs lines 183-186. *)
Definition outputFirstField (asJson : Js.value) : M unit :=
  match Js.keys asJson with
  | None => throw "TypeError"
  | Some ks =>
      let firstField := match ks with k :: _ => k | [] => "undefined" end in
      value <- get_property asJson firstField ;;
      console_log value
  end.

(** The object built for the JSON output, get.mjs lines 191-196. *)
Fixpoint selectProperties (properties : list string) (asJson : Js.value)
  (output : list (string * Js.value)) : M (list (string * Js.value)) :=
  match properties with
  | [] => ret output
  | prop :: rest =>
      v <- get_property asJson prop ;;
      if negb (Js.is_undefined v) then
        selectProperties rest asJson (Js.set prop v output)
      else selectProperties rest asJson output
  end.

(** Multiple properties mode, get.mjs lines 188-208. *)
Definition outputProperties (properties : list string) (asJson : Js.value)
  : M unit :=
  if json (flags args) then
    output <- selectProperties properties asJson [] ;;
    console_log (Js.stringify_value (Js.Obj output))
  else
    forEach properties (fun prop =>
      v <- get_property asJson prop ;;
      if negb (Js.is_undefined v) then
        console_log (Js.Str (assignment prop v))
      else ret tt).

(** The output of a JMESPath query, get.mjs lines 225-247. *)
Definition outputExpression (results : list Js.value) : M unit :=
  if json (flags args) then
    if Nat.eqb (List.length results) 1 then
      r0 <- first results ;;
      console_log (Js.stringify_value r0)
    else
      console_log (Js.stringify_value (Js.Arr results))
  else
    firstResult <- first results ;;
    match firstResult with
    | Js.Obj fields =>
        forEach (map fst fields) (fun prop =>
          v <- get_property firstResult prop ;;
          console_log (Js.Str (assignment prop v)))
    | _ => console_log firstResult
    end.

(** [executeQuery], get.mjs lines 118-259. *)
Definition executeQuery : M unit :=
  try_catch
    (let queryInput := query args in
     debug "Getting schemas..." ;;
     schemas <- getSchemas ;;
     debug "Schemas retrieved" ;;
     (if Nat.eqb (List.length schemas) 0 then
        console_error ["No schemas found"] ;;
        cleanup ;;
        process_exit 1
      else ret tt) ;;
     schema0 <- first schemas ;;
     let schemaId := schemaId schema0 in
     debug "Using schema ID" ;;
     (if namedQuery (flags args) then
        let queryName := fst (parseNamedQuery queryInput) in
        let properties := snd (parseNamedQuery queryInput) in
        match properties with
        | Some _ => debug "Named query, properties"
        | None => debug "Named query single property mode"
        end ;;
        debug "Listing queries..." ;;
        queries <- await_listQueries schemaId ;;
        debug "Queries retrieved" ;;
        match find (fun q => String.eqb (name q) queryName) queries with
        | None =>
            console_error ["Query " ++ str1 dquote ++ queryName ++ str1 dquote
                           ++ " not found"] ;;
            cleanup ;;
            process_exit 1
        | Some query =>
            debug "Found query" ;;
            debug "Executing named query..." ;;
            results <- await_list schemaId (JMESPathQuery query) ;;
            debug "Named query executed" ;;
            (if Nat.eqb (List.length results) 0 then
               console_error ["No results found"] ;;
               cleanup ;;
               process_exit 1
             else ret tt) ;;
            asJson <- first results ;;
            match properties with
            | None => outputFirstField asJson
            | Some properties => outputProperties properties asJson
            end
        end
      else
        debug "JMESPath query" ;;
        debug "Executing JMESPath query..." ;;
        results <- await_list schemaId queryInput ;;
        debug "JMESPath query executed" ;;
        (if Nat.eqb (List.length results) 0 then
           console_error ["No results found"] ;;
           cleanup ;;
           process_exit 1
         else ret tt) ;;
        outputExpression results) ;;
     cleanup ;;
     debug "Done!" ;;
     process_exit 0)
    (fun error =>
       console_error ["Error:"; error] ;;
       cleanup ;;
       process_exit 1).

(** The last statement of the script, get.mjs lines 261-270: the
    immediate attempt and, when its promise is rejected, a second call
    200 ms later, whose promise nobody handles. *)
Definition race : M unit :=
  debug "Attempting immediate query execution..." ;;
  try_catch executeQuery
    (fun _ =>
       debug "Immediate execution failed, waiting for sync..." ;;
       sleep 200 ;;
       debug "Retrying after sync delay..." ;;
       executeQuery).

(** The script from its first line, get.mjs lines 13-95 and 261-270.
    [swarm.on('connection', ...)] and [goodbye(cleanup)] register
    handlers for connections and for the signals and [beforeExit]; they
    run nothing in a process that ends by [process.exit] or by an
    uncaught exception, and such a process is all a run is here. *)
Definition main : M unit :=
  debug "Args parsed" ;;
  debug "using storagePath" ;;
  debug "Creating store, swarm, wakeup, blind..." ;;
  emit (NewCorestore storagePath) ;;
  debug "Store, swarm, wakeup, blind created" ;;
  debug "Decoding room link..." ;;
  descriptor <-
    match decodeRoomLink (z32_decode env) (roomLink args) with
    | Some d => ret d
    | None => throw "z32.decode: invalid input"
    end ;;
  let key := fst descriptor in
  let encryptionKey := snd descriptor in
  debug "Room link decoded" ;;
  debug "Creating SchemaSheets..." ;;
  emit (NewSchemaSheets key encryptionKey) ;;
  debug "SchemaSheets created" ;;
  debug "Waiting for sheets.ready()..." ;;
  emit Ready ;;
  await (sheets_ready env) ;;
  debug "sheets.ready() complete" ;;
  debug "Joining swarm..." ;;
  emit Join ;;
  await (swarm_join env) ;;
  debug "Swarm joined" ;;
  debug "Adding autobase background..." ;;
  emit AddAutobaseBackground ;;
  debug "Autobase background added" ;;
  race.

End Script.

(** A run of the process: how [main] ends and what it did.  An exception
    that reaches the top is uncaught: node prints it and the process ends
    with code 1. *)
Definition run (env : Env) (args : Args) : res unit * list Event :=
  let '(r, _, out) := main env args no_calls in (r, out).

Definition exit_code (r : res unit) : option nat :=
  match r with
  | Exited code => Some code
  | Thrown _ => Some 1
  | Val _ => None
  end.

(** The teardown calls among the events of a run. *)
Definition is_teardown (e : Event) : bool :=
  match e with
  | BlindClose | SwarmDestroy | StoreClose | Rm _ => true
  | _ => false
  end.

Definition teardown (out : list Event) : list Event := filter is_teardown out.

(** The result payload: what [console.log] received, debug lines apart. *)
Definition payload (out : list Event) : list Js.value :=
  flat_map (fun e => match e with Stdout v => [v] | _ => [] end) out.

(* ===================================================================== *)
(** * Reading an escaped value back                                       *)
(* ===================================================================== *)

(** The characters that are special between double quotes in a shell, plus
    the newline. *)
Definition is_special (c : ascii) : bool :=
  Ascii.eqb c backslash || Ascii.eqb c dquote || Ascii.eqb c backtick
  || Ascii.eqb c dollar || Ascii.eqb c newline.

(** What may follow the backslash of an escape pair: the four special
    characters that stand for themselves, and the letter n of the pair
    written for a newline. *)
Definition is_escapee (c : ascii) : bool :=
  Ascii.eqb c backslash || Ascii.eqb c dquote || Ascii.eqb c backtick
  || Ascii.eqb c dollar || Ascii.eqb c "n"%char.

(** [well_escaped s]: reading [s] from the left, every backslash opens an
    escape pair with one of the characters above, and no special character
    occurs outside of a pair.  An occurrence of a special character is
    unescaped exactly when this scan meets it outside of a pair. *)
Fixpoint well_escaped (s : string) : bool :=
  match s with
  | EmptyString => true
  | String c rest =>
      if Ascii.eqb c backslash then
        match rest with
        | EmptyString => false
        | String d rest' => is_escapee d && well_escaped rest'
        end
      else if is_special c then false
      else well_escaped rest
  end.

(** [occurs c s]: the character [c] occurs in [s]. *)
Fixpoint occurs (c : ascii) (s : string) : bool :=
  match s with
  | EmptyString => false
  | String a rest => Ascii.eqb a c || occurs c rest
  end.

(** The five substitutions seen as one pass over the characters. *)
Definition escape_char (c : ascii) : string :=
  if Ascii.eqb c backslash then String backslash (str1 backslash)
  else if Ascii.eqb c dquote then String backslash (str1 dquote)
  else if Ascii.eqb c backtick then String backslash (str1 backtick)
  else if Ascii.eqb c dollar then String backslash (str1 dollar)
  else if Ascii.eqb c newline then String backslash "n"
  else str1 c.

(* ===================================================================== *)
(** * How a computation ends, and with which teardown calls               *)
(* ===================================================================== *)

(** The teardown the script is expected to perform: the three closing
    calls in order and, when no storage path was given, the removal of the
    generated one. *)
Definition expected_teardown (env : Env) (args : Args) : list Event :=
  [BlindClose; SwarmDestroy; StoreClose]
  ++ (if given (storage (flags args)) then [] else [Rm (tempPath env)]).

Section Classes.

Context {A : Type}.
Variable T : list Event.

(** [quiet m]: [m] returns or throws, and makes no teardown call. *)
Definition quiet (m : M A) : Prop :=
  forall c, match m c with
            | (Exited _, _, _) => False
            | (_, _, out) => teardown out = []
            end.

(** [final m]: [m] ends the process, after the teardown calls [T]. *)
Definition final (m : M A) : Prop :=
  forall c, match m c with
            | (Exited _, _, out) => teardown out = T
            | _ => False
            end.

(** [steady m]: [m] is quiet, or it ends the process after [T]. *)
Definition steady (m : M A) : Prop :=
  forall c, match m c with
            | (Exited _, _, out) => teardown out = T
            | (_, _, out) => teardown out = []
            end.

(** [ends m]: as [steady m], and [m] never returns. *)
Definition ends (m : M A) : Prop :=
  forall c, match m c with
            | (Exited _, _, out) => teardown out = T
            | (Thrown _, _, out) => teardown out = []
            | (Val _, _, _) => False
            end.

(** [tears m]: [m] returns, having made the teardown calls [T]. *)
Definition tears (m : M A) : Prop :=
  forall c, match m c with
            | (Val _, _, out) => teardown out = T
            | _ => False
            end.

End Classes.

(* ===================================================================== *)
(** * Reading a run                                                       *)
(* ===================================================================== *)

Definition is_debug (e : Event) : bool :=
  match e with DebugLine _ => true | _ => false end.

(** The events of a run without its debug lines. *)
Definition undebug (out : list Event) : list Event :=
  filter (fun e => negb (is_debug e)) out.

(** What [cleanup] does when [rm] has been called [k] times before. *)
Definition cleanup_trace (env : Env) (args : Args) (k : nat) : list Event :=
  [BlindClose; SwarmDestroy; StoreClose]
  ++ (if given (storage (flags args)) then []
      else Rm (tempPath env)
           :: match fs_rm env k (tempPath env) with
              | Resolved _ => []
              | Rejected error => [Stderr ["Error removing temp storage:"; error]]
              end).

(** What the script does before its last statement, once the room link
    has been decoded into [key] and [encryptionKey]. *)
Definition startup_trace (env : Env) (args : Args)
  (key encryptionKey : list Byte.byte) : list Event :=
  [NewCorestore (storagePath env args); NewSchemaSheets key encryptionKey;
   Ready; Join; AddAutobaseBackground].

(** The schemas an attempt yields: none when the call fails. *)
Definition yield (o : Outcome (list Schema)) : list Schema :=
  match o with
  | Resolved schemas => schemas
  | Rejected _ => []
  end.

Definition nonempty {A} (l : list A) : bool := negb (Nat.eqb (List.length l) 0).

(** [env] with another answer of [rm]. *)
Definition with_rm (env : Env) (answer : nat -> string -> Outcome unit) : Env :=
  {| tempPath := tempPath env;
     z32_decode := z32_decode env;
     prototypes := prototypes env;
     sheets_ready := sheets_ready env;
     swarm_join := swarm_join env;
     sheets_listSchemas := sheets_listSchemas env;
     sheets_listQueries := sheets_listQueries env;
     sheets_list := sheets_list env;
     fs_rm := answer |}.

(** [agree m1 m2]: from the same calls, [m1] and [m2] end the same way and
    with the same calls; their events may differ. *)
Definition agree {A} (m1 m2 : M A) : Prop :=
  forall c, fst (m1 c) = fst (m2 c).

(** A scalar in the sense of the output of a JMESPath query: anything but
    an object that is neither [null] nor an array. *)
Definition is_scalar (v : Js.value) : bool :=
  match v with
  | Js.Obj _ => false
  | _ => true
  end.

(** The value a plain object answers for a key. *)
Definition lookup (fields : list (string * Js.value)) (k : string) : Js.value :=
  match Js.own k fields with
  | Some v => v
  | None => Js.object_prototype k
  end.

Definition defined (v : Js.value) : bool := negb (Js.is_undefined v).

(** [present fields k]: the record holds the property [k]. *)
Definition present (fields : list (string * Js.value)) (k : string) : bool :=
  match Js.own k fields with
  | Some _ => true
  | None => false
  end.

(* ===================================================================== *)
(** * Sample collaborators                                                *)
(* ===================================================================== *)

Module Sample.

Fixpoint all_y (s : string) : bool :=
  match s with
  | EmptyString => true
  | String c rest => Ascii.eqb c "y"%char && all_y rest
  end.

(** The answers of [z32.decode] on the locators made of whole groups of
    eight digits [y]: the digit [y] is worth five zero bits, so a group
    decodes to five zero bytes.  The sample rejects everything else, as
    [z32.decode] does for a character outside of its alphabet. *)
Definition decode (s : string) : option (list Byte.byte) :=
  if all_y s && Nat.eqb (String.length s mod 8) 0
  then Some (repeat Byte.x00 (String.length s / 8 * 5))
  else None.

Fixpoint ys (n : nat) : string :=
  match n with
  | 0 => EmptyString
  | S k => String "y"%char (ys k)
  end.

(** A room link of 56 digits: 35 bytes, a key of 32 and a secret of 3. *)
Definition link : string := ys 56.

(** A room link of 8 digits: 5 bytes. *)
Definition short_link : string := ys 8.

Definition no_prototypes : Js.prototypes := fun _ _ => Js.Undefined.

(** A store with one schema, one named query and the given records. *)
Definition env (records : list Js.value) : Env :=
  {| tempPath := "/tmp/sheets";
     z32_decode := decode;
     prototypes := no_prototypes;
     sheets_ready := Resolved tt;
     swarm_join := Resolved tt;
     sheets_listSchemas := fun _ => Resolved [ {| schemaId := "schema-1" |} ];
     sheets_listQueries := fun _ _ =>
       Resolved [ {| name := "staging/app1"; JMESPathQuery := "[0]" |} ];
     sheets_list := fun _ _ _ => Resolved records;
     fs_rm := fun _ _ => Resolved tt |}.

(** The same store before it has synchronised: no schema yet. *)
Definition empty_env : Env :=
  {| tempPath := "/tmp/sheets";
     z32_decode := decode;
     prototypes := no_prototypes;
     sheets_ready := Resolved tt;
     swarm_join := Resolved tt;
     sheets_listSchemas := fun _ => Resolved [];
     sheets_listQueries := fun _ _ => Resolved [];
     sheets_list := fun _ _ _ => Resolved [];
     fs_rm := fun _ _ => Resolved tt |}.

(** A store whose query facility fails. *)
Definition failing_env : Env :=
  {| tempPath := "/tmp/sheets";
     z32_decode := decode;
     prototypes := no_prototypes;
     sheets_ready := Resolved tt;
     swarm_join := Resolved tt;
     sheets_listSchemas := fun _ => Resolved [ {| schemaId := "schema-1" |} ];
     sheets_listQueries := fun _ _ => Resolved [];
     sheets_list := fun _ _ _ => Rejected "not yet synced";
     fs_rm := fun _ _ => Resolved tt |}.

(** A session that does not become ready. *)
Definition unready_env : Env :=
  {| tempPath := "/tmp/sheets";
     z32_decode := decode;
     prototypes := no_prototypes;
     sheets_ready := Rejected "session failure";
     swarm_join := Resolved tt;
     sheets_listSchemas := fun _ => Resolved [];
     sheets_listQueries := fun _ _ => Resolved [];
     sheets_list := fun _ _ _ => Resolved [];
     fs_rm := fun _ _ => Resolved tt |}.

Definition flags_of (named as_json with_export : bool) (dir : option string)
  : Flags :=
  {| namedQuery := named; storage := dir; blind := [];
     json := as_json; export := with_export; debugFlag := false |}.

Definition args_of (room q : string) (f : Flags) : Args :=
  {| roomLink := room; query := q; flags := f |}.

End Sample.

(** The script gets past its startup: the room link decodes, the session
    becomes ready and the swarm is joined. *)
Definition started (env : Env) (args : Args) : bool :=
  match decodeRoomLink (z32_decode env) (roomLink args),
        sheets_ready env, swarm_join env with
  | Some _, Resolved _, Resolved _ => true
  | _, _, _ => false
  end.

Definition is_rm (e : Event) : bool :=
  match e with Rm _ => true | _ => false end.

(** The removals among the events of a run. *)
Definition removals (out : list Event) : list Event := filter is_rm out.

Module SampleRuns.

(** A JMESPath query against [Sample.failing_env]. *)
Definition failing_args : Args :=
  Sample.args_of Sample.link "[0].key" (Sample.flags_of false false false None).

(** A room link that is not z-base-32. *)
Definition bad_link_args : Args :=
  Sample.args_of "not a room link" "[0].key"
    (Sample.flags_of false false false None).

(** A valid room link and no [-s]. *)
Definition plain_args : Args :=
  Sample.args_of Sample.link "[0].key" (Sample.flags_of false false false None).

(** A valid room link and [-s ./storage]. *)
Definition kept_args : Args :=
  Sample.args_of Sample.link "[0].key"
    (Sample.flags_of false false false (Some "./storage")).

End SampleRuns.

Module SampleRecords.

Definition quote : string := str1 dquote.

(** The record of the projection example: a and b. *)
Definition ab : Js.value :=
  Js.Obj [("a", Js.Str "1"); ("b", Js.Str "2")].

(** The record of the mode selection example. *)
Definition keys : Js.value :=
  Js.Obj [("api-key", Js.Str "k1"); ("database-url", Js.Str "d1")].

(** Named mode, shell output, for a query argument. *)
Definition shell_args (q : string) (with_export : bool) : Args :=
  Sample.args_of Sample.link q (Sample.flags_of true false with_export None).

(** Named mode, JSON output, for a query argument. *)
Definition json_args (q : string) : Args :=
  Sample.args_of Sample.link q (Sample.flags_of true true false None).

(** JMESPath mode with [--json]. *)
Definition expression_json_args : Args :=
  Sample.args_of Sample.link "[0].key" (Sample.flags_of false true false None).

End SampleRecords.

(** The object the JSON output builds from a plain record: the requested
    properties whose lookup is defined, assigned in the order of the
    request. *)
Definition selected (fields : list (string * Js.value)) (properties : list string)
  (output : list (string * Js.value)) : list (string * Js.value) :=
  fold_left
    (fun out prop =>
       if defined (lookup fields prop) then Js.set prop (lookup fields prop) out
       else out)
    properties output.

(** [JSON.stringify] leaves a property out when its value has no JSON
    text. *)
Definition left_out (v : Js.value) : bool :=
  match Js.stringify v with
  | Some _ => false
  | None => true
  end.

(* ===================================================================== *)
(** * Further readings of the script                                      *)
(* ===================================================================== *)

(** Reading an escaped value back: a backslash gives way to the character
    it escapes, the pair backslash n to a newline. *)
Fixpoint read_back (s : string) : string :=
  match s with
  | EmptyString => EmptyString
  | String c rest =>
      if Ascii.eqb c backslash then
        match rest with
        | EmptyString => str1 c
        | String d rest' =>
            String (if Ascii.eqb d "n"%char then newline else d) (read_back rest')
        end
      else String c (read_back rest)
  end.

(** A string that is empty or begins with something other than white
    space. *)
Definition begins_black (s : string) : bool :=
  match s with
  | EmptyString => true
  | String a _ => negb (JsString.is_space a)
  end.

(** The list [getSchemas] returns when [listSchemas] has been called
    [n_listSchemas c] times before: the first answer with a schema among
    the next three. *)
Definition schemas_of (env : Env) (c : calls) : list Schema :=
  let a i := yield (sheets_listSchemas env (n_listSchemas c + i)) in
  if nonempty (a 0) then a 0 else if nonempty (a 1) then a 1 else a 2.

(** What [getSchemas] does meanwhile, debug lines apart. *)
Definition listing_trace (env : Env) (c : calls) : list Event :=
  let a i := yield (sheets_listSchemas env (n_listSchemas c + i)) in
  if nonempty (a 0) then [CallListSchemas]
  else if nonempty (a 1) then [CallListSchemas; Sleep 2000; CallListSchemas]
  else [CallListSchemas; Sleep 2000; CallListSchemas; Sleep 2000; CallListSchemas].

(** [args] with another debug flag. *)
Definition with_debug (args : Args) (b : bool) : Args :=
  {| roomLink := roomLink args;
     query := query args;
     flags := {| namedQuery := namedQuery (flags args);
                 storage := storage (flags args);
                 blind := blind (flags args);
                 json := json (flags args);
                 export := export (flags args);
                 debugFlag := b |} |}.

Section MoreClasses.

Context {A : Type}.

(** [mute m]: [m] writes no payload. *)
Definition mute (m : M A) : Prop :=
  forall c, payload (snd (m c)) = [].

(** [atomic m]: [m] writes payload only when it returns. *)
Definition atomic (m : M A) : Prop :=
  forall c, payload (snd (m c)) = []
            \/ exists a, fst (fst (m c)) = Val a.

(** [succeeds_or_mute m]: [m] ends the process with code 0, or it has
    written no payload. *)
Definition succeeds_or_mute (m : M A) : Prop :=
  forall c, fst (fst (m c)) = Exited 0 \/ payload (snd (m c)) = [].

(** [erases m1 m2]: [m2] does what [m1] does, debug lines apart, and
    writes no debug line. *)
Definition erases (m1 m2 : M A) : Prop :=
  forall c, fst (m1 c) = fst (m2 c) /\ undebug (snd (m1 c)) = snd (m2 c).

End MoreClasses.

(** [nodebug m]: [m] writes no debug line. *)
Definition nodebug {A} (m : M A) : Prop :=
  forall c, undebug (snd (m c)) = snd (m c).

(** [runs m c r c' u]: from the calls [c], the computation [m] ends as
    [r], with the calls [c'], having done [u], debug lines apart. *)
Definition runs {A} (m : M A) (c : calls) (r : res A) (c' : calls)
  (u : list Event) : Prop :=
  exists out, m c = (r, c', out) /\ undebug out = u.

(** The calls after one more call of [listQueries], of [list]. *)
Definition after_listQueries (c : calls) : calls :=
  {| n_listSchemas := n_listSchemas c; n_listQueries := S (n_listQueries c);
     n_list := n_list c; n_rm := n_rm c |}.

Definition after_list (c : calls) : calls :=
  {| n_listSchemas := n_listSchemas c; n_listQueries := n_listQueries c;
     n_list := S (n_list c); n_rm := n_rm c |}.

(** The output step of the named mode, get.mjs lines 182-209, as
    [executeQuery] has it. *)
Definition named_output (env : Env) (args : Args) (asJson : Js.value) : M unit :=
  match snd (parseNamedQuery (query args)) with
  | None => outputFirstField env asJson
  | Some properties => outputProperties env args properties asJson
  end.

(** ** Counting the events of a computation *)

Section Occurrences.

Variable P : Event -> bool.
Context {A : Type}.

(** [silent P m]: [m] makes no event of the kind [P]. *)
Definition silent (m : M A) : Prop :=
  forall c, filter P (snd (m c)) = [].

(** [once P m]: [m] makes at most one event of the kind [P]. *)
Definition once (m : M A) : Prop :=
  forall c, List.length (filter P (snd (m c))) <= 1.

End Occurrences.

Definition is_list (e : Event) : bool :=
  match e with CallList _ _ => true | _ => false end.

Definition is_listQueries (e : Event) : bool :=
  match e with CallListQueries _ => true | _ => false end.

(** The error reports of the script: what [console.error] writes, the
    failure of the storage removal apart. *)
Definition is_report (e : Event) : bool :=
  match e with
  | Stderr parts =>
      match parts with
      | head :: _ => negb (String.eqb head "Error removing temp storage:")
      | [] => true
      end
  | _ => false
  end.

Definition reports (out : list Event) : list Event := filter is_report out.

(** [settled m]: when [m] ends the process, it is with code 0 and no
    report, or with code 1 and one report; when it returns or throws, it
    has made no report. *)
Definition settled {A} (m : M A) : Prop :=
  forall c,
    match fst (fst (m c)) with
    | Exited 0 => reports (snd (m c)) = []
    | Exited 1 => List.length (reports (snd (m c))) = 1
    | Exited _ => False
    | _ => reports (snd (m c)) = []
    end.

Module MoreSamples.

(** A store whose listing of the queries fails. *)
Definition unlisted_env : Env :=
  {| tempPath := "/tmp/sheets";
     z32_decode := Sample.decode;
     prototypes := Sample.no_prototypes;
     sheets_ready := Resolved tt;
     swarm_join := Resolved tt;
     sheets_listSchemas := fun _ => Resolved [ {| schemaId := "schema-1" |} ];
     sheets_listQueries := fun _ _ => Rejected "not yet synced";
     sheets_list := fun _ _ _ => Resolved [];
     fs_rm := fun _ _ => Resolved tt |}.

(** The record of the single property example: first and second. *)
Definition first_second : Js.value :=
  Js.Obj [("first", Js.Str "x"); ("second", Js.Str "y")].

(** JMESPath mode, shell output. *)
Definition expression_args (q : string) (with_export : bool) : Args :=
  Sample.args_of Sample.link q (Sample.flags_of false false with_export None).

End MoreSamples.

(* ===================================================================== *)
(** * Properties of the string primitives                                 *)
(* ===================================================================== *)

Lemma string_app_assoc (a b c : string) : (a ++ b) ++ c = a ++ (b ++ c).
Proof. induction a as [|x a IH]; simpl; [reflexivity | now rewrite IH]. Qed.

Lemma string_app_empty_r (a : string) : a ++ EmptyString = a.
Proof. induction a as [|x a IH]; simpl; [reflexivity | now rewrite IH]. Qed.

Lemma replaceAll_app (c : ascii) (r a b : string) :
  JsString.replaceAll c r (a ++ b)
  = JsString.replaceAll c r a ++ JsString.replaceAll c r b.
Proof.
  induction a as [|x a IH]; simpl; [reflexivity|].
  destruct (Ascii.eqb x c); simpl; rewrite IH.
  - now rewrite string_app_assoc.
  - reflexivity.
Qed.

Ltac each_char c := destruct c as [[] [] [] [] [] [] [] []].

(** One character through the five substitutions. *)
Lemma escapeShellValue_char (c : ascii) :
  escapeShellValue (Js.Str (str1 c)) = escape_char c.
Proof. each_char c; reflexivity. Qed.

Lemma escapeShellValue_app (a b : string) :
  escapeShellValue (Js.Str (a ++ b))
  = escapeShellValue (Js.Str a) ++ escapeShellValue (Js.Str b).
Proof.
  unfold escapeShellValue; simpl Js.ToString.
  now rewrite !replaceAll_app.
Qed.

Lemma escapeShellValue_cons (c : ascii) (s : string) :
  escapeShellValue (Js.Str (String c s))
  = escape_char c ++ escapeShellValue (Js.Str s).
Proof.
  change (String c s) with (str1 c ++ s).
  now rewrite escapeShellValue_app, escapeShellValue_char.
Qed.

Lemma escapeShellValue_ToString (v : Js.value) :
  escapeShellValue v = escapeShellValue (Js.Str (Js.ToString v)).
Proof. reflexivity. Qed.

Lemma well_escaped_escape_char (c : ascii) (s : string) :
  well_escaped (escape_char c ++ s) = well_escaped s.
Proof. each_char c; reflexivity. Qed.

Lemma occurs_newline_escape_char (c : ascii) (s : string) :
  occurs newline (escape_char c ++ s) = occurs newline s.
Proof. each_char c; reflexivity. Qed.

Lemma escapeShellValue_well_escaped (s : string) :
  well_escaped (escapeShellValue (Js.Str s)) = true.
Proof.
  induction s as [|c s IH]; [reflexivity|].
  now rewrite escapeShellValue_cons, well_escaped_escape_char.
Qed.

Lemma escapeShellValue_no_newline (s : string) :
  occurs newline (escapeShellValue (Js.Str s)) = false.
Proof.
  induction s as [|c s IH]; [reflexivity|].
  now rewrite escapeShellValue_cons, occurs_newline_escape_char.
Qed.

(* ===================================================================== *)
(** * Properties of the variable names                                    *)
(* ===================================================================== *)

(** What [toUpperCase] receives in [propertyToVarName] is made of word
    characters. *)
Lemma replaceOutside_word (s : string) :
  JsString.all JsString.is_word
    (JsString.replaceOutside JsString.is_word underscore s) = true.
Proof.
  induction s as [|c s IH]; [reflexivity|].
  simpl. rewrite IH, andb_true_r.
  destruct (JsString.is_word c) eqn:W; [exact W | reflexivity].
Qed.

Lemma upper_char_var (c : ascii) :
  JsString.is_var_char
    (JsString.upper_char (if JsString.is_word c then c else underscore)) = true.
Proof. each_char c; reflexivity. Qed.

Lemma upper_char_fixed (c : ascii) :
  JsString.is_var_char c = true ->
  JsString.upper_char (if JsString.is_word c then c else underscore) = c.
Proof. each_char c; (reflexivity || discriminate). Qed.

(** A variable name is made of capital letters, digits and underscores. *)
Lemma propertyToVarName_charset (property : string) :
  JsString.all JsString.is_var_char (propertyToVarName property) = true.
Proof.
  unfold propertyToVarName.
  induction property as [|c s IH]; [reflexivity|].
  simpl. now rewrite upper_char_var, IH.
Qed.

(** The transform leaves a variable name alone. *)
Lemma propertyToVarName_idempotent (property : string) :
  propertyToVarName (propertyToVarName property) = propertyToVarName property.
Proof.
  assert (H : forall s, JsString.all JsString.is_var_char s = true ->
                        propertyToVarName s = s).
  { unfold propertyToVarName.
    induction s as [|c s IH]; [reflexivity|]. simpl.
    intros A. apply andb_prop in A as [Hc Hs].
    now rewrite (upper_char_fixed c Hc), (IH Hs). }
  apply H, propertyToVarName_charset.
Qed.

(** C8. For every value, [escapeShellValue] is the composition of the five
    substitutions in the order backslash, double quote, backtick, dollar,
    newline (each special character receiving a backslash, the newline
    becoming backslash n).  No substitution touches what an earlier one has
    written: the result is the text of the value with each character
    escaped on its own.  It has no unescaped occurrence of any of the five
    characters: it is well escaped and holds no newline. *)
Theorem escapeShellValue_five_substitutions (value : Js.value) :
  escapeShellValue value
  = JsString.replaceAll newline (String backslash "n")
      (JsString.replaceAll dollar (String backslash (str1 dollar))
         (JsString.replaceAll backtick (String backslash (str1 backtick))
            (JsString.replaceAll dquote (String backslash (str1 dquote))
               (JsString.replaceAll backslash (String backslash (str1 backslash))
                  (Js.ToString value)))))
  /\ (forall c s,
        escapeShellValue (Js.Str (String c s))
        = escape_char c ++ escapeShellValue (Js.Str s))
  /\ well_escaped (escapeShellValue value) = true
  /\ occurs newline (escapeShellValue value) = false.
Proof.
  split; [reflexivity|].
  split; [apply escapeShellValue_cons|].
  rewrite escapeShellValue_ToString.
  split; [apply escapeShellValue_well_escaped | apply escapeShellValue_no_newline].
Qed.

(* ===================================================================== *)
(** * Rules for the classes of computations                               *)
(* ===================================================================== *)

Lemma teardown_app (a b : list Event) :
  teardown (a ++ b) = (teardown a ++ teardown b)%list.
Proof. apply filter_app. Qed.

(** Case analysis on the result of running a computation. *)
Ltac run_of m c :=
  let r := fresh "r" in let c' := fresh "c" in let out := fresh "out" in
  let E := fresh "E" in
  destruct (m c) as [[r c'] out] eqn:E; destruct r.

Section Rules.

Context {A B : Type}.
Variable T : list Event.

Lemma quiet_ret (a : A) : quiet (ret a).
Proof. intros c; reflexivity. Qed.

Lemma quiet_throw (e : string) : quiet (@throw A e).
Proof. intros c; reflexivity. Qed.

Lemma quiet_bind (m : M A) (f : A -> M B) :
  quiet m -> (forall a, quiet (f a)) -> quiet (bind m f).
Proof.
  intros Hm Hf c; unfold bind.
  specialize (Hm c). run_of m c; try easy.
  specialize (Hf a c0). run_of (f a) c0; try easy;
    rewrite teardown_app, Hm, Hf; reflexivity.
Qed.

Lemma quiet_try (body : M A) (handler : string -> M A) :
  quiet body -> (forall e, quiet (handler e)) -> quiet (try_catch body handler).
Proof.
  intros Hb Hh c; unfold try_catch.
  specialize (Hb c). run_of body c; try easy.
  specialize (Hh error c0). run_of (handler error) c0; try easy;
    rewrite teardown_app, Hb, Hh; reflexivity.
Qed.

Lemma quiet_of_tears (m : M A) : tears [] m -> quiet m.
Proof. intros H c; specialize (H c); run_of m c; easy. Qed.

Lemma steady_of_quiet (m : M A) : quiet m -> steady T m.
Proof. intros H c; specialize (H c); run_of m c; easy. Qed.

Lemma steady_of_final (m : M A) : final T m -> steady T m.
Proof. intros H c; specialize (H c); run_of m c; easy. Qed.

Lemma steady_bind (m : M A) (f : A -> M B) :
  steady T m -> (forall a, steady T (f a)) -> steady T (bind m f).
Proof.
  intros Hm Hf c; unfold bind.
  specialize (Hm c). run_of m c; try easy.
  specialize (Hf a c0). run_of (f a) c0;
    rewrite teardown_app, Hm, Hf; reflexivity.
Qed.

Lemma ends_of_final (m : M A) : final T m -> ends T m.
Proof. intros H c; specialize (H c); run_of m c; easy. Qed.

Lemma ends_bind (m : M A) (f : A -> M B) :
  steady T m -> (forall a, ends T (f a)) -> ends T (bind m f).
Proof.
  intros Hm Hf c; unfold bind.
  specialize (Hm c). run_of m c; try easy.
  specialize (Hf a c0). run_of (f a) c0; try easy;
    rewrite teardown_app, Hm, Hf; reflexivity.
Qed.

Lemma final_try (body : M A) (handler : string -> M A) :
  ends T body -> (forall e, final T (handler e)) -> final T (try_catch body handler).
Proof.
  intros Hb Hh c; unfold try_catch.
  specialize (Hb c). run_of body c; try easy.
  specialize (Hh error c0). run_of (handler error) c0; try easy.
  rewrite teardown_app, Hb, Hh; reflexivity.
Qed.

Lemma final_bind (T1 T2 : list Event) (m : M A) (f : A -> M B) :
  tears T1 m -> (forall a, final T2 (f a)) -> (T1 ++ T2)%list = T ->
  final T (bind m f).
Proof.
  intros Hm Hf <- c; unfold bind.
  specialize (Hm c). run_of m c; try easy.
  specialize (Hf a c0). run_of (f a) c0; try easy.
  rewrite teardown_app, Hm, Hf; reflexivity.
Qed.

Lemma tears_bind (T1 T2 : list Event) (m : M A) (f : A -> M B) :
  tears T1 m -> (forall a, tears T2 (f a)) -> (T1 ++ T2)%list = T ->
  tears T (bind m f).
Proof.
  intros Hm Hf <- c; unfold bind.
  specialize (Hm c). run_of m c; try easy.
  specialize (Hf a c0). run_of (f a) c0; try easy.
  rewrite teardown_app, Hm, Hf; reflexivity.
Qed.

End Rules.

Lemma final_exit {A} (code : nat) : final [] (@process_exit A code).
Proof. intros c; reflexivity. Qed.

Lemma tears_ret {A} (a : A) : tears [] (ret a).
Proof. intros c; reflexivity. Qed.

Lemma tears_emit (e : Event) : is_teardown e = false -> tears [] (emit e).
Proof. intros H c; unfold teardown; simpl; now rewrite H. Qed.

Lemma tears_emit_teardown (e : Event) : is_teardown e = true -> tears [e] (emit e).
Proof. intros H c; unfold teardown; simpl; now rewrite H. Qed.

Section ScriptRules.

Variable env : Env.
Variable args : Args.

Lemma tears_debug (label : string) : tears [] (debug args label).
Proof. unfold debug; destruct (debugFlag _); [now apply tears_emit | apply tears_ret]. Qed.

Lemma tears_console_error (parts : list string) : tears [] (console_error parts).
Proof. now apply tears_emit. Qed.

Lemma tears_console_log (v : Js.value) : tears [] (console_log v).
Proof. now apply tears_emit. Qed.

Lemma tears_sleep (ms : nat) : tears [] (sleep ms).
Proof. now apply tears_emit. Qed.

Lemma quiet_await {A} (o : Outcome A) : quiet (await o).
Proof. destruct o; intros c; reflexivity. Qed.

Lemma quiet_await_listSchemas : quiet (await_listSchemas env).
Proof.
  intros c; unfold await_listSchemas, bind, emit.
  destruct (sheets_listSchemas env _); reflexivity.
Qed.

Lemma quiet_await_listQueries (s : string) : quiet (await_listQueries env s).
Proof.
  intros c; unfold await_listQueries, bind, emit.
  destruct (sheets_listQueries env _ _); reflexivity.
Qed.

Lemma quiet_await_list (s q : string) : quiet (await_list env s q).
Proof.
  intros c; unfold await_list, bind, emit.
  destruct (sheets_list env _ _ _); reflexivity.
Qed.

Lemma storagePath_generated :
  given (storage (flags args)) = false -> storagePath env args = tempPath env.
Proof.
  unfold storagePath, given.
  destruct (storage (flags args)) as [s|]; [|reflexivity].
  destruct s; [reflexivity | discriminate].
Qed.

(** [cleanup] always returns, after exactly the expected teardown calls,
    whatever [rm] answers. *)
Lemma tears_cleanup : tears (expected_teardown env args) (cleanup env args).
Proof.
  intros c. unfold expected_teardown, cleanup, debug.
  destruct (given (storage (flags args))) eqn:G; simpl.
  - destruct (debugFlag (flags args)); reflexivity.
  - rewrite (storagePath_generated G).
    unfold bind, try_catch, await_rm, emit, ret, console_error; simpl.
    destruct (debugFlag (flags args)); simpl;
      destruct (fs_rm env (n_rm c) (tempPath env)); reflexivity.
Qed.

End ScriptRules.

(** The exit sequences of the script. *)
Lemma final_error_exit (env : Env) (args : Args) (parts : list string) (code : nat) :
  final (expected_teardown env args)
    (console_error parts ;; cleanup env args ;; @process_exit unit code).
Proof.
  eapply final_bind; [apply tears_console_error | intros _ | reflexivity].
  eapply final_bind; [apply tears_cleanup | intros _; apply final_exit |].
  apply app_nil_r.
Qed.

Lemma final_done_exit (env : Env) (args : Args) (label : string) (code : nat) :
  final (expected_teardown env args)
    (cleanup env args ;; debug args label ;; @process_exit unit code).
Proof.
  eapply final_bind; [apply tears_cleanup | intros _ | apply app_nil_r].
  eapply final_bind; [apply tears_debug | intros _; apply final_exit | reflexivity].
Qed.

Create HintDb proc.

#[local] Hint Resolve quiet_ret quiet_throw quiet_await quiet_await_listSchemas
  quiet_await_listQueries quiet_await_list : proc.
#[local] Hint Resolve tears_debug tears_console_error tears_console_log
  tears_sleep tears_ret : proc.
#[local] Hint Resolve final_error_exit final_done_exit : proc.

(** Classification by the shape of the computation: a sequence is taken
    apart, a conditional is split, a leaf is found among the hints. *)
Ltac quiet_tac :=
  lazymatch goal with
  | |- forall _, _ => intro; quiet_tac
  | |- quiet (bind _ _) => apply quiet_bind; quiet_tac
  | |- quiet (try_catch _ _) => apply quiet_try; quiet_tac
  | |- quiet (if ?b then _ else _) => destruct b; quiet_tac
  | |- quiet (match ?x with _ => _ end) => destruct x; quiet_tac
  | |- quiet _ =>
      first [ solve [auto with proc]
            | solve [apply quiet_of_tears; auto with proc] ]
  end.

Section ScriptClasses.

Variable env : Env.
Variable args : Args.

Lemma quiet_getSchemas_turn (retries : nat) (schemas : list Schema) :
  quiet (getSchemas_turn env args retries schemas).
Proof. unfold getSchemas_turn. quiet_tac. Qed.

Lemma quiet_getSchemas_while (turns retries : nat) (schemas : list Schema) :
  quiet (getSchemas_while env args turns retries schemas).
Proof.
  revert retries schemas.
  induction turns as [|turns IH]; intros retries schemas; simpl.
  - destruct (_ && _); apply quiet_ret.
  - destruct (_ && _); [|apply quiet_ret].
    apply quiet_bind; [apply quiet_getSchemas_turn | intros st; apply IH].
Qed.

Lemma quiet_getSchemas : quiet (getSchemas env args).
Proof. apply quiet_getSchemas_while. Qed.

Lemma quiet_first {A} (l : list A) : quiet (first l).
Proof. destruct l; [apply quiet_throw | apply quiet_ret]. Qed.

Lemma quiet_get_property (receiver : Js.value) (k : string) :
  quiet (get_property env receiver k).
Proof. unfold get_property; destruct (Js.get _ _ _); auto with proc. Qed.

Hint Resolve quiet_first quiet_get_property : proc.

Lemma quiet_forEach {A} (l : list A) (f : A -> M unit) :
  (forall a, quiet (f a)) -> quiet (forEach l f).
Proof.
  intros Hf; induction l as [|x l IH]; simpl; [apply quiet_ret|].
  apply quiet_bind; auto.
Qed.

Lemma quiet_outputFirstField (asJson : Js.value) :
  quiet (outputFirstField env asJson).
Proof. unfold outputFirstField. destruct (Js.keys asJson); quiet_tac. Qed.

Lemma quiet_selectProperties (properties : list string) (asJson : Js.value)
  (output : list (string * Js.value)) :
  quiet (selectProperties env properties asJson output).
Proof.
  revert output; induction properties as [|p l IH]; intros output; simpl.
  - apply quiet_ret.
  - apply quiet_bind; [auto with proc|].
    intros v; destruct (negb _); apply IH.
Qed.

Lemma quiet_outputProperties (properties : list string) (asJson : Js.value) :
  quiet (outputProperties env args properties asJson).
Proof.
  unfold outputProperties. destruct (json (flags args)).
  - apply quiet_bind; [apply quiet_selectProperties | quiet_tac].
  - apply quiet_forEach. quiet_tac.
Qed.

Lemma quiet_outputExpression (results : list Js.value) :
  quiet (outputExpression env args results).
Proof.
  unfold outputExpression. destruct (json (flags args)).
  - quiet_tac.
  - apply quiet_bind; [auto with proc|].
    intros v; destruct v; try solve [apply quiet_of_tears; auto with proc].
    apply quiet_forEach. quiet_tac.
Qed.

Hint Resolve quiet_getSchemas quiet_outputFirstField quiet_outputProperties
  quiet_outputExpression : proc.

Ltac steady_tac :=
  lazymatch goal with
  | |- forall _, _ => intro; steady_tac
  | |- steady _ (if ?b then _ else _) => destruct b; steady_tac
  | |- steady _ (match ?x with _ => _ end) => destruct x; steady_tac
  | |- steady _ _ =>
      first [ solve [apply steady_of_final; auto with proc]
            | solve [apply steady_of_quiet; quiet_tac]
            | apply steady_bind; steady_tac ]
  end.

(** The body of [executeQuery] never returns: it throws before any
    teardown, or it exits after exactly one. *)
Lemma final_executeQuery :
  final (expected_teardown env args) (executeQuery env args).
Proof.
  unfold executeQuery.
  apply final_try; [| intros e; apply final_error_exit].
  repeat (apply ends_bind; [steady_tac | intros ?]).
  apply ends_of_final, final_done_exit.
Qed.

End ScriptClasses.

(* ===================================================================== *)
(** * The last statement of the script                                    *)
(* ===================================================================== *)

Lemma undebug_app (a b : list Event) :
  undebug (a ++ b) = (undebug a ++ undebug b)%list.
Proof. apply filter_app. Qed.

(** [executeQuery] always ends the process. *)
Lemma executeQuery_exits (env : Env) (args : Args) (c : calls) :
  exists code c' out,
    executeQuery env args c = (Exited code, c', out)
    /\ teardown out = expected_teardown env args.
Proof.
  pose proof (final_executeQuery env args c) as H.
  destruct (executeQuery env args c) as [[r c'] out]; destruct r; try easy.
  now exists code, c', out.
Qed.

(** The handler of the immediate attempt never runs: the last statement of
    the script is one call of [executeQuery]. *)
Lemma race_single_attempt (env : Env) (args : Args) (c : calls) :
  race env args c
  = (debug args "Attempting immediate query execution..." ;;
     executeQuery env args) c.
Proof.
  unfold race, bind.
  destruct (debug args _ c) as [[r c1] out1]; destruct r; try reflexivity.
  unfold try_catch.
  destruct (executeQuery_exits env args c1) as (code & c' & out & E & _).
  now rewrite E.
Qed.

Lemma race_exits (env : Env) (args : Args) (c : calls) :
  exists code c' out,
    race env args c = (Exited code, c', out)
    /\ teardown out = expected_teardown env args.
Proof.
  rewrite race_single_attempt. unfold bind, debug.
  destruct (executeQuery_exits env args c) as (code & c' & out & E & Ht).
  destruct (debugFlag (flags args)); simpl; rewrite E;
    eexists _, _, _; (split; [reflexivity|]); exact Ht.
Qed.

(** Once the room link is decoded and the session is ready and joined, the
    script reaches its last statement. *)
Lemma main_reaches_race (env : Env) (args : Args) (key secret : list Byte.byte)
  (c : calls) :
  decodeRoomLink (z32_decode env) (roomLink args) = Some (key, secret) ->
  sheets_ready env = Resolved tt ->
  swarm_join env = Resolved tt ->
  exists pre,
    undebug pre = startup_trace env args key secret
    /\ teardown pre = []
    /\ main env args c
       = (fst (fst (race env args c)), snd (fst (race env args c)),
          (pre ++ snd (race env args c))%list).
Proof.
  intros Hd Hr Hj. unfold main. rewrite Hd, Hr, Hj.
  unfold bind, debug, emit, ret, await.
  destruct (debugFlag (flags args)); simpl;
    destruct (race env args c) as [[r c'] out]; simpl.
  - exists [DebugLine "Args parsed"; DebugLine "using storagePath";
            DebugLine "Creating store, swarm, wakeup, blind...";
            NewCorestore (storagePath env args);
            DebugLine "Store, swarm, wakeup, blind created";
            DebugLine "Decoding room link..."; DebugLine "Room link decoded";
            DebugLine "Creating SchemaSheets..."; NewSchemaSheets key secret;
            DebugLine "SchemaSheets created";
            DebugLine "Waiting for sheets.ready()..."; Ready;
            DebugLine "sheets.ready() complete"; DebugLine "Joining swarm...";
            Join; DebugLine "Swarm joined";
            DebugLine "Adding autobase background..."; AddAutobaseBackground;
            DebugLine "Autobase background added"].
    repeat split.
  - exists (startup_trace env args key secret). repeat split.
Qed.

(* ===================================================================== *)
(** * Runs                                                                *)
(* ===================================================================== *)

(** A run that gets past the startup exits, after one teardown. *)
Lemma run_started (env : Env) (args : Args) :
  started env args = true ->
  exists code out,
    run env args = (Exited code, out)
    /\ teardown out = expected_teardown env args.
Proof.
  unfold started. intros S.
  destruct (decodeRoomLink _ _) as [[key secret]|] eqn:Hd; [|discriminate].
  destruct (sheets_ready env) as [[]|] eqn:Hr; [|discriminate].
  destruct (swarm_join env) as [[]|] eqn:Hj; [|discriminate].
  destruct (main_reaches_race env args _ _ no_calls Hd Hr Hj) as (pre & _ & Hp & E).
  destruct (race_exits env args no_calls) as (code & c' & out & Er & Ht).
  unfold run. rewrite E, Er. simpl.
  exists code, (pre ++ out)%list. split; [reflexivity|].
  now rewrite teardown_app, Hp, Ht.
Qed.

(** A run that does not get past the startup ends with an uncaught
    exception, before any teardown. *)
Lemma run_not_started (env : Env) (args : Args) :
  started env args = false ->
  exists error out,
    run env args = (Thrown error, out) /\ teardown out = [].
Proof.
  unfold started, run, main. intros S.
  destruct (decodeRoomLink _ _) as [[key secret]|] eqn:Hd.
  - destruct (sheets_ready env) as [[]|] eqn:Hr.
    + destruct (swarm_join env) as [[]|] eqn:Hj; [discriminate|].
      unfold bind, debug, emit, ret, await, throw.
      destruct (debugFlag (flags args)); simpl; eexists _, _; split; reflexivity.
    + unfold bind, debug, emit, ret, await, throw.
      destruct (debugFlag (flags args)); simpl; eexists _, _; split; reflexivity.
  - unfold bind, debug, emit, ret, await, throw.
    destruct (debugFlag (flags args)); simpl; eexists _, _; split; reflexivity.
Qed.

Lemma cleanup_twice (env : Env) (args : Args) (c : calls) :
  exists c' out,
    (cleanup env args ;; cleanup env args) c = (Val tt, c', out)
    /\ teardown out
       = (expected_teardown env args ++ expected_teardown env args)%list.
Proof.
  assert (H : tears (expected_teardown env args ++ expected_teardown env args)
                (cleanup env args ;; cleanup env args)).
  { eapply tears_bind; [apply tears_cleanup | intros _; apply tears_cleanup |].
    reflexivity. }
  specialize (H c).
  destruct ((cleanup env args ;; cleanup env args) c) as [[r c'] out].
  destruct r as [[]| |]; try easy. now exists c', out.
Qed.

(* ===================================================================== *)
(** * The answer of rm does not change how a run ends                     *)
(* ===================================================================== *)

Section AgreeRules.

Context {A B : Type}.

Lemma agree_refl (m : M A) : agree m m.
Proof. intros c; reflexivity. Qed.

Lemma agree_bind (m1 m2 : M A) (f1 f2 : A -> M B) :
  agree m1 m2 -> (forall a, agree (f1 a) (f2 a)) ->
  agree (bind m1 f1) (bind m2 f2).
Proof.
  intros Hm Hf c; unfold bind. specialize (Hm c).
  destruct (m1 c) as [[r1 c1] o1], (m2 c) as [[r2 c2] o2].
  simpl in Hm; inversion Hm; subst.
  destruct r2; try reflexivity.
  specialize (Hf a c2).
  destruct (f1 a c2) as [[r1 c1] o3], (f2 a c2) as [[r3 c3] o4].
  simpl in *; now inversion Hf.
Qed.

Lemma agree_try (b1 b2 : M A) (h1 h2 : string -> M A) :
  agree b1 b2 -> (forall e, agree (h1 e) (h2 e)) ->
  agree (try_catch b1 h1) (try_catch b2 h2).
Proof.
  intros Hb Hh c; unfold try_catch. specialize (Hb c).
  destruct (b1 c) as [[r1 c1] o1], (b2 c) as [[r2 c2] o2].
  simpl in Hb; inversion Hb; subst.
  destruct r2; try reflexivity.
  specialize (Hh error c2).
  destruct (h1 error c2) as [[r1 c1] o3], (h2 error c2) as [[r3 c3] o4].
  simpl in *; now inversion Hh.
Qed.

End AgreeRules.

Section Agree.

Variable env : Env.
Variable args : Args.
Variable answer : nat -> string -> Outcome unit.

Lemma agree_cleanup :
  agree (cleanup (with_rm env answer) args) (cleanup env args).
Proof.
  intros c. unfold cleanup, debug, bind, try_catch, await_rm, emit, ret,
    console_error, await, throw; simpl.
  destruct (debugFlag (flags args)), (given (storage (flags args))); simpl;
    try reflexivity;
    destruct (answer (n_rm c) _), (fs_rm env (n_rm c) _); reflexivity.
Qed.

Ltac agree_tac :=
  lazymatch goal with
  | |- forall _, _ => intro; agree_tac
  | |- agree (bind _ _) (bind _ _) => apply agree_bind; agree_tac
  | |- agree (try_catch _ _) (try_catch _ _) => apply agree_try; agree_tac
  | |- agree (cleanup _ _) (cleanup _ _) => apply agree_cleanup
  | |- agree (if ?b then _ else _) _ => destruct b; agree_tac
  | |- agree (match ?x with _ => _ end) _ => destruct x; agree_tac
  | |- agree _ _ => exact (agree_refl _)
  end.

Lemma agree_executeQuery :
  agree (executeQuery (with_rm env answer) args) (executeQuery env args).
Proof. unfold executeQuery. agree_tac. Qed.

Lemma agree_race :
  agree (race (with_rm env answer) args) (race env args).
Proof.
  unfold race.
  apply agree_bind; [apply agree_refl | intros _].
  apply agree_try; [apply agree_executeQuery | intros _].
  repeat (apply agree_bind; [apply agree_refl | intros _]).
  apply agree_executeQuery.
Qed.

Lemma agree_main : agree (main (with_rm env answer) args) (main env args).
Proof.
  unfold main.
  repeat (apply agree_bind; [exact (agree_refl _) | intros ?]).
  apply agree_try; [apply agree_executeQuery | intros _].
  repeat (apply agree_bind; [apply agree_refl | intros _]).
  apply agree_executeQuery.
Qed.

Lemma run_with_rm :
  fst (run (with_rm env answer) args) = fst (run env args).
Proof.
  unfold run. pose proof (agree_main no_calls) as H.
  destruct (main (with_rm env answer) args no_calls) as [[r1 c1] o1].
  destruct (main env args no_calls) as [[r2 c2] o2].
  simpl in *. now inversion H.
Qed.

End Agree.

(** What [cleanup] does, debug lines apart. *)
Lemma cleanup_undebug (env : Env) (args : Args) (c : calls) :
  exists c' out,
    cleanup env args c = (Val tt, c', out)
    /\ undebug out = cleanup_trace env args (n_rm c).
Proof.
  unfold cleanup, cleanup_trace, debug.
  destruct (given (storage (flags args))) eqn:G; simpl.
  - destruct (debugFlag (flags args)); eexists _, _; split; reflexivity.
  - rewrite (storagePath_generated env args G).
    unfold bind, try_catch, await_rm, emit, ret, console_error; simpl.
    destruct (debugFlag (flags args)); simpl;
      destruct (fs_rm env (n_rm c) (tempPath env)); simpl;
      eexists _, _; split; reflexivity.
Qed.

Lemma removals_teardown (out : list Event) :
  removals out = removals (teardown out).
Proof.
  unfold removals, teardown.
  induction out as [|e out IH]; [reflexivity|].
  destruct e; simpl; now rewrite ?IH.
Qed.

Lemma removals_expected (env : Env) (args : Args) :
  removals (expected_teardown env args)
  = if given (storage (flags args)) then [] else [Rm (tempPath env)].
Proof. unfold expected_teardown; destruct (given _); reflexivity. Qed.

(* ===================================================================== *)
(** * Teardown, storage and the second attempt                            *)
(* ===================================================================== *)

(** C1, at an input where the immediate attempt fails.  The store has a
    schema and its query facility rejects the query.  The handler inside
    [executeQuery] reports the error, tears down and calls
    [process.exit(1)]: the run makes one call of [list], waits for no
    200 ms and makes no second attempt.  In general the last statement of
    the script amounts to one call of [executeQuery], whose promise is
    never rejected. *)
Theorem immediate_failure_is_terminal :
  run Sample.failing_env SampleRuns.failing_args
  = (Exited 1,
     [NewCorestore "/tmp/sheets";
      NewSchemaSheets (repeat Byte.x00 32) (repeat Byte.x00 3);
      Ready; Join; AddAutobaseBackground;
      CallListSchemas;
      CallList "schema-1" "[0].key";
      Stderr ["Error:"; "not yet synced"];
      BlindClose; SwarmDestroy; StoreClose; Rm "/tmp/sheets"])
  /\ forall env args c,
       race env args c
       = (debug args "Attempting immediate query execution..." ;;
          executeQuery env args) c.
Proof. split; [reflexivity | apply race_single_attempt]. Qed.

(** C4, amended.  A run that gets past its startup (the room link decodes,
    the session becomes ready, the swarm is joined) ends by [process.exit]
    after exactly one teardown: the mirroring helper closed, the swarm
    destroyed, the store closed and, when no storage path was given, the
    generated one removed.  A run that does not get past its startup ends
    with an uncaught exception and without any teardown.  [cleanup] has no
    guard of its own: called twice in a row it returns and makes the same
    calls twice. *)
Theorem teardown_once_when_started (env : Env) (args : Args) :
  (if started env args
   then exists code out,
          run env args = (Exited code, out)
          /\ teardown out = expected_teardown env args
   else exists error out,
          run env args = (Thrown error, out) /\ teardown out = [])
  /\ (forall c, exists c' out,
        (cleanup env args ;; cleanup env args) c = (Val tt, c', out)
        /\ teardown out
           = (expected_teardown env args ++ expected_teardown env args)%list).
Proof.
  split; [| intros c; apply cleanup_twice].
  destruct (started env args) eqn:S;
    [now apply run_started | now apply run_not_started].
Qed.

(** C4 fails when the room link does not decode: the process ends with
    code 1 and nothing has been torn down. *)
Lemma teardown_skipped_on_invalid_link :
  run (Sample.env []) SampleRuns.bad_link_args
  = (Thrown "z32.decode: invalid input", [NewCorestore "/tmp/sheets"])
  /\ exit_code (fst (run (Sample.env []) SampleRuns.bad_link_args)) = Some 1
  /\ teardown (snd (run (Sample.env []) SampleRuns.bad_link_args)) = []
  /\ expected_teardown (Sample.env []) SampleRuns.bad_link_args
     = [BlindClose; SwarmDestroy; StoreClose; Rm "/tmp/sheets"].
Proof. repeat split. Qed.

(** C9, amended.  In a run that gets past its startup the storage
    directory is removed, once, exactly when no storage path was given; in
    a run that does not, and in every run with a storage path given,
    nothing is removed.  The answer of [rm] does not change how the run
    ends, and [cleanup] returns whatever [rm] answers, a failure of the
    removal being written to the error stream. *)
Theorem storage_removal_policy (env : Env) (args : Args) :
  removals (snd (run env args))
  = (if started env args && negb (given (storage (flags args)))
     then [Rm (tempPath env)] else [])
  /\ (forall answer,
        fst (run (with_rm env answer) args) = fst (run env args))
  /\ (forall c, exists c' out,
        cleanup env args c = (Val tt, c', out)
        /\ undebug out = cleanup_trace env args (n_rm c)).
Proof.
  split; [| split; [intros answer; apply run_with_rm | apply cleanup_undebug]].
  rewrite removals_teardown.
  destruct (started env args) eqn:S; simpl.
  - destruct (run_started env args S) as (code & out & E & Ht).
    rewrite E; simpl. rewrite Ht, removals_expected. now destruct (given _).
  - destruct (run_not_started env args S) as (e & out & E & Ht).
    rewrite E; simpl. now rewrite Ht.
Qed.

(** With [-s ./storage] the directory is kept. *)
Example given_storage_kept :
  run (Sample.env [Js.Str "v"]) SampleRuns.kept_args
  = (Exited 0,
     [NewCorestore "./storage";
      NewSchemaSheets (repeat Byte.x00 32) (repeat Byte.x00 3);
      Ready; Join; AddAutobaseBackground;
      CallListSchemas; CallList "schema-1" "[0].key";
      Stdout (Js.Str "v");
      BlindClose; SwarmDestroy; StoreClose]).
Proof. reflexivity. Qed.

(** C9 fails when the session does not become ready: the storage path was
    generated, the store has been opened on it, and the process ends
    without removing it. *)
Lemma generated_storage_left_behind :
  given (storage (flags SampleRuns.plain_args)) = false
  /\ run Sample.unready_env SampleRuns.plain_args
     = (Thrown "session failure",
        [NewCorestore "/tmp/sheets";
         NewSchemaSheets (repeat Byte.x00 32) (repeat Byte.x00 3); Ready])
  /\ removals (snd (run Sample.unready_env SampleRuns.plain_args)) = [].
Proof. repeat split. Qed.

(* ===================================================================== *)
(** * The schema listing                                                  *)
(* ===================================================================== *)

Section GetSchemas.

Variable env : Env.
Variable args : Args.

(** A turn of the loop returns; it leaves [retries] alone when it has
    obtained schemas, and takes one off otherwise. *)
Lemma getSchemas_turn_cases (retries : nat) (schemas : list Schema) (c : calls) :
  exists r' s' c' out,
    getSchemas_turn env args retries schemas c = (Val (r', s'), c', out)
    /\ ((r' = retries /\ nonempty s' = true) \/ r' = retries - 1).
Proof.
  unfold getSchemas_turn, try_catch, bind, await_listSchemas, debug, emit,
    ret, sleep, await, throw.
  destruct (debugFlag (flags args)); simpl;
    destruct (sheets_listSchemas env (n_listSchemas c)) as [[|s l]|e]; simpl;
    destruct (Nat.ltb 0 (retries - 1)); simpl;
    eexists _, _, _, _; (split; [reflexivity|]); auto.
Qed.

Lemma getSchemas_while_nonempty (turns retries : nat) (schemas : list Schema) :
  nonempty schemas = true ->
  getSchemas_while env args turns retries schemas = ret schemas.
Proof.
  unfold nonempty. intros H.
  destruct turns; simpl; destruct (Nat.eqb (List.length schemas) 0);
    try discriminate; now rewrite andb_false_r.
Qed.

(** The loop leaves by its test: a turn more than [retries] of them
    changes nothing. *)
Lemma getSchemas_while_turns (turns retries : nat) (schemas : list Schema)
  (c : calls) :
  retries <= turns ->
  getSchemas_while env args (S turns) retries schemas c
  = getSchemas_while env args turns retries schemas c.
Proof.
  revert retries schemas c.
  induction turns as [|turns IH]; intros retries schemas c Hle.
  - assert (retries = 0) as -> by lia. reflexivity.
  - change (getSchemas_while env args (S (S turns)) retries schemas c)
      with ((if Nat.ltb 0 retries && Nat.eqb (List.length schemas) 0
             then state <- getSchemas_turn env args retries schemas ;;
                  getSchemas_while env args (S turns) (fst state) (snd state)
             else ret schemas) c).
    change (getSchemas_while env args (S turns) retries schemas c)
      with ((if Nat.ltb 0 retries && Nat.eqb (List.length schemas) 0
             then state <- getSchemas_turn env args retries schemas ;;
                  getSchemas_while env args turns (fst state) (snd state)
             else ret schemas) c).
    destruct (Nat.ltb 0 retries && Nat.eqb (List.length schemas) 0) eqn:Cond;
      [|reflexivity].
    apply andb_prop in Cond as [Hr _]. apply Nat.ltb_lt in Hr.
    unfold bind.
    destruct (getSchemas_turn_cases retries schemas c)
      as (r' & s' & c' & out & E & [[-> Hs] | ->]); rewrite E; simpl fst; simpl snd.
    + now rewrite !getSchemas_while_nonempty.
    + rewrite IH by lia. reflexivity.
Qed.

(** The three attempts of [getSchemas], seen from the answers of the
    store. *)
Lemma getSchemas_attempts (c : calls) :
  let a i := yield (sheets_listSchemas env (n_listSchemas c + i)) in
  exists c' out,
    getSchemas env args c
    = (Val (if nonempty (a 0) then a 0
            else if nonempty (a 1) then a 1 else a 2), c', out)
    /\ undebug out
       = (if nonempty (a 0) then [CallListSchemas]
          else if nonempty (a 1)
               then [CallListSchemas; Sleep 2000; CallListSchemas]
               else [CallListSchemas; Sleep 2000; CallListSchemas;
                     Sleep 2000; CallListSchemas])
    /\ n_rm c' = n_rm c.
Proof.
  destruct c as [n q l r]. cbv zeta. cbn [n_listSchemas n_rm].
  rewrite Nat.add_0_r, Nat.add_1_r.
  replace (n + 2) with (S (S n)) by lia.
  unfold getSchemas, getSchemas_while, getSchemas_turn, try_catch, bind,
    await_listSchemas, debug, emit, ret, sleep, await, throw.
  destruct (debugFlag (flags args)); simpl;
    destruct (sheets_listSchemas env n) as [[|s0 l0]|e0]; simpl;
    try (eexists _, _; repeat split; reflexivity);
    destruct (sheets_listSchemas env (S n)) as [[|s1 l1]|e1]; simpl;
    try (eexists _, _; repeat split; reflexivity);
    destruct (sheets_listSchemas env (S (S n))) as [[|s2 l2]|e2]; simpl;
    eexists _, _; repeat split; reflexivity.
Qed.

End GetSchemas.

(** Without a schema after the three attempts, [executeQuery] reports it,
    tears down and exits with code 1. *)
Lemma executeQuery_no_schema (env : Env) (args : Args) (c : calls) :
  yield (sheets_listSchemas env (n_listSchemas c + 0)) = [] ->
  yield (sheets_listSchemas env (n_listSchemas c + 1)) = [] ->
  yield (sheets_listSchemas env (n_listSchemas c + 2)) = [] ->
  exists c' out,
    executeQuery env args c = (Exited 1, c', out)
    /\ undebug out
       = ([CallListSchemas; Sleep 2000; CallListSchemas; Sleep 2000;
           CallListSchemas; Stderr ["No schemas found"]]
          ++ cleanup_trace env args (n_rm c))%list.
Proof.
  intros H0 H1 H2.
  destruct (getSchemas_attempts env args c) as (c1 & out1 & E & U & R).
  cbv zeta in E, U. rewrite H0, H1 in E, U. rewrite H2 in E. simpl in E, U.
  destruct (cleanup_undebug env args c1) as (c2 & outc & Ec & Uc).
  rewrite R in Uc.
  unfold executeQuery, try_catch, bind, debug, console_error, emit, ret.
  destruct (debugFlag (flags args)); simpl; rewrite E; simpl; rewrite Ec; simpl;
    eexists _, _; (split; [reflexivity|]);
    repeat (rewrite undebug_app || rewrite U || rewrite Uc || simpl);
    unfold cleanup_trace; simpl; rewrite ?app_nil_r; reflexivity.
Qed.

(** C5.  [getSchemas] makes one, two or three calls of [listSchemas], with
    a pause of 2000 ms between two calls and none after the last; it goes
    on exactly while the call fails or answers no schema, and returns the
    first list that is not empty; after three attempts without a schema it
    returns the empty list.  A run that gets past its startup and whose
    three attempts yield no schema makes no fourth call: it reports the
    absence of schemas, tears down and exits with code 1. *)
Theorem getSchemas_retry_policy (env : Env) (args : Args) :
  (forall c,
     let a i := yield (sheets_listSchemas env (n_listSchemas c + i)) in
     exists c' out,
       getSchemas env args c
       = (Val (if nonempty (a 0) then a 0
               else if nonempty (a 1) then a 1 else a 2), c', out)
       /\ undebug out
          = (if nonempty (a 0) then [CallListSchemas]
             else if nonempty (a 1)
                  then [CallListSchemas; Sleep 2000; CallListSchemas]
                  else [CallListSchemas; Sleep 2000; CallListSchemas;
                        Sleep 2000; CallListSchemas]))
  /\ (forall key secret,
        decodeRoomLink (z32_decode env) (roomLink args) = Some (key, secret) ->
        sheets_ready env = Resolved tt ->
        swarm_join env = Resolved tt ->
        yield (sheets_listSchemas env 0) = [] ->
        yield (sheets_listSchemas env 1) = [] ->
        yield (sheets_listSchemas env 2) = [] ->
        exists out,
          run env args = (Exited 1, out)
          /\ undebug out
             = (startup_trace env args key secret
                ++ [CallListSchemas; Sleep 2000; CallListSchemas; Sleep 2000;
                    CallListSchemas; Stderr ["No schemas found"]]
                ++ cleanup_trace env args 0)%list).
Proof.
  split.
  - intros c. destruct (getSchemas_attempts env args c) as (c' & out & E & U & _).
    now exists c', out.
  - intros key secret Hd Hr Hj H0 H1 H2.
    destruct (main_reaches_race env args _ _ no_calls Hd Hr Hj)
      as (pre & Up & _ & E).
    rewrite race_single_attempt in E.
    destruct (executeQuery_no_schema env args no_calls H0 H1 H2)
      as (c' & out & Ee & Ue).
    unfold run. rewrite E. clear E.
    unfold bind, debug, emit, ret.
    destruct (debugFlag (flags args)); simpl; rewrite Ee; simpl;
      eexists; (split; [reflexivity|]);
      rewrite undebug_app, Up; simpl; rewrite ?Ue; reflexivity.
Qed.

(** The store of [Sample.empty_env] never has a schema. *)
Lemma getSchemas_retry_policy_witness :
  exists out,
    run Sample.empty_env SampleRuns.plain_args = (Exited 1, out)
    /\ undebug out
       = [NewCorestore "/tmp/sheets";
          NewSchemaSheets (repeat Byte.x00 32) (repeat Byte.x00 3);
          Ready; Join; AddAutobaseBackground;
          CallListSchemas; Sleep 2000; CallListSchemas; Sleep 2000;
          CallListSchemas; Stderr ["No schemas found"];
          BlindClose; SwarmDestroy; StoreClose; Rm "/tmp/sheets"].
Proof.
  exact (proj2 (getSchemas_retry_policy Sample.empty_env SampleRuns.plain_args)
           (repeat Byte.x00 32) (repeat Byte.x00 3)
           eq_refl eq_refl eq_refl eq_refl eq_refl eq_refl).
Defined.

(* ===================================================================== *)
(** * The output                                                          *)
(* ===================================================================== *)

(** A loop whose body only writes. *)
Lemma forEach_writes {A} (f : A -> M unit) (g : A -> list Event) (l : list A)
  (c : calls) :
  (forall x c, f x c = (Val tt, c, g x)) ->
  forEach l f c = (Val tt, c, flat_map g l).
Proof.
  intros Hf. induction l as [|x l IH]; [reflexivity|].
  simpl. unfold bind. now rewrite Hf, IH.
Qed.

Lemma flat_map_filter {A B} (p : A -> bool) (h : A -> B) (l : list A) :
  flat_map (fun x => if p x then [h x] else []) l = map h (filter p l).
Proof.
  induction l as [|x l IH]; [reflexivity|].
  simpl. destruct (p x); simpl; now rewrite IH.
Qed.

Section Output.

Variable env : Env.
Variable args : Args.

Lemma get_property_object (fields : list (string * Js.value)) (k : string)
  (c : calls) :
  get_property env (Js.Obj fields) k c = (Val (lookup fields k), c, []).
Proof.
  unfold get_property, lookup; simpl. now destruct (Js.own k fields).
Qed.

(** The shell output of the multiple properties mode on an object: one
    assignment for every requested property whose lookup is defined, in
    the order of the request. *)
Lemma outputProperties_shell (properties : list string)
  (fields : list (string * Js.value)) (c : calls) :
  json (flags args) = false ->
  outputProperties env args properties (Js.Obj fields) c
  = (Val tt, c,
     map (fun prop => Stdout (Js.Str (assignment args prop (lookup fields prop))))
       (filter (fun prop => defined (lookup fields prop)) properties)).
Proof.
  intros J. unfold outputProperties. rewrite J.
  rewrite <- flat_map_filter.
  apply forEach_writes. intros prop c0.
  unfold bind. rewrite get_property_object. unfold defined.
  now destruct (negb _).
Qed.

(** Where no requested property is the name of a member of
    [Object.prototype], and the record holds no [undefined], the
    assignments are those of the requested properties that the record
    holds. *)
Lemma outputProperties_shell_own (properties : list string)
  (fields : list (string * Js.value)) (c : calls) :
  json (flags args) = false ->
  (forall prop, In prop properties -> Js.object_prototype prop = Js.Undefined) ->
  (forall k v, In (k, v) fields -> v <> Js.Undefined) ->
  outputProperties env args properties (Js.Obj fields) c
  = (Val tt, c,
     map (fun prop => Stdout (Js.Str (assignment args prop (lookup fields prop))))
       (filter (present fields) properties)).
Proof.
  intros J Hp Hf. rewrite outputProperties_shell by assumption.
  do 2 f_equal. apply filter_ext_in. intros prop Hin.
  unfold defined, present, lookup.
  destruct (Js.own prop fields) as [v|] eqn:O.
  - assert (In (prop, v) fields) as Hv.
    { clear - O. induction fields as [|[k' v'] l IH]; [discriminate|].
      simpl in O. destruct (String.eqb k' prop) eqn:K.
      - apply String.eqb_eq in K. inversion O; subst. now left.
      - right; auto. }
    specialize (Hf _ _ Hv). now destruct v.
  - now rewrite (Hp _ Hin).
Qed.

(** The output of a JMESPath query whose first result is a scalar. *)
Lemma outputExpression_scalar (firstResult : Js.value) (rest : list Js.value)
  (c : calls) :
  is_scalar firstResult = true ->
  outputExpression env args (firstResult :: rest) c
  = (Val tt, c,
     [Stdout (if json (flags args)
              then match rest with
                   | [] => Js.stringify_value firstResult
                   | _ => Js.stringify_value (Js.Arr (firstResult :: rest))
                   end
              else firstResult)]).
Proof.
  intros S. unfold outputExpression.
  destruct (json (flags args)).
  - destruct rest; reflexivity.
  - destruct firstResult; try reflexivity. discriminate.
Qed.

End Output.

(** The properties of a query argument with a colon. *)
Lemma parseNamedQuery_properties (queryName suffix : string) :
  JsString.indexOf colon queryName = None ->
  parseNamedQuery (queryName ++ String colon suffix)
  = (queryName,
     Some (filter (fun p => Nat.ltb 0 (String.length p))
             (map JsString.trim (JsString.split comma suffix)))).
Proof.
  intros H. unfold parseNamedQuery.
  assert (JsString.indexOf colon (queryName ++ String colon suffix)
          = Some (String.length queryName)) as ->.
  { induction queryName as [|a s IH]; simpl in *.
    - reflexivity.
    - destruct (Ascii.eqb a colon); [discriminate|].
      destruct (JsString.indexOf colon s); [discriminate|].
      now rewrite IH. }
  assert (JsString.take (String.length queryName) (queryName ++ String colon suffix)
          = queryName) as ->.
  { clear H. induction queryName as [|a s IH]; simpl; [reflexivity | now rewrite IH]. }
  assert (JsString.drop (String.length queryName + 1) (queryName ++ String colon suffix)
          = suffix) as ->.
  { clear H. induction queryName as [|a s IH]; simpl; [reflexivity | exact IH]. }
  reflexivity.
Qed.

(* ===================================================================== *)
(** * The access descriptor                                               *)
(* ===================================================================== *)

(** C2, amended.  The decode fails exactly when [z32.decode] throws.
    Otherwise the key is made of the first bytes of the decoded sequence,
    32 of them or all of them when there are fewer, and the secret of the
    bytes that remain: the lengths are min(32, n) and n - 32 for n decoded
    bytes. *)
Theorem decodeRoomLink_split (decode : string -> option (list Byte.byte))
  (link : string) :
  match decodeRoomLink decode link with
  | None => decode link = None
  | Some (key, secret) =>
      exists decoded,
        decode link = Some decoded
        /\ (key ++ secret)%list = decoded
        /\ List.length key = Nat.min 32 (List.length decoded)
        /\ List.length secret = List.length decoded - 32
  end.
Proof.
  unfold decodeRoomLink, subarray_to, subarray_from.
  destruct (decode link) as [decoded|]; [|reflexivity].
  exists decoded. split; [reflexivity|]. split; [apply firstn_skipn|].
  split; [apply length_firstn | apply length_skipn].
Qed.

(** C2 fails on a room link that decodes to five bytes: the decode
    succeeds, with a key of five bytes and an empty secret. *)
Lemma decodeRoomLink_short_key :
  Sample.decode Sample.short_link = Some (repeat Byte.x00 5)
  /\ decodeRoomLink Sample.decode Sample.short_link
     = Some (repeat Byte.x00 5, [])
  /\ List.length (repeat Byte.x00 5) < 32.
Proof. repeat split. simpl; lia. Qed.

(* ===================================================================== *)
(** * The output of a JMESPath query                                      *)
(* ===================================================================== *)

(** C3, amended.  When the first result of a JMESPath query is a scalar,
    the script writes one value.  Without [--json] it is the scalar
    itself, with or without [--export].  With [--json] it is the JSON text
    of the scalar when there is one result, and the JSON text of the array
    of all results when there are several. *)
Theorem expression_scalar_output (env : Env) (args : Args)
  (firstResult : Js.value) (rest : list Js.value) (c : calls) :
  is_scalar firstResult = true ->
  outputExpression env args (firstResult :: rest) c
  = (Val tt, c,
     [Stdout (if json (flags args)
              then match rest with
                   | [] => Js.stringify_value firstResult
                   | _ => Js.stringify_value (Js.Arr (firstResult :: rest))
                   end
              else firstResult)]).
Proof. apply outputExpression_scalar. Qed.

(** The string abc, alone in the results, without [--json]. *)
Lemma expression_scalar_output_witness :
  outputExpression (Sample.env [Js.Str "abc"]) SampleRuns.plain_args
    [Js.Str "abc"] no_calls
  = (Val tt, no_calls, [Stdout (Js.Str "abc")]).
Proof.
  exact (expression_scalar_output (Sample.env [Js.Str "abc"])
           SampleRuns.plain_args (Js.Str "abc") [] no_calls eq_refl).
Defined.

(** C3 fails under [--json]: the string abc is written between double
    quotes. *)
Lemma scalar_quoted_under_json :
  is_scalar (Js.Str "abc") = true
  /\ payload (snd (run (Sample.env [Js.Str "abc"])
                     SampleRecords.expression_json_args))
     = [Js.Str (SampleRecords.quote ++ "abc" ++ SampleRecords.quote)]
  /\ Js.Str (SampleRecords.quote ++ "abc" ++ SampleRecords.quote)
     <> Js.Str "abc".
Proof. repeat split. discriminate. Qed.

(* ===================================================================== *)
(** * The output of a named query                                         *)
(* ===================================================================== *)

(** The projection example of the specification: the properties a and c
    requested from a record with a and b. *)
Example projection_omission :
  payload (snd (run (Sample.env [SampleRecords.ab])
                  (SampleRecords.shell_args "staging/app1:a,c" false)))
  = [Js.Str ("A=" ++ SampleRecords.quote ++ "1" ++ SampleRecords.quote)]
  /\ payload (snd (run (Sample.env [SampleRecords.ab])
                     (SampleRecords.json_args "staging/app1:a,c")))
     = [Js.Str ("{" ++ SampleRecords.quote ++ "a" ++ SampleRecords.quote ++ ":"
                ++ SampleRecords.quote ++ "1" ++ SampleRecords.quote ++ "}")].
Proof. split; reflexivity. Qed.

(** C6, at an input where it fails.  The record holds a and b; the request
    names a and toString.  The record has no property toString, and the
    shell output has a line for it: the lookup finds the function that
    every object inherits.  The JSON output has no key for it. *)
Theorem inherited_property_not_skipped :
  present [("a", Js.Str "1"); ("b", Js.Str "2")] "toString" = false
  /\ payload (snd (run (Sample.env [SampleRecords.ab])
                     (SampleRecords.shell_args "staging/app1:a,toString" false)))
     = [Js.Str ("A=" ++ SampleRecords.quote ++ "1" ++ SampleRecords.quote);
        Js.Str ("TOSTRING=" ++ SampleRecords.quote
                ++ "function toString() { [native code] }"
                ++ SampleRecords.quote)]
  /\ payload (snd (run (Sample.env [SampleRecords.ab])
                     (SampleRecords.json_args "staging/app1:a,toString")))
     = [Js.Str ("{" ++ SampleRecords.quote ++ "a" ++ SampleRecords.quote ++ ":"
                ++ SampleRecords.quote ++ "1" ++ SampleRecords.quote ++ "}")].
Proof. repeat split. Qed.

(** The mode selection example of the specification: two properties, both
    in the record, with [--export]. *)
Example export_two_properties :
  payload (snd (run (Sample.env [SampleRecords.keys])
                  (SampleRecords.shell_args "staging/app1:api-key,database-url" true)))
  = [Js.Str ("export API_KEY=" ++ SampleRecords.quote ++ "k1" ++ SampleRecords.quote);
     Js.Str ("export DATABASE_URL=" ++ SampleRecords.quote ++ "d1"
             ++ SampleRecords.quote)].
Proof. reflexivity. Qed.

(** C7, at an input where it fails.  The suffix is split on the commas,
    the pieces are trimmed, the empty one is dropped and the order is
    kept; the record holds api-key and database-url.  The output has
    three lines for the two requested properties that the record holds:
    the line in the middle is for toString, which the record does not
    hold. *)
Theorem export_line_for_inherited_property :
  snd (parseNamedQuery "staging/app1: api-key ,,toString,database-url")
  = Some ["api-key"; "toString"; "database-url"]
  /\ filter (present [("api-key", Js.Str "k1"); ("database-url", Js.Str "d1")])
       ["api-key"; "toString"; "database-url"]
     = ["api-key"; "database-url"]
  /\ payload (snd (run (Sample.env [SampleRecords.keys])
                     (SampleRecords.shell_args
                        "staging/app1: api-key ,,toString,database-url" true)))
     = [Js.Str ("export API_KEY=" ++ SampleRecords.quote ++ "k1"
                ++ SampleRecords.quote);
        Js.Str ("export TOSTRING=" ++ SampleRecords.quote
                ++ "function toString() { [native code] }"
                ++ SampleRecords.quote);
        Js.Str ("export DATABASE_URL=" ++ SampleRecords.quote ++ "d1"
                ++ SampleRecords.quote)].
Proof. repeat split. Qed.

(** C10.  The names api-key, api.key and api key are distinct and have the
    same variable name API_KEY.  A request for two of them, both in the
    record, writes two assignments to that one variable, in the order of
    the request, whatever the values and with or without [--export]. *)
Theorem propertyToVarName_not_injective :
  "api-key" <> "api.key" /\ "api.key" <> "api key" /\ "api-key" <> "api key"
  /\ propertyToVarName "api-key" = "API_KEY"
  /\ propertyToVarName "api.key" = "API_KEY"
  /\ propertyToVarName "api key" = "API_KEY"
  /\ forall env q with_export v1 v2 c,
       outputProperties env (SampleRecords.shell_args q with_export)
         ["api-key"; "api.key"]
         (Js.Obj [("api-key", Js.Str v1); ("api.key", Js.Str v2)]) c
       = (Val tt, c,
          [Stdout (Js.Str ((if with_export then "export " else "")
                           ++ "API_KEY=" ++ str1 dquote
                           ++ escapeShellValue (Js.Str v1) ++ str1 dquote));
           Stdout (Js.Str ((if with_export then "export " else "")
                           ++ "API_KEY=" ++ str1 dquote
                           ++ escapeShellValue (Js.Str v2) ++ str1 dquote))]).
Proof.
  do 6 (split; [first [discriminate | reflexivity]|]).
  intros env q with_export v1 v2 c.
  rewrite outputProperties_shell by reflexivity.
  destruct with_export; reflexivity.
Qed.

(* ===================================================================== *)
(** * The JSON output of a named query                                    *)
(* ===================================================================== *)

Lemma own_update_same (k : string) (v : Js.value) (fields : list (string * Js.value)) :
  Js.own k fields <> None -> Js.own k (Js.update k v fields) = Some v.
Proof.
  induction fields as [|[k' v'] l IH]; simpl; [easy|].
  destruct (String.eqb k' k) eqn:K; simpl; rewrite K; [reflexivity | exact IH].
Qed.

Lemma own_update_other (k k0 : string) (v : Js.value)
  (fields : list (string * Js.value)) :
  k0 <> k -> Js.own k0 (Js.update k v fields) = Js.own k0 fields.
Proof.
  intros N. induction fields as [|[k' v'] l IH]; simpl; [reflexivity|].
  destruct (String.eqb k' k) eqn:K; simpl.
  - apply String.eqb_eq in K; subst k'.
    destruct (String.eqb k k0) eqn:E; [|reflexivity].
    apply String.eqb_eq in E. congruence.
  - now rewrite IH.
Qed.

Lemma own_insert_index (i : N) (k k0 : string) (v : Js.value)
  (fields : list (string * Js.value)) :
  Js.own k fields = None ->
  Js.own k0 (Js.insert_index i k v fields)
  = if String.eqb k k0 then Some v else Js.own k0 fields.
Proof.
  induction fields as [|[k' v'] l IH]; simpl; intros O.
  - reflexivity.
  - destruct (String.eqb k' k) eqn:K; [discriminate|].
    destruct (Js.array_index k') as [j|]; [destruct (N.ltb j i)|]; simpl;
      try reflexivity.
    rewrite (IH O).
    destruct (String.eqb k' k0) eqn:K0; [|reflexivity].
    apply String.eqb_eq in K0; subst k0. now rewrite String.eqb_sym, K.
Qed.

Lemma own_app_new (k k0 : string) (v : Js.value) (fields : list (string * Js.value)) :
  Js.own k fields = None ->
  Js.own k0 (fields ++ [(k, v)])%list
  = if String.eqb k k0 then Some v else Js.own k0 fields.
Proof.
  induction fields as [|[k' v'] l IH]; simpl; intros O.
  - reflexivity.
  - destruct (String.eqb k' k) eqn:K; [discriminate|].
    rewrite (IH O).
    destruct (String.eqb k' k0) eqn:K0; [|reflexivity].
    apply String.eqb_eq in K0; subst k0. now rewrite String.eqb_sym, K.
Qed.

(** The own properties of an object after an assignment. *)
Lemma own_set (k k0 : string) (v : Js.value) (fields : list (string * Js.value)) :
  Js.own k0 (Js.set k v fields)
  = if String.eqb k k0 && negb (String.eqb k "__proto__") then Some v
    else Js.own k0 fields.
Proof.
  unfold Js.set.
  destruct (String.eqb k "__proto__"); [now rewrite andb_false_r|].
  rewrite andb_true_r.
  destruct (Js.own k fields) as [w|] eqn:O.
  - destruct (String.eqb k k0) eqn:K.
    + apply String.eqb_eq in K; subst k0.
      apply own_update_same. now rewrite O.
    + apply own_update_other. intros ->. now rewrite String.eqb_refl in K.
  - destruct (Js.array_index k);
      [now apply own_insert_index | now apply own_app_new].
Qed.

Lemma selectProperties_object (env : Env) (properties : list string)
  (fields output : list (string * Js.value)) (c : calls) :
  selectProperties env properties (Js.Obj fields) output c
  = (Val (selected fields properties output), c, []).
Proof.
  revert output. induction properties as [|p l IH]; intros output; simpl.
  - reflexivity.
  - unfold bind. rewrite get_property_object. fold (defined (lookup fields p)).
    destruct (defined (lookup fields p)); now rewrite IH.
Qed.

(** An own property of the object built for the JSON output is a requested
    property, other than [__proto__], with the value the record answers
    for it. *)
Lemma selected_own (fields : list (string * Js.value)) (properties : list string)
  (output : list (string * Js.value)) (k : string) (v : Js.value) :
  Js.own k (selected fields properties output) = Some v ->
  Js.own k output = Some v
  \/ (In k properties /\ v = lookup fields k /\ String.eqb k "__proto__" = false).
Proof.
  revert output. induction properties as [|p l IH]; intros output; simpl.
  - now left.
  - intros H. apply IH in H as [H | (Hin & Hv & Hp)]; [| right; auto].
    destruct (defined (lookup fields p)); [| now left].
    rewrite own_set in H.
    destruct (String.eqb p k) eqn:K; simpl in H; [| now left].
    apply String.eqb_eq in K; subst p.
    destruct (String.eqb k "__proto__") eqn:P; simpl in H; [now left|].
    right. inversion H. auto.
Qed.

(** A property that the record does not hold has no part in the JSON
    output: the object built has no such key, or it has it with a value,
    inherited, that [JSON.stringify] leaves out. *)
Lemma json_output_omits_absent (env : Env) (args : Args) (properties : list string)
  (fields : list (string * Js.value)) (c : calls) (k : string) :
  json (flags args) = true ->
  present fields k = false ->
  outputProperties env args properties (Js.Obj fields) c
  = (Val tt, c,
     [Stdout (Js.stringify_value (Js.Obj (selected fields properties [])))])
  /\ match Js.own k (selected fields properties []) with
     | Some v => left_out v = true
     | None => True
     end.
Proof.
  intros J A. split.
  - unfold outputProperties. rewrite J. unfold bind.
    now rewrite selectProperties_object.
  - destruct (Js.own k (selected fields properties [])) as [v|] eqn:O; [|exact I].
    apply selected_own in O as [O | (_ & -> & P)]; [discriminate|].
    unfold present in A. unfold lookup.
    destruct (Js.own k fields); [discriminate|].
    unfold Js.object_prototype. rewrite P.
    destruct (String.eqb k "constructor"); [reflexivity|].
    destruct (existsb _ _); reflexivity.
Qed.

(* ===================================================================== *)
(** * More on the two formatting helpers                                  *)
(* ===================================================================== *)

Lemma read_back_escape_char (c : ascii) (s : string) :
  read_back (escape_char c ++ s) = String c (read_back s).
Proof. each_char c; reflexivity. Qed.

Lemma read_back_escapeShellValue (s : string) :
  read_back (escapeShellValue (Js.Str s)) = s.
Proof.
  induction s as [|c s IH]; [reflexivity|].
  now rewrite escapeShellValue_cons, read_back_escape_char, IH.
Qed.

(** X1. Escaping loses nothing: two strings with the same escaped text are
    the same string. *)
Theorem escapeShellValue_injective (s1 s2 : string) :
  escapeShellValue (Js.Str s1) = escapeShellValue (Js.Str s2) -> s1 = s2.
Proof.
  intros H. rewrite <- (read_back_escapeShellValue s1), H.
  apply read_back_escapeShellValue.
Qed.

(** Two equal strings with special characters. *)
Lemma escapeShellValue_injective_witness :
  String dollar "HOME" = String dollar "HOME".
Proof.
  exact (escapeShellValue_injective (String dollar "HOME") (String dollar "HOME")
           eq_refl).
Defined.

Lemma escape_char_plain (c : ascii) :
  is_special c = false -> escape_char c = str1 c.
Proof. each_char c; (reflexivity || discriminate). Qed.

Lemma escape_char_length (c : ascii) :
  1 <= String.length (escape_char c) <= 2.
Proof. each_char c; simpl; lia. Qed.

Lemma string_length_app (a b : string) :
  String.length (a ++ b) = String.length a + String.length b.
Proof. induction a as [|x a IH]; simpl; [reflexivity | now rewrite IH]. Qed.

(** X2. A string without backslash, double quote, backtick, dollar or
    newline is its own escaped text. *)
Theorem escapeShellValue_plain (s : string) :
  JsString.all (fun c => negb (is_special c)) s = true ->
  escapeShellValue (Js.Str s) = s.
Proof.
  induction s as [|c s IH]; [reflexivity|].
  simpl. intros H. apply andb_prop in H as [Hc Hs].
  rewrite escapeShellValue_cons, (IH Hs), escape_char_plain; [reflexivity|].
  now destruct (is_special c).
Qed.

(** A URL has none of the five characters. *)
Lemma escapeShellValue_plain_witness :
  escapeShellValue (Js.Str "postgres://db:5432/app") = "postgres://db:5432/app".
Proof. exact (escapeShellValue_plain "postgres://db:5432/app" eq_refl). Defined.

(** X3. Escaping never shortens a string and at most doubles it. *)
Theorem escapeShellValue_length (s : string) :
  String.length s <= String.length (escapeShellValue (Js.Str s))
  <= 2 * String.length s.
Proof.
  induction s as [|c s IH]; [simpl; lia|].
  rewrite escapeShellValue_cons, string_length_app.
  pose proof (escape_char_length c). simpl String.length. lia.
Qed.

(** X4. A variable name is made of capital letters, digits and
    underscores only, and has the length of the property name. *)
Theorem varName_charset_length (property : string) :
  JsString.all JsString.is_var_char (propertyToVarName property) = true
  /\ String.length (propertyToVarName property) = String.length property.
Proof.
  split; [apply propertyToVarName_charset|].
  unfold propertyToVarName.
  induction property as [|c s IH]; [reflexivity | simpl; now rewrite IH].
Qed.

(** X5. The transform is idempotent: a variable name is its own variable
    name. *)
Theorem varName_idempotent (property : string) :
  propertyToVarName (propertyToVarName property) = propertyToVarName property.
Proof. apply propertyToVarName_idempotent. Qed.

(* ===================================================================== *)
(** * The query argument of the named mode                                *)
(* ===================================================================== *)

Lemma indexOf_none (c : ascii) (s : string) :
  JsString.indexOf c s = None -> occurs c s = false.
Proof.
  induction s as [|a s IH]; simpl; [reflexivity|].
  destruct (Ascii.eqb a c); [discriminate|].
  destruct (JsString.indexOf c s); [discriminate | auto].
Qed.

Lemma indexOf_some (c : ascii) (s : string) (i : nat) :
  JsString.indexOf c s = Some i ->
  s = JsString.take i s ++ String c (JsString.drop (i + 1) s)
  /\ occurs c (JsString.take i s) = false.
Proof.
  revert i. induction s as [|a s IH]; simpl; intros i H; [discriminate|].
  destruct (Ascii.eqb a c) eqn:E.
  - inversion H; subst. apply Ascii.eqb_eq in E; subst. now split.
  - destruct (JsString.indexOf c s) as [j|]; [|discriminate].
    inversion H; subst. destruct (IH j eq_refl) as [H1 H2].
    simpl. rewrite E, H2. split; [now rewrite <- H1 | reflexivity].
Qed.

(** X6. The query argument is cut at its first colon.  Without a colon it
    is the query name and there is no property list; with one, the name is
    what precedes the first colon, holds no colon, and the argument is the
    name, a colon and the text the properties are taken from. *)
Theorem parseNamedQuery_cut (queryInput : string) :
  match snd (parseNamedQuery queryInput) with
  | None =>
      fst (parseNamedQuery queryInput) = queryInput
      /\ occurs colon queryInput = false
  | Some properties =>
      occurs colon (fst (parseNamedQuery queryInput)) = false
      /\ exists propertiesStr,
           queryInput
           = fst (parseNamedQuery queryInput) ++ String colon propertiesStr
           /\ properties
              = filter (fun p => Nat.ltb 0 (String.length p))
                  (map JsString.trim (JsString.split comma propertiesStr))
  end.
Proof.
  unfold parseNamedQuery.
  destruct (JsString.indexOf colon queryInput) as [i|] eqn:E; simpl.
  - destruct (indexOf_some _ _ _ E) as [H1 H2].
    split; [exact H2|]. eexists. split; [exact H1 | reflexivity].
  - split; [reflexivity | now apply indexOf_none].
Qed.

Lemma split_pieces (c : ascii) (s p : string) :
  In p (JsString.split c s) -> occurs c p = false.
Proof.
  revert p. induction s as [|a s IH]; simpl; intros p H.
  - destruct H as [<-|[]]. reflexivity.
  - destruct (Ascii.eqb a c) eqn:E.
    + destruct H as [<-|H]; [reflexivity | now apply IH].
    + destruct (JsString.split c s) as [|piece pieces] eqn:S.
      * destruct H as [<-|[]]. simpl. now rewrite E.
      * destruct H as [<-|H].
        -- simpl. rewrite E. apply IH. now left.
        -- apply IH. now right.
Qed.

Lemma occurs_trimStart (c : ascii) (s : string) :
  occurs c s = false -> occurs c (JsString.trimStart s) = false.
Proof.
  induction s as [|a s IH]; simpl; [reflexivity|].
  intros H. apply orb_false_elim in H as [Ha Hs].
  destruct (JsString.is_space a); [auto | simpl; now rewrite Ha, Hs].
Qed.

Lemma occurs_trimEnd (c : ascii) (s : string) :
  occurs c s = false -> occurs c (JsString.trimEnd s) = false.
Proof.
  induction s as [|a s IH]; simpl; [reflexivity|].
  intros H. apply orb_false_elim in H as [Ha Hs]. specialize (IH Hs).
  destruct (JsString.trimEnd s) as [|b kept].
  - destruct (JsString.is_space a); simpl; [reflexivity | now rewrite Ha].
  - simpl in *. now rewrite Ha, IH.
Qed.

Lemma trimEnd_idempotent (s : string) :
  JsString.trimEnd (JsString.trimEnd s) = JsString.trimEnd s.
Proof.
  induction s as [|a s IH]; simpl; [reflexivity|].
  destruct (JsString.trimEnd s) as [|b kept] eqn:E.
  - destruct (JsString.is_space a) eqn:Sp; simpl; [reflexivity | now rewrite Sp].
  - change (JsString.trimEnd (String a (String b kept)))
      with (match JsString.trimEnd (String b kept) with
            | EmptyString =>
                if JsString.is_space a then EmptyString else String a EmptyString
            | k => String a k
            end).
    now rewrite IH.
Qed.

Lemma trimStart_begins (s : string) : begins_black (JsString.trimStart s) = true.
Proof.
  induction s as [|a s IH]; simpl; [reflexivity|].
  destruct (JsString.is_space a) eqn:Sp; [exact IH | simpl; now rewrite Sp].
Qed.

Lemma trimEnd_begins (s : string) :
  begins_black s = true -> begins_black (JsString.trimEnd s) = true.
Proof.
  destruct s as [|a s]; simpl; [reflexivity|].
  intros H. destruct (JsString.trimEnd s); [|exact H].
  destruct (JsString.is_space a) eqn:Sp; [reflexivity | simpl; now rewrite Sp].
Qed.

Lemma trimStart_fixed (s : string) :
  begins_black s = true -> JsString.trimStart s = s.
Proof.
  destruct s as [|a s]; simpl; [reflexivity|].
  now destruct (JsString.is_space a).
Qed.

Lemma trim_idempotent (s : string) :
  JsString.trim (JsString.trim s) = JsString.trim s.
Proof.
  unfold JsString.trim.
  rewrite (trimStart_fixed (JsString.trimEnd (JsString.trimStart s))).
  - apply trimEnd_idempotent.
  - apply trimEnd_begins, trimStart_begins.
Qed.



(* ===================================================================== *)
(** * Nothing is written before a failure                                 *)
(* ===================================================================== *)

Lemma payload_app (a b : list Event) :
  payload (a ++ b) = (payload a ++ payload b)%list.
Proof. apply flat_map_app. Qed.

Section PayloadRules.

Context {A B : Type}.

Lemma mute_ret (a : A) : mute (ret a).
Proof. intros c; reflexivity. Qed.

Lemma mute_throw (e : string) : mute (@throw A e).
Proof. intros c; reflexivity. Qed.

Lemma mute_exit (code : nat) : mute (@process_exit A code).
Proof. intros c; reflexivity. Qed.

Lemma mute_bind (m : M A) (f : A -> M B) :
  mute m -> (forall a, mute (f a)) -> mute (bind m f).
Proof.
  intros Hm Hf c; unfold bind. specialize (Hm c).
  destruct (m c) as [[r c1] o1]; destruct r; simpl in *; try assumption.
  specialize (Hf a c1). destruct (f a c1) as [[r2 c2] o2]; simpl in *.
  now rewrite payload_app, Hm, Hf.
Qed.

Lemma mute_try (body : M A) (handler : string -> M A) :
  mute body -> (forall e, mute (handler e)) -> mute (try_catch body handler).
Proof.
  intros Hb Hh c; unfold try_catch. specialize (Hb c).
  destruct (body c) as [[r c1] o1]; destruct r; simpl in *; try assumption.
  specialize (Hh error c1). destruct (handler error c1) as [[r2 c2] o2]; simpl in *.
  now rewrite payload_app, Hb, Hh.
Qed.

Lemma atomic_of_mute (m : M A) : mute m -> atomic m.
Proof. intros H c; left; apply H. Qed.

Lemma atomic_bind (m : M A) (f : A -> M B) :
  mute m -> (forall a, atomic (f a)) -> atomic (bind m f).
Proof.
  intros Hm Hf c; unfold bind. specialize (Hm c).
  destruct (m c) as [[r c1] o1]; destruct r; simpl in *; try (now left).
  specialize (Hf a c1). destruct (f a c1) as [[r2 c2] o2]; simpl in *.
  rewrite payload_app, Hm. exact Hf.
Qed.

Lemma succeeds_of_mute (m : M A) : mute m -> succeeds_or_mute m.
Proof. intros H c; right; apply H. Qed.

Lemma succeeds_bind (m : M A) (f : A -> M B) :
  mute m -> (forall a, succeeds_or_mute (f a)) -> succeeds_or_mute (bind m f).
Proof.
  intros Hm Hf c; unfold bind. specialize (Hm c).
  destruct (m c) as [[r c1] o1]; destruct r; simpl in *; try (now right).
  specialize (Hf a c1). destruct (f a c1) as [[r2 c2] o2]; simpl in *.
  rewrite payload_app, Hm. exact Hf.
Qed.

(** After a step that writes only when it returns, a sequel that always
    ends the process with code 0. *)
Lemma succeeds_after_atomic (m : M A) (f : A -> M B) :
  atomic m -> (forall a c, fst (fst (f a c)) = Exited 0) ->
  succeeds_or_mute (bind m f).
Proof.
  intros Hm Hf c; unfold bind. specialize (Hm c).
  destruct (m c) as [[r c1] o1]; destruct r; simpl in *.
  - specialize (Hf a c1). destruct (f a c1) as [[r2 c2] o2]; simpl in *. now left.
  - right. destruct Hm as [H | [a H]]; [exact H | discriminate].
  - right. destruct Hm as [H | [a H]]; [exact H | discriminate].
Qed.

Lemma succeeds_try (body : M A) (handler : string -> M A) :
  succeeds_or_mute body -> (forall e, mute (handler e)) ->
  succeeds_or_mute (try_catch body handler).
Proof.
  intros Hb Hh c; unfold try_catch. specialize (Hb c).
  destruct (body c) as [[r c1] o1]; destruct r; simpl in *; try assumption.
  right. destruct Hb as [Hb | Hb]; [discriminate|].
  specialize (Hh error c1). destruct (handler error c1) as [[r2 c2] o2]; simpl in *.
  now rewrite payload_app, Hb, Hh.
Qed.

End PayloadRules.

Lemma mute_emit (e : Event) :
  (match e with Stdout _ => false | _ => true end) = true -> mute (emit e).
Proof. intros H c. destruct e; try discriminate; reflexivity. Qed.

Section PayloadScript.

Variable env : Env.
Variable args : Args.

Lemma mute_debug (label : string) : mute (debug args label).
Proof. unfold debug; destruct (debugFlag _); [now apply mute_emit | apply mute_ret]. Qed.

Lemma mute_console_error (parts : list string) : mute (console_error parts).
Proof. now apply mute_emit. Qed.

Lemma mute_sleep (ms : nat) : mute (sleep ms).
Proof. now apply mute_emit. Qed.

Lemma mute_await {A} (o : Outcome A) : mute (await o).
Proof. destruct o; intros c; reflexivity. Qed.

Lemma mute_await_listSchemas : mute (await_listSchemas env).
Proof.
  intros c; unfold await_listSchemas, bind, emit.
  destruct (sheets_listSchemas env _); reflexivity.
Qed.

Lemma mute_await_listQueries (s : string) : mute (await_listQueries env s).
Proof.
  intros c; unfold await_listQueries, bind, emit.
  destruct (sheets_listQueries env _ _); reflexivity.
Qed.

Lemma mute_await_list (s q : string) : mute (await_list env s q).
Proof.
  intros c; unfold await_list, bind, emit.
  destruct (sheets_list env _ _ _); reflexivity.
Qed.

Lemma mute_await_rm (path : string) : mute (await_rm env path).
Proof.
  intros c; unfold await_rm, bind, emit.
  destruct (fs_rm env _ _); reflexivity.
Qed.

Lemma mute_first {A} (l : list A) : mute (first l).
Proof. destruct l; [apply mute_throw | apply mute_ret]. Qed.

Lemma mute_get_property (receiver : Js.value) (k : string) :
  mute (get_property env receiver k).
Proof. unfold get_property; destruct (Js.get _ _ _); [apply mute_ret | apply mute_throw]. Qed.

Create HintDb mute.

Hint Resolve mute_ret mute_throw mute_exit mute_debug mute_console_error
  mute_sleep mute_await mute_await_listSchemas mute_await_listQueries
  mute_await_list mute_await_rm mute_first mute_get_property : mute.

Ltac mute_tac :=
  lazymatch goal with
  | |- forall _, _ => intro; mute_tac
  | |- mute (bind _ _) => apply mute_bind; mute_tac
  | |- mute (try_catch _ _) => apply mute_try; mute_tac
  | |- mute (emit _) => now apply mute_emit
  | |- mute (if ?b then _ else _) => destruct b; mute_tac
  | |- mute (match ?x with _ => _ end) => destruct x; mute_tac
  | |- mute _ => solve [auto with mute]
  end.

Lemma mute_cleanup : mute (cleanup env args).
Proof. unfold cleanup. mute_tac. Qed.

Lemma mute_getSchemas : mute (getSchemas env args).
Proof. unfold getSchemas, getSchemas_while, getSchemas_turn. mute_tac. Qed.

Lemma mute_selectProperties (properties : list string) (asJson : Js.value)
  (output : list (string * Js.value)) :
  mute (selectProperties env properties asJson output).
Proof.
  revert output; induction properties as [|p l IH]; intros output; simpl.
  - apply mute_ret.
  - apply mute_bind; [apply mute_get_property|].
    intros v; destruct (negb _); apply IH.
Qed.

Hint Resolve mute_cleanup mute_getSchemas mute_selectProperties : mute.

Lemma atomic_console_log (v : Js.value) : atomic (console_log v).
Proof. intros c; right; now exists tt. Qed.

(** Whether a property read throws depends on the receiver alone. *)
Lemma get_property_returns (receiver : Js.value) (k : string) (c : calls) :
  receiver <> Js.Undefined -> receiver <> Js.Null ->
  exists v, get_property env receiver k c = (Val v, c, []).
Proof.
  intros U N. unfold get_property.
  destruct (Js.get (prototypes env) receiver k) as [v|] eqn:G; [now exists v|].
  destruct receiver; try congruence; simpl in G;
    repeat match type of G with
           | context [match ?x with _ => _ end] => destruct x
           | context [if ?x then _ else _] => destruct x
           end; discriminate.
Qed.

Lemma get_property_throws (receiver : Js.value) (k : string) (c : calls) :
  receiver = Js.Undefined \/ receiver = Js.Null ->
  get_property env receiver k c = (Thrown "TypeError", c, []).
Proof. intros [-> | ->]; reflexivity. Qed.

(** A loop of reads and writes on one receiver returns, unless its first
    read throws. *)
Lemma atomic_forEach_reads (properties : list string) (receiver : Js.value)
  (write : string -> Js.value -> M unit) :
  (forall prop v c, exists out, write prop v c = (Val tt, c, out)) ->
  atomic (forEach properties (fun prop =>
            v <- get_property env receiver prop ;; write prop v)).
Proof.
  intros Hw c.
  assert (D : (receiver = Js.Undefined \/ receiver = Js.Null)
              \/ (receiver <> Js.Undefined /\ receiver <> Js.Null)).
  { destruct receiver; auto; right; split; discriminate. }
  destruct D as [D | [U N]].
  - destruct properties as [|p l]; simpl.
    + right; now exists tt.
    + left. unfold bind. now rewrite (get_property_throws _ p c D).
  - right. revert c. induction properties as [|p l IH]; intros c; simpl.
    + now exists tt.
    + unfold bind.
      destruct (get_property_returns receiver p c U N) as [v ->].
      destruct (Hw p v c) as [out ->].
      destruct (IH c) as [[] E].
      destruct (forEach l _ c) as [[r c2] o2]; simpl in *. subst r.
      now exists tt.
Qed.

Lemma atomic_outputFirstField (asJson : Js.value) :
  atomic (outputFirstField env asJson).
Proof.
  unfold outputFirstField. destruct (Js.keys asJson).
  - apply atomic_bind; [apply mute_get_property | intros v; apply atomic_console_log].
  - apply atomic_of_mute, mute_throw.
Qed.

Lemma atomic_outputProperties (properties : list string) (asJson : Js.value) :
  atomic (outputProperties env args properties asJson).
Proof.
  unfold outputProperties. destruct (json (flags args)).
  - apply atomic_bind; [apply mute_selectProperties|].
    intros o; apply atomic_console_log.
  - apply atomic_forEach_reads. intros prop v c.
    destruct (negb (Js.is_undefined v)); eexists; reflexivity.
Qed.

Lemma atomic_outputExpression (results : list Js.value) :
  atomic (outputExpression env args results).
Proof.
  unfold outputExpression. destruct (json (flags args)).
  - destruct (Nat.eqb _ 1).
    + apply atomic_bind; [apply mute_first | intros v; apply atomic_console_log].
    + apply atomic_console_log.
  - apply atomic_bind; [apply mute_first|].
    intros v; destruct v; try apply atomic_console_log.
    apply atomic_forEach_reads. intros prop v c. eexists; reflexivity.
Qed.

Ltac atomic_tac :=
  lazymatch goal with
  | |- forall _, _ => intro; atomic_tac
  | |- atomic (outputFirstField _ _) => apply atomic_outputFirstField
  | |- atomic (outputProperties _ _ _ _) => apply atomic_outputProperties
  | |- atomic (outputExpression _ _ _) => apply atomic_outputExpression
  | |- atomic (if ?b then _ else _) => destruct b; atomic_tac
  | |- atomic (match ?x with _ => _ end) => destruct x; atomic_tac
  | |- atomic _ =>
      first [ solve [apply atomic_of_mute; mute_tac]
            | apply atomic_bind; [solve [mute_tac] | atomic_tac] ]
  end.

Lemma done_exits (c : calls) :
  fst (fst ((cleanup env args ;; debug args "Done!" ;; @process_exit unit 0) c))
  = Exited 0.
Proof.
  unfold bind.
  pose proof (tears_cleanup env args c) as H.
  destruct (cleanup env args c) as [[r c1] o1]; destruct r; try easy.
  unfold debug. destruct (debugFlag (flags args)); reflexivity.
Qed.

(** [executeQuery] ends the process with code 0, or it has written no
    payload. *)
Lemma succeeds_executeQuery : succeeds_or_mute (executeQuery env args).
Proof.
  unfold executeQuery.
  apply succeeds_try; [| mute_tac].
  repeat (apply succeeds_bind; [solve [mute_tac] | intros ?]).
  apply succeeds_after_atomic; [atomic_tac | intros; apply done_exits].
Qed.

Lemma mute_decode :
  mute (match decodeRoomLink (z32_decode env) (roomLink args) with
        | Some d => ret d
        | None => throw "z32.decode: invalid input"
        end).
Proof. destruct (decodeRoomLink _ _); [apply mute_ret | apply mute_throw]. Qed.

Lemma succeeds_attempt (handler : string -> M unit) :
  succeeds_or_mute (try_catch (executeQuery env args) handler).
Proof.
  intros c. unfold try_catch.
  pose proof (succeeds_executeQuery c) as H.
  destruct (executeQuery_exits env args c) as (code & c' & out & E & _).
  now rewrite E in *.
Qed.

Lemma succeeds_main : succeeds_or_mute (main env args).
Proof.
  unfold main.
  repeat (apply succeeds_bind;
          [first [apply mute_decode | solve [mute_tac]] | intros ?]).
  apply succeeds_attempt.
Qed.

End PayloadScript.


(* ===================================================================== *)
(** * The debug flag only adds debug lines                                *)
(* ===================================================================== *)

Section DebugRules.

Context {A B : Type}.

Lemma nodebug_ret (a : A) : nodebug (ret a).
Proof. intros c; reflexivity. Qed.

Lemma nodebug_throw (e : string) : nodebug (@throw A e).
Proof. intros c; reflexivity. Qed.

Lemma nodebug_exit (code : nat) : nodebug (@process_exit A code).
Proof. intros c; reflexivity. Qed.

Lemma nodebug_bind (m : M A) (f : A -> M B) :
  nodebug m -> (forall a, nodebug (f a)) -> nodebug (bind m f).
Proof.
  intros Hm Hf c; unfold bind. specialize (Hm c).
  destruct (m c) as [[r c1] o1]; destruct r; simpl in *; try assumption.
  specialize (Hf a c1). destruct (f a c1) as [[r2 c2] o2]; simpl in *.
  now rewrite undebug_app, Hm, Hf.
Qed.

Lemma erases_nodebug (m : M A) : nodebug m -> erases m m.
Proof. intros H c; split; [reflexivity | apply H]. Qed.

Lemma erases_bind (m1 m2 : M A) (f1 f2 : A -> M B) :
  erases m1 m2 -> (forall a, erases (f1 a) (f2 a)) ->
  erases (bind m1 f1) (bind m2 f2).
Proof.
  intros Hm Hf c; unfold bind. destruct (Hm c) as [E U].
  destruct (m1 c) as [[r1 c1] o1], (m2 c) as [[r2 c2] o2].
  simpl in *. inversion E; subst.
  destruct r2; try (split; reflexivity).
  destruct (Hf a c2) as [E2 U2].
  destruct (f1 a c2) as [[r1 c1] o3], (f2 a c2) as [[r3 c3] o4].
  simpl in *. inversion E2; subst. split; [reflexivity|].
  now rewrite undebug_app.
Qed.

Lemma erases_try (b1 b2 : M A) (h1 h2 : string -> M A) :
  erases b1 b2 -> (forall e, erases (h1 e) (h2 e)) ->
  erases (try_catch b1 h1) (try_catch b2 h2).
Proof.
  intros Hb Hh c; unfold try_catch. destruct (Hb c) as [E U].
  destruct (b1 c) as [[r1 c1] o1], (b2 c) as [[r2 c2] o2].
  simpl in *. inversion E; subst.
  destruct r2; try (split; reflexivity).
  destruct (Hh error c2) as [E2 U2].
  destruct (h1 error c2) as [[r1 c1] o3], (h2 error c2) as [[r3 c3] o4].
  simpl in *. inversion E2; subst. split; [reflexivity|].
  now rewrite undebug_app.
Qed.

End DebugRules.

Lemma nodebug_emit (e : Event) : is_debug e = false -> nodebug (emit e).
Proof. intros H c. unfold undebug; simpl. now rewrite H. Qed.

Lemma nodebug_forEach {A} (l : list A) (f : A -> M unit) :
  (forall a, nodebug (f a)) -> nodebug (forEach l f).
Proof.
  intros Hf; induction l as [|x l IH]; simpl; [apply nodebug_ret|].
  apply nodebug_bind; auto.
Qed.

Section DebugScript.

Variable env : Env.
Variable args : Args.

Lemma nodebug_await {A} (o : Outcome A) : nodebug (await o).
Proof. destruct o; intros c; reflexivity. Qed.

Lemma nodebug_await_listSchemas : nodebug (await_listSchemas env).
Proof.
  intros c; unfold await_listSchemas, bind, emit.
  destruct (sheets_listSchemas env _); reflexivity.
Qed.

Lemma nodebug_await_listQueries (s : string) : nodebug (await_listQueries env s).
Proof.
  intros c; unfold await_listQueries, bind, emit.
  destruct (sheets_listQueries env _ _); reflexivity.
Qed.

Lemma nodebug_await_list (s q : string) : nodebug (await_list env s q).
Proof.
  intros c; unfold await_list, bind, emit.
  destruct (sheets_list env _ _ _); reflexivity.
Qed.

Lemma nodebug_await_rm (path : string) : nodebug (await_rm env path).
Proof.
  intros c; unfold await_rm, bind, emit.
  destruct (fs_rm env _ _); reflexivity.
Qed.

Lemma nodebug_first {A} (l : list A) : nodebug (first l).
Proof. destruct l; [apply nodebug_throw | apply nodebug_ret]. Qed.

Lemma nodebug_get_property (receiver : Js.value) (k : string) :
  nodebug (get_property env receiver k).
Proof.
  unfold get_property; destruct (Js.get _ _ _);
    [apply nodebug_ret | apply nodebug_throw].
Qed.

Lemma nodebug_console_log (v : Js.value) : nodebug (console_log v).
Proof. now apply nodebug_emit. Qed.

Lemma nodebug_console_error (parts : list string) : nodebug (console_error parts).
Proof. now apply nodebug_emit. Qed.

Lemma nodebug_sleep (ms : nat) : nodebug (sleep ms).
Proof. now apply nodebug_emit. Qed.

Lemma nodebug_selectProperties (properties : list string) (asJson : Js.value)
  (output : list (string * Js.value)) :
  nodebug (selectProperties env properties asJson output).
Proof.
  revert output; induction properties as [|p l IH]; intros output; simpl.
  - apply nodebug_ret.
  - apply nodebug_bind; [apply nodebug_get_property|].
    intros v; destruct (negb _); apply IH.
Qed.

Create HintDb nodebug.

Hint Resolve nodebug_ret nodebug_throw nodebug_exit nodebug_await
  nodebug_await_listSchemas nodebug_await_listQueries nodebug_await_list
  nodebug_await_rm nodebug_first nodebug_get_property nodebug_console_log
  nodebug_console_error nodebug_sleep nodebug_selectProperties : nodebug.

Ltac nodebug_tac :=
  lazymatch goal with
  | |- forall _, _ => intro; nodebug_tac
  | |- nodebug (bind _ _) => apply nodebug_bind; nodebug_tac
  | |- nodebug (forEach _ _) => apply nodebug_forEach; nodebug_tac
  | |- nodebug (emit _) => now apply nodebug_emit
  | |- nodebug (if ?b then _ else _) => destruct b; nodebug_tac
  | |- nodebug (match ?x with _ => _ end) => destruct x; nodebug_tac
  | |- nodebug _ => solve [auto with nodebug]
  end.

Lemma nodebug_outputFirstField (asJson : Js.value) :
  nodebug (outputFirstField env asJson).
Proof. unfold outputFirstField. nodebug_tac. Qed.

Lemma nodebug_outputProperties (properties : list string) (asJson : Js.value) :
  nodebug (outputProperties env args properties asJson).
Proof. unfold outputProperties. nodebug_tac. Qed.

Lemma nodebug_outputExpression (results : list Js.value) :
  nodebug (outputExpression env args results).
Proof. unfold outputExpression. nodebug_tac. Qed.

Lemma erases_debug (label : string) :
  erases (debug args label) (debug (with_debug args false) label).
Proof. intros c. unfold debug; simpl. destruct (debugFlag (flags args)); now split. Qed.

Hint Resolve nodebug_outputFirstField nodebug_outputProperties
  nodebug_outputExpression : nodebug.

(** Both sides step by step: a debug line on the left is nothing on the
    right, everything else is the same on both sides. *)
Ltac erases_tac :=
  lazymatch goal with
  | |- forall _, _ => intro; erases_tac
  | |- erases (debug _ _) (debug _ _) => apply erases_debug
  | |- erases (bind _ _) (bind _ _) => apply erases_bind; erases_tac
  | |- erases (try_catch _ _) (try_catch _ _) => apply erases_try; erases_tac
  | |- erases (if ?b then _ else _) _ => destruct b; erases_tac
  | |- erases (match ?x with _ => _ end) _ => destruct x; erases_tac
  | |- erases _ _ => apply erases_nodebug; nodebug_tac
  end.

Lemma erases_cleanup :
  erases (cleanup env args) (cleanup env (with_debug args false)).
Proof.
  unfold cleanup. cbn [with_debug flags storage]. erases_tac.
Qed.

Lemma erases_getSchemas :
  erases (getSchemas env args) (getSchemas env (with_debug args false)).
Proof. unfold getSchemas, getSchemas_while, getSchemas_turn. erases_tac. Qed.

Ltac erases_script :=
  lazymatch goal with
  | |- forall _, _ => intro; erases_script
  | |- erases (debug _ _) (debug _ _) => apply erases_debug
  | |- erases (cleanup _ _) (cleanup _ _) => apply erases_cleanup
  | |- erases (getSchemas _ _) (getSchemas _ _) => apply erases_getSchemas
  | |- erases (bind _ _) (bind _ _) => apply erases_bind; erases_script
  | |- erases (try_catch _ _) (try_catch _ _) => apply erases_try; erases_script
  | |- erases (if ?b then _ else _) _ => destruct b; erases_script
  | |- erases (match ?x with _ => _ end) _ => destruct x; erases_script
  | |- erases ?m _ => change (erases m m); apply erases_nodebug; nodebug_tac
  end.

Lemma erases_executeQuery :
  erases (executeQuery env args) (executeQuery env (with_debug args false)).
Proof.
  unfold executeQuery. cbv zeta. cbn [with_debug flags namedQuery query].
  erases_script.
Qed.

Lemma erases_main :
  erases (main env args) (main env (with_debug args false)).
Proof.
  unfold main, race. cbn [with_debug roomLink].
  repeat (apply erases_bind;
          [first [apply erases_debug | apply erases_nodebug; nodebug_tac]
          | intros ?]).
  apply erases_try; [apply erases_executeQuery | intros _].
  repeat (apply erases_bind;
          [first [apply erases_debug | apply erases_nodebug; nodebug_tac]
          | intros ?]).
  apply erases_executeQuery.
Qed.

End DebugScript.

(** X9. The debug flag changes nothing but the debug lines: a run ends the
    same way with and without it, and, debug lines apart, it does the same
    things in the same order.  Without the flag there is no debug line. *)
Theorem debug_only_adds_lines (env : Env) (args : Args) :
  fst (run env args) = fst (run env (with_debug args false))
  /\ undebug (snd (run env args)) = snd (run env (with_debug args false)).
Proof.
  unfold run. destruct (erases_main env args no_calls) as [E U].
  destruct (main env args no_calls) as [[r1 c1] o1].
  destruct (main env (with_debug args false) no_calls) as [[r2 c2] o2].
  simpl in *. inversion E; subst. now split.
Qed.

(* ===================================================================== *)
(** * The paths of executeQuery                                           *)
(* ===================================================================== *)

(** [getSchemas] touches nothing but the count of [listSchemas]. *)
Lemma getSchemas_frame (env : Env) (args : Args) (c : calls) :
  exists n out,
    getSchemas env args c
    = (Val (schemas_of env c),
       {| n_listSchemas := n; n_listQueries := n_listQueries c;
          n_list := n_list c; n_rm := n_rm c |}, out)
    /\ undebug out = listing_trace env c.
Proof.
  destruct c as [n q l r]. unfold schemas_of, listing_trace.
  cbv zeta. cbn [n_listSchemas n_listQueries n_list n_rm].
  rewrite Nat.add_0_r, Nat.add_1_r.
  replace (n + 2) with (S (S n)) by lia.
  unfold getSchemas, getSchemas_while, getSchemas_turn, try_catch, bind,
    await_listSchemas, debug, emit, ret, sleep, await, throw.
  destruct (debugFlag (flags args)); simpl;
    destruct (sheets_listSchemas env n) as [[|s0 l0]|e0]; simpl;
    try (eexists _, _; split; reflexivity);
    destruct (sheets_listSchemas env (S n)) as [[|s1 l1]|e1]; simpl;
    try (eexists _, _; split; reflexivity);
    destruct (sheets_listSchemas env (S (S n))) as [[|s2 l2]|e2]; simpl;
    eexists _, _; split; reflexivity.
Qed.

Section Paths.

Variable env : Env.
Variable args : Args.

(** The exit sequences, debug lines apart. *)
Lemma error_exit_run (parts : list string) (code : nat) (c : calls) :
  exists c' out,
    (console_error parts ;; cleanup env args ;; @process_exit unit code) c
    = (Exited code, c', out)
    /\ undebug out = (Stderr parts :: cleanup_trace env args (n_rm c))%list.
Proof.
  destruct (cleanup_undebug env args c) as (c1 & o1 & E & U).
  unfold bind, console_error, emit, process_exit. rewrite E. simpl.
  eexists _, _. split; [reflexivity|].
  rewrite app_nil_r. change (undebug (Stderr parts :: o1)) with (Stderr parts :: undebug o1).
  now rewrite U.
Qed.

Lemma done_exit_run (c : calls) :
  exists c' out,
    (cleanup env args ;; debug args "Done!" ;; @process_exit unit 0) c
    = (Exited 0, c', out)
    /\ undebug out = cleanup_trace env args (n_rm c).
Proof.
  destruct (cleanup_undebug env args c) as (c1 & o1 & E & U).
  unfold bind, debug, emit, process_exit, ret. rewrite E.
  destruct (debugFlag (flags args)); simpl;
    eexists _, _; (split; [reflexivity|]);
    rewrite ?undebug_app, U; simpl; now rewrite ?app_nil_r.
Qed.

End Paths.

Section RunRules.

Context {A B : Type}.

Lemma runs_ret (a : A) (c : calls) : runs (ret a) c (Val a) c [].
Proof. now exists []. Qed.

Lemma runs_throw (e : string) (c : calls) : runs (@throw A e) c (Thrown e) c [].
Proof. now exists []. Qed.

Lemma runs_bind (m : M A) (f : A -> M B) (c c1 c2 : calls) (a : A) (r : res B)
  (u1 u2 : list Event) :
  runs m c (Val a) c1 u1 -> runs (f a) c1 r c2 u2 ->
  runs (bind m f) c r c2 (u1 ++ u2).
Proof.
  intros (o1 & E1 & U1) (o2 & E2 & U2). exists (o1 ++ o2)%list.
  unfold bind. rewrite E1, E2. split; [reflexivity|].
  now rewrite undebug_app, U1, U2.
Qed.

Lemma runs_bind_thrown (m : M A) (f : A -> M B) (c c1 : calls) (e : string)
  (u1 : list Event) :
  runs m c (Thrown e) c1 u1 -> runs (bind m f) c (Thrown e) c1 u1.
Proof.
  intros (o1 & E1 & U1). exists o1. unfold bind. now rewrite E1.
Qed.

Lemma runs_bind_exited (m : M A) (f : A -> M B) (c c1 : calls) (code : nat)
  (u1 : list Event) :
  runs m c (Exited code) c1 u1 -> runs (bind m f) c (Exited code) c1 u1.
Proof.
  intros (o1 & E1 & U1). exists o1. unfold bind. now rewrite E1.
Qed.

Lemma runs_try_exited (body : M A) (handler : string -> M A) (c c1 : calls)
  (code : nat) (u : list Event) :
  runs body c (Exited code) c1 u ->
  runs (try_catch body handler) c (Exited code) c1 u.
Proof.
  intros (o1 & E1 & U1). exists o1. unfold try_catch. now rewrite E1.
Qed.

Lemma runs_try_thrown (body : M A) (handler : string -> M A) (c c1 c2 : calls)
  (e : string) (r : res A) (u1 u2 : list Event) :
  runs body c (Thrown e) c1 u1 -> runs (handler e) c1 r c2 u2 ->
  runs (try_catch body handler) c r c2 (u1 ++ u2).
Proof.
  intros (o1 & E1 & U1) (o2 & E2 & U2). exists (o1 ++ o2)%list.
  unfold try_catch. rewrite E1, E2. split; [reflexivity|].
  now rewrite undebug_app, U1, U2.
Qed.

Lemma runs_trace (m : M A) (c c' : calls) (r : res A) (u u' : list Event) :
  runs m c r c' u -> u = u' -> runs m c r c' u'.
Proof. now intros H <-. Qed.

End RunRules.

Section RunScript.

Variable env : Env.
Variable args : Args.

Lemma runs_debug (label : string) (c : calls) :
  runs (debug args label) c (Val tt) c [].
Proof. unfold debug. destruct (debugFlag _); eexists; now split. Qed.

Lemma runs_emit (e : Event) (c : calls) :
  is_debug e = false -> runs (emit e) c (Val tt) c [e].
Proof. intros H. exists [e]. split; [reflexivity|]. unfold undebug; simpl. now rewrite H. Qed.

Lemma runs_nodebug {A} (m : M A) (c c' : calls) (r : res A) (out : list Event) :
  nodebug m -> m c = (r, c', out) -> runs m c r c' out.
Proof. intros N E. exists out. split; [exact E|]. specialize (N c). now rewrite E in N. Qed.

Lemma runs_getSchemas (c : calls) :
  exists n,
    runs (getSchemas env args) c (Val (schemas_of env c))
      {| n_listSchemas := n; n_listQueries := n_listQueries c;
         n_list := n_list c; n_rm := n_rm c |}
      (listing_trace env c).
Proof.
  destruct (getSchemas_frame env args c) as (n & out & E & U).
  exists n, out. now split.
Qed.

Lemma runs_listQueries (schemaId : string) (c : calls) :
  runs (await_listQueries env schemaId) c
    (match sheets_listQueries env (n_listQueries c) schemaId with
     | Resolved queries => Val queries
     | Rejected e => Thrown e
     end)
    (after_listQueries c) [CallListQueries schemaId].
Proof.
  unfold runs, await_listQueries, bind, emit, await, after_listQueries.
  destruct (sheets_listQueries env _ _); eexists; split; reflexivity.
Qed.

Lemma runs_list (schemaId q : string) (c : calls) :
  runs (await_list env schemaId q) c
    (match sheets_list env (n_list c) schemaId q with
     | Resolved results => Val results
     | Rejected e => Thrown e
     end)
    (after_list c) [CallList schemaId q].
Proof.
  unfold runs, await_list, bind, emit, await, after_list.
  destruct (sheets_list env _ _ _); eexists; split; reflexivity.
Qed.

Lemma runs_error_exit (parts : list string) (code : nat) (c : calls) :
  exists c',
    runs (console_error parts ;; cleanup env args ;; @process_exit unit code) c
      (Exited code) c' (Stderr parts :: cleanup_trace env args (n_rm c)).
Proof.
  destruct (error_exit_run env args parts code c) as (c' & out & E & U).
  exists c', out. now split.
Qed.

Lemma runs_done_exit (c : calls) :
  exists c',
    runs (cleanup env args ;; debug args "Done!" ;; @process_exit unit 0) c
      (Exited 0) c' (cleanup_trace env args (n_rm c)).
Proof.
  destruct (done_exit_run env args c) as (c' & out & E & U).
  exists c', out. now split.
Qed.

End RunScript.

(* ===================================================================== *)
(** * Named queries                                                       *)
(* ===================================================================== *)

(** One step of a sequence whose first computation returns. *)
Ltac next_step tac := eapply runs_bind; [tac | lazy beta iota].

(** The steps of [executeQuery] down to the choice of the mode, [G] being
    the run of [getSchemas]. *)
Ltac enter_pipeline G :=
  next_step ltac:(apply runs_debug);
  next_step ltac:(exact G);
  next_step ltac:(apply runs_debug);
  next_step ltac:(apply runs_ret);
  next_step ltac:(apply runs_ret);
  next_step ltac:(apply runs_debug).

(** The steps of the named mode down to the lookup of the query, [L] being
    the run of [listQueries]. *)
Ltac enter_named args L :=
  next_step ltac:(destruct (snd (parseNamedQuery (query args))); apply runs_debug);
  next_step ltac:(apply runs_debug);
  next_step ltac:(exact L);
  next_step ltac:(apply runs_debug).

Section NamedPaths.

Variable env : Env.
Variable args : Args.

Lemma runs_outputFirstField_field (k : string) (v : Js.value)
  (fields : list (string * Js.value)) (c : calls) :
  runs (outputFirstField env (Js.Obj ((k, v) :: fields))) c (Val tt) c [Stdout v].
Proof.
  apply runs_nodebug; [apply nodebug_outputFirstField|].
  unfold outputFirstField, bind, get_property; simpl.
  now rewrite String.eqb_refl.
Qed.

Lemma runs_outputProperties_empty (asJson : Js.value) (c : calls) :
  runs (outputProperties env args [] asJson) c (Val tt) c
    (if json (flags args) then [Stdout (Js.Str "{}")] else []).
Proof.
  apply runs_nodebug; [apply nodebug_outputProperties|].
  unfold outputProperties. now destruct (json (flags args)).
Qed.

Lemma runs_outputProperties_own (properties : list string)
  (fields : list (string * Js.value)) (c : calls) :
  json (flags args) = false ->
  (forall prop, In prop properties -> Js.object_prototype prop = Js.Undefined) ->
  (forall k v, In (k, v) fields -> v <> Js.Undefined) ->
  runs (outputProperties env args properties (Js.Obj fields)) c (Val tt) c
    (map (fun prop => Stdout (Js.Str (assignment args prop (lookup fields prop))))
       (filter (present fields) properties)).
Proof.
  intros J Hp Hf.
  apply runs_nodebug; [apply nodebug_outputProperties|].
  now apply outputProperties_shell_own.
Qed.

End NamedPaths.

(** X10. In named mode, when no query of the first schema has exactly the
    requested name, the script reports the name, tears down and exits with
    code 1; it has asked for the queries of the first schema and has not
    called [list]. *)
Theorem query_not_found_is_fatal (env : Env) (args : Args) (c : calls)
  (schema0 : Schema) (others : list Schema) (queries : list NamedQuery) :
  namedQuery (flags args) = true ->
  schemas_of env c = schema0 :: others ->
  sheets_listQueries env (n_listQueries c) (schemaId schema0) = Resolved queries ->
  find (fun q => String.eqb (name q) (fst (parseNamedQuery (query args)))) queries
  = None ->
  exists c' out,
    executeQuery env args c = (Exited 1, c', out)
    /\ undebug out
       = (listing_trace env c
          ++ [CallListQueries (schemaId schema0);
              Stderr [("Query " ++ str1 dquote
                       ++ fst (parseNamedQuery (query args))
                       ++ str1 dquote ++ " not found")%string]]
          ++ cleanup_trace env args (n_rm c))%list.
Proof.
  intros N S Q F.
  destruct (runs_getSchemas env args c) as (n & G). rewrite S in G.
  match type of G with runs _ _ _ ?c1 _ =>
    pose proof (runs_listQueries env (schemaId schema0) c1) as L;
    destruct (runs_error_exit env args
                ["Query " ++ str1 dquote ++ fst (parseNamedQuery (query args))
                 ++ str1 dquote ++ " not found"] 1 (after_listQueries c1))
      as (c' & X)
  end.
  cbn [n_listQueries after_listQueries n_rm] in L, X. rewrite Q in L.
  exists c'. change (runs (executeQuery env args) c (Exited 1) c'
                       (listing_trace env c
                        ++ [CallListQueries (schemaId schema0);
                            Stderr [("Query " ++ str1 dquote
                                     ++ fst (parseNamedQuery (query args))
                                     ++ str1 dquote ++ " not found")%string]]
                        ++ cleanup_trace env args (n_rm c))%list).
  unfold executeQuery. cbv zeta. rewrite N.
  apply runs_try_exited. eapply runs_trace.
  - next_step ltac:(apply runs_debug).
    next_step ltac:(exact G).
    next_step ltac:(apply runs_debug).
    next_step ltac:(apply runs_ret).
    next_step ltac:(apply runs_ret).
    next_step ltac:(apply runs_debug).
    apply runs_bind_exited.
    next_step ltac:(destruct (snd (parseNamedQuery (query args))); apply runs_debug).
    next_step ltac:(apply runs_debug).
    next_step ltac:(exact L).
    next_step ltac:(apply runs_debug).
    rewrite F. exact X.
  - reflexivity.
Qed.

(** The store of [Sample.env], asked for a query it does not have. *)
Lemma query_not_found_is_fatal_witness :
  exists c' out,
    executeQuery (Sample.env [SampleRecords.ab])
      (SampleRecords.shell_args "staging/app2:a" false) no_calls
    = (Exited 1, c', out)
    /\ undebug out
       = [CallListSchemas; CallListQueries "schema-1";
          Stderr [("Query " ++ str1 dquote ++ "staging/app2" ++ str1 dquote
                   ++ " not found")%string];
          BlindClose; SwarmDestroy; StoreClose; Rm "/tmp/sheets"].
Proof.
  exact (query_not_found_is_fatal (Sample.env [SampleRecords.ab])
           (SampleRecords.shell_args "staging/app2:a" false) no_calls
           {| schemaId := "schema-1" |} []
           [ {| name := "staging/app1"; JMESPathQuery := "[0]" |} ]
           eq_refl eq_refl eq_refl eq_refl).
Defined.

(** X11. In named mode, when the listing of the queries fails, the script
    reports the error, tears down and exits with code 1, without calling
    [list]. *)
Theorem listQueries_failure_is_reported (env : Env) (args : Args) (c : calls)
  (schema0 : Schema) (others : list Schema) (error : string) :
  namedQuery (flags args) = true ->
  schemas_of env c = schema0 :: others ->
  sheets_listQueries env (n_listQueries c) (schemaId schema0) = Rejected error ->
  exists c' out,
    executeQuery env args c = (Exited 1, c', out)
    /\ undebug out
       = (listing_trace env c
          ++ [CallListQueries (schemaId schema0); Stderr ["Error:"; error]]
          ++ cleanup_trace env args (n_rm c))%list.
Proof.
  intros N S Q.
  destruct (runs_getSchemas env args c) as (n & G). rewrite S in G.
  match type of G with runs _ _ _ ?c1 _ =>
    pose proof (runs_listQueries env (schemaId schema0) c1) as L;
    destruct (runs_error_exit env args ["Error:"; error] 1 (after_listQueries c1))
      as (c' & X)
  end.
  cbn [n_listQueries after_listQueries n_rm] in L, X. rewrite Q in L.
  exists c'. change (runs (executeQuery env args) c (Exited 1) c'
                       (listing_trace env c
                        ++ [CallListQueries (schemaId schema0);
                            Stderr ["Error:"; error]]
                        ++ cleanup_trace env args (n_rm c))%list).
  unfold executeQuery. cbv zeta. rewrite N.
  eapply runs_trace.
  - eapply runs_try_thrown; [| exact X].
    enter_pipeline G.
    apply runs_bind_thrown.
    next_step ltac:(destruct (snd (parseNamedQuery (query args))); apply runs_debug).
    next_step ltac:(apply runs_debug).
    apply runs_bind_thrown. exact L.
  - simpl. now rewrite <- app_assoc.
Qed.

(** The store of [Sample.env], with a listing of the queries that fails. *)
Lemma listQueries_failure_is_reported_witness :
  exists c' out,
    executeQuery MoreSamples.unlisted_env
      (SampleRecords.shell_args "staging/app1" false) no_calls
    = (Exited 1, c', out)
    /\ undebug out
       = [CallListSchemas; CallListQueries "schema-1";
          Stderr ["Error:"; "not yet synced"];
          BlindClose; SwarmDestroy; StoreClose; Rm "/tmp/sheets"].
Proof.
  exact (listQueries_failure_is_reported MoreSamples.unlisted_env
           (SampleRecords.shell_args "staging/app1" false) no_calls
           {| schemaId := "schema-1" |} [] "not yet synced"
           eq_refl eq_refl eq_refl).
Defined.

Section NamedPipeline.

Variable env : Env.
Variable args : Args.
Variable c : calls.
Variable schema0 : Schema.
Variable others : list Schema.
Variable queries : list NamedQuery.
Variable found : NamedQuery.

Hypothesis N : namedQuery (flags args) = true.
Hypothesis S : schemas_of env c = schema0 :: others.
Hypothesis Q :
  sheets_listQueries env (n_listQueries c) (schemaId schema0) = Resolved queries.
Hypothesis F :
  find (fun q => String.eqb (name q) (fst (parseNamedQuery (query args)))) queries
  = Some found.

(** The named query returns no result. *)
Lemma named_no_results :
  sheets_list env (n_list c) (schemaId schema0) (JMESPathQuery found) = Resolved [] ->
  exists c' out,
    executeQuery env args c = (Exited 1, c', out)
    /\ undebug out
       = (listing_trace env c
          ++ [CallListQueries (schemaId schema0);
              CallList (schemaId schema0) (JMESPathQuery found);
              Stderr ["No results found"]]
          ++ cleanup_trace env args (n_rm c))%list.
Proof.
  intros R.
  destruct (runs_getSchemas env args c) as (n & G). rewrite S in G.
  match type of G with runs _ _ _ ?c1 _ =>
    pose proof (runs_listQueries env (schemaId schema0) c1) as L;
    pose proof (runs_list env (schemaId schema0) (JMESPathQuery found)
                  (after_listQueries c1)) as RL;
    destruct (runs_error_exit env args ["No results found"] 1
                (after_list (after_listQueries c1))) as (c' & X)
  end.
  cbn [n_listQueries n_list after_listQueries after_list n_rm] in L, RL, X.
  rewrite Q in L. rewrite R in RL.
  exists c'. change (runs (executeQuery env args) c (Exited 1) c'
                       (listing_trace env c
                        ++ [CallListQueries (schemaId schema0);
                            CallList (schemaId schema0) (JMESPathQuery found);
                            Stderr ["No results found"]]
                        ++ cleanup_trace env args (n_rm c))%list).
  unfold executeQuery. cbv zeta. rewrite N.
  apply runs_try_exited. eapply runs_trace.
  - enter_pipeline G. apply runs_bind_exited.
    enter_named args L. rewrite F.
    next_step ltac:(apply runs_debug).
    next_step ltac:(apply runs_debug).
    next_step ltac:(exact RL).
    next_step ltac:(apply runs_debug).
    apply runs_bind_exited. exact X.
  - reflexivity.
Qed.

Variable asJson : Js.value.
Variable more : list Js.value.

Hypothesis R :
  sheets_list env (n_list c) (schemaId schema0) (JMESPathQuery found)
  = Resolved (asJson :: more).

(** The output step returns. *)
Lemma named_output_returns (u : list Event) :
  (forall c0, runs (named_output env args asJson) c0 (Val tt) c0 u) ->
  exists c' out,
    executeQuery env args c = (Exited 0, c', out)
    /\ undebug out
       = (listing_trace env c
          ++ [CallListQueries (schemaId schema0);
              CallList (schemaId schema0) (JMESPathQuery found)]
          ++ u ++ cleanup_trace env args (n_rm c))%list.
Proof.
  intros O.
  destruct (runs_getSchemas env args c) as (n & G). rewrite S in G.
  match type of G with runs _ _ _ ?c1 _ =>
    pose proof (runs_listQueries env (schemaId schema0) c1) as L;
    pose proof (runs_list env (schemaId schema0) (JMESPathQuery found)
                  (after_listQueries c1)) as RL;
    destruct (runs_done_exit env args (after_list (after_listQueries c1)))
      as (c' & X)
  end.
  cbn [n_listQueries n_list after_listQueries after_list n_rm] in L, RL, X.
  rewrite Q in L. rewrite R in RL.
  exists c'. change (runs (executeQuery env args) c (Exited 0) c'
                       (listing_trace env c
                        ++ [CallListQueries (schemaId schema0);
                            CallList (schemaId schema0) (JMESPathQuery found)]
                        ++ u ++ cleanup_trace env args (n_rm c))%list).
  unfold executeQuery. cbv zeta. rewrite N.
  apply runs_try_exited. eapply runs_trace.
  - enter_pipeline G. eapply runs_bind; [| exact X].
    enter_named args L. rewrite F.
    next_step ltac:(apply runs_debug).
    next_step ltac:(apply runs_debug).
    next_step ltac:(exact RL).
    next_step ltac:(apply runs_debug).
    next_step ltac:(apply runs_ret).
    next_step ltac:(apply runs_ret).
    apply O.
  - simpl. rewrite <- ?app_assoc. reflexivity.
Qed.

(** The output step throws. *)
Lemma named_output_throws (error : string) :
  (forall c0, runs (named_output env args asJson) c0 (Thrown error) c0 []) ->
  exists c' out,
    executeQuery env args c = (Exited 1, c', out)
    /\ undebug out
       = (listing_trace env c
          ++ [CallListQueries (schemaId schema0);
              CallList (schemaId schema0) (JMESPathQuery found);
              Stderr ["Error:"; error]]
          ++ cleanup_trace env args (n_rm c))%list.
Proof.
  intros O.
  destruct (runs_getSchemas env args c) as (n & G). rewrite S in G.
  match type of G with runs _ _ _ ?c1 _ =>
    pose proof (runs_listQueries env (schemaId schema0) c1) as L;
    pose proof (runs_list env (schemaId schema0) (JMESPathQuery found)
                  (after_listQueries c1)) as RL;
    destruct (runs_error_exit env args ["Error:"; error] 1
                (after_list (after_listQueries c1))) as (c' & X)
  end.
  cbn [n_listQueries n_list after_listQueries after_list n_rm] in L, RL, X.
  rewrite Q in L. rewrite R in RL.
  exists c'. change (runs (executeQuery env args) c (Exited 1) c'
                       (listing_trace env c
                        ++ [CallListQueries (schemaId schema0);
                            CallList (schemaId schema0) (JMESPathQuery found);
                            Stderr ["Error:"; error]]
                        ++ cleanup_trace env args (n_rm c))%list).
  unfold executeQuery. cbv zeta. rewrite N.
  eapply runs_trace.
  - eapply runs_try_thrown; [| exact X].
    enter_pipeline G. apply runs_bind_thrown.
    enter_named args L. rewrite F.
    next_step ltac:(apply runs_debug).
    next_step ltac:(apply runs_debug).
    next_step ltac:(exact RL).
    next_step ltac:(apply runs_debug).
    next_step ltac:(apply runs_ret).
    next_step ltac:(apply runs_ret).
    apply O.
  - simpl. rewrite <- ?app_assoc. reflexivity.
Qed.

End NamedPipeline.

(** X12. In named mode, when the query of the requested name returns no
    result, the script reports it, tears down and exits with code 1.  The
    expression it has executed is the one stored under that name, against
    the first schema. *)
Theorem named_no_results_is_fatal (env : Env) (args : Args) (c : calls)
  (schema0 : Schema) (others : list Schema) (queries : list NamedQuery)
  (found : NamedQuery) :
  namedQuery (flags args) = true ->
  schemas_of env c = schema0 :: others ->
  sheets_listQueries env (n_listQueries c) (schemaId schema0) = Resolved queries ->
  find (fun q => String.eqb (name q) (fst (parseNamedQuery (query args)))) queries
  = Some found ->
  sheets_list env (n_list c) (schemaId schema0) (JMESPathQuery found) = Resolved [] ->
  exists c' out,
    executeQuery env args c = (Exited 1, c', out)
    /\ undebug out
       = (listing_trace env c
          ++ [CallListQueries (schemaId schema0);
              CallList (schemaId schema0) (JMESPathQuery found);
              Stderr ["No results found"]]
          ++ cleanup_trace env args (n_rm c))%list.
Proof. intros; eapply named_no_results; eassumption. Qed.

(** The store of [Sample.env] without a record. *)
Lemma named_no_results_is_fatal_witness :
  exists c' out,
    executeQuery (Sample.env [])
      (SampleRecords.shell_args "staging/app1:a" false) no_calls
    = (Exited 1, c', out)
    /\ undebug out
       = [CallListSchemas; CallListQueries "schema-1"; CallList "schema-1" "[0]";
          Stderr ["No results found"];
          BlindClose; SwarmDestroy; StoreClose; Rm "/tmp/sheets"].
Proof.
  exact (named_no_results_is_fatal (Sample.env [])
           (SampleRecords.shell_args "staging/app1:a" false) no_calls
           {| schemaId := "schema-1" |} []
           [ {| name := "staging/app1"; JMESPathQuery := "[0]" |} ]
           {| name := "staging/app1"; JMESPathQuery := "[0]" |}
           eq_refl eq_refl eq_refl eq_refl eq_refl).
Defined.

(** X13. In named mode without a property list, the script writes the
    value of the first field of the first result, nothing of the other
    fields and results, tears down and exits with code 0. *)
Theorem named_first_field (env : Env) (args : Args) (c : calls)
  (schema0 : Schema) (others : list Schema) (queries : list NamedQuery)
  (found : NamedQuery) (k : string) (v : Js.value)
  (fields : list (string * Js.value)) (more : list Js.value) :
  namedQuery (flags args) = true ->
  schemas_of env c = schema0 :: others ->
  sheets_listQueries env (n_listQueries c) (schemaId schema0) = Resolved queries ->
  find (fun q => String.eqb (name q) (fst (parseNamedQuery (query args)))) queries
  = Some found ->
  sheets_list env (n_list c) (schemaId schema0) (JMESPathQuery found)
  = Resolved (Js.Obj ((k, v) :: fields) :: more) ->
  snd (parseNamedQuery (query args)) = None ->
  exists c' out,
    executeQuery env args c = (Exited 0, c', out)
    /\ undebug out
       = (listing_trace env c
          ++ [CallListQueries (schemaId schema0);
              CallList (schemaId schema0) (JMESPathQuery found)]
          ++ [Stdout v] ++ cleanup_trace env args (n_rm c))%list.
Proof.
  intros N S Q F R P.
  eapply named_output_returns; try eassumption.
  intros c0. unfold named_output. rewrite P. apply runs_outputFirstField_field.
Qed.

(** The single property example: first and second. *)
Lemma named_first_field_witness :
  exists c' out,
    executeQuery (Sample.env [MoreSamples.first_second; SampleRecords.ab])
      (SampleRecords.shell_args "staging/app1" false) no_calls
    = (Exited 0, c', out)
    /\ undebug out
       = [CallListSchemas; CallListQueries "schema-1"; CallList "schema-1" "[0]";
          Stdout (Js.Str "x");
          BlindClose; SwarmDestroy; StoreClose; Rm "/tmp/sheets"].
Proof.
  exact (named_first_field
           (Sample.env [MoreSamples.first_second; SampleRecords.ab])
           (SampleRecords.shell_args "staging/app1" false) no_calls
           {| schemaId := "schema-1" |} []
           [ {| name := "staging/app1"; JMESPathQuery := "[0]" |} ]
           {| name := "staging/app1"; JMESPathQuery := "[0]" |}
           "first" (Js.Str "x") [("second", Js.Str "y")] [SampleRecords.ab]
           eq_refl eq_refl eq_refl eq_refl eq_refl eq_refl).
Defined.

(** X14. In named mode without a property list, a first result that is
    [null] is an error: the read of its keys throws, the script reports
    the error, tears down and exits with code 1, having written nothing. *)
Theorem named_null_record_is_an_error (env : Env) (args : Args) (c : calls)
  (schema0 : Schema) (others : list Schema) (queries : list NamedQuery)
  (found : NamedQuery) (more : list Js.value) :
  namedQuery (flags args) = true ->
  schemas_of env c = schema0 :: others ->
  sheets_listQueries env (n_listQueries c) (schemaId schema0) = Resolved queries ->
  find (fun q => String.eqb (name q) (fst (parseNamedQuery (query args)))) queries
  = Some found ->
  sheets_list env (n_list c) (schemaId schema0) (JMESPathQuery found)
  = Resolved (Js.Null :: more) ->
  snd (parseNamedQuery (query args)) = None ->
  exists c' out,
    executeQuery env args c = (Exited 1, c', out)
    /\ undebug out
       = (listing_trace env c
          ++ [CallListQueries (schemaId schema0);
              CallList (schemaId schema0) (JMESPathQuery found);
              Stderr ["Error:"; "TypeError"]]
          ++ cleanup_trace env args (n_rm c))%list.
Proof.
  intros N S Q F R P.
  eapply named_output_throws; try eassumption.
  intros c0. unfold named_output. rewrite P. now exists [].
Qed.

(** A named query whose expression selects nothing. *)
Lemma named_null_record_is_an_error_witness :
  exists c' out,
    executeQuery (Sample.env [Js.Null])
      (SampleRecords.shell_args "staging/app1" false) no_calls
    = (Exited 1, c', out)
    /\ undebug out
       = [CallListSchemas; CallListQueries "schema-1"; CallList "schema-1" "[0]";
          Stderr ["Error:"; "TypeError"];
          BlindClose; SwarmDestroy; StoreClose; Rm "/tmp/sheets"].
Proof.
  exact (named_null_record_is_an_error (Sample.env [Js.Null])
           (SampleRecords.shell_args "staging/app1" false) no_calls
           {| schemaId := "schema-1" |} []
           [ {| name := "staging/app1"; JMESPathQuery := "[0]" |} ]
           {| name := "staging/app1"; JMESPathQuery := "[0]" |} []
           eq_refl eq_refl eq_refl eq_refl eq_refl eq_refl).
Defined.

(** X15. A property list that is empty once trimmed and filtered is not an
    error, whatever the first result is: the shell output is empty, the
    JSON output is the empty object, and the exit code is 0. *)
Theorem named_empty_property_list (env : Env) (args : Args) (c : calls)
  (schema0 : Schema) (others : list Schema) (queries : list NamedQuery)
  (found : NamedQuery) (asJson : Js.value) (more : list Js.value) :
  namedQuery (flags args) = true ->
  schemas_of env c = schema0 :: others ->
  sheets_listQueries env (n_listQueries c) (schemaId schema0) = Resolved queries ->
  find (fun q => String.eqb (name q) (fst (parseNamedQuery (query args)))) queries
  = Some found ->
  sheets_list env (n_list c) (schemaId schema0) (JMESPathQuery found)
  = Resolved (asJson :: more) ->
  snd (parseNamedQuery (query args)) = Some [] ->
  exists c' out,
    executeQuery env args c = (Exited 0, c', out)
    /\ undebug out
       = (listing_trace env c
          ++ [CallListQueries (schemaId schema0);
              CallList (schemaId schema0) (JMESPathQuery found)]
          ++ (if json (flags args) then [Stdout (Js.Str "{}")] else [])
          ++ cleanup_trace env args (n_rm c))%list.
Proof.
  intros N S Q F R P.
  eapply named_output_returns; try eassumption.
  intros c0. unfold named_output. rewrite P. apply runs_outputProperties_empty.
Qed.

(** A colon and blanks after the name, and a first result that is null. *)
Lemma named_empty_property_list_witness :
  exists c' out,
    executeQuery (Sample.env [Js.Null])
      (SampleRecords.shell_args "staging/app1: , " false) no_calls
    = (Exited 0, c', out)
    /\ undebug out
       = [CallListSchemas; CallListQueries "schema-1"; CallList "schema-1" "[0]";
          BlindClose; SwarmDestroy; StoreClose; Rm "/tmp/sheets"].
Proof.
  exact (named_empty_property_list (Sample.env [Js.Null])
           (SampleRecords.shell_args "staging/app1: , " false) no_calls
           {| schemaId := "schema-1" |} []
           [ {| name := "staging/app1"; JMESPathQuery := "[0]" |} ]
           {| name := "staging/app1"; JMESPathQuery := "[0]" |} Js.Null []
           eq_refl eq_refl eq_refl eq_refl eq_refl eq_refl).
Defined.



(* ===================================================================== *)
(** * JMESPath queries                                                    *)
(* ===================================================================== *)

Section ExpressionPaths.

Variable env : Env.
Variable args : Args.

(** The lines of the shell output for the fields of an object. *)
Lemma forEach_fields (fields all : list (string * Js.value)) (c : calls) :
  (forall k v, In (k, v) fields -> Js.own k all = Some v) ->
  forEach (map fst fields)
    (fun prop =>
       v <- get_property env (Js.Obj all) prop ;;
       console_log (Js.Str (assignment args prop v))) c
  = (Val tt, c,
     map (fun kv => Stdout (Js.Str (assignment args (fst kv) (snd kv)))) fields).
Proof.
  revert c. induction fields as [|[k v] rest IH]; intros c H; [reflexivity|].
  cbn [map forEach fst snd]. unfold bind at 1. unfold bind at 1.
  rewrite get_property_object. unfold lookup.
  rewrite (H k v (or_introl eq_refl)).
  cbn. rewrite IH; [reflexivity|].
  intros k0 v0 I. apply H. now right.
Qed.

Lemma own_NoDup (fields : list (string * Js.value)) :
  NoDup (map fst fields) ->
  forall k v, In (k, v) fields -> Js.own k fields = Some v.
Proof.
  induction fields as [|[k0 v0] rest IH]; intros D k v I; [destruct I|].
  inversion D as [|? ? NI D']; subst. simpl.
  destruct I as [E | I].
  - inversion E; subst. now rewrite String.eqb_refl.
  - destruct (String.eqb k0 k) eqn:K.
    + apply String.eqb_eq in K; subst k0. exfalso. apply NI.
      apply in_map_iff. now exists (k, v).
    + now apply IH.
Qed.

Lemma runs_outputExpression_object (fields : list (string * Js.value))
  (more : list Js.value) (c : calls) :
  json (flags args) = false ->
  NoDup (map fst fields) ->
  runs (outputExpression env args (Js.Obj fields :: more)) c (Val tt) c
    (map (fun kv => Stdout (Js.Str (assignment args (fst kv) (snd kv)))) fields).
Proof.
  intros J D.
  apply runs_nodebug; [apply nodebug_outputExpression|].
  unfold outputExpression. rewrite J. unfold first, bind at 1, ret.
  now rewrite (forEach_fields fields fields c (own_NoDup fields D)).
Qed.

Lemma runs_outputExpression_json (r0 : Js.value) (more : list Js.value)
  (c : calls) :
  json (flags args) = true ->
  runs (outputExpression env args (r0 :: more)) c (Val tt) c
    [Stdout (match more with
             | [] => Js.stringify_value r0
             | _ => Js.stringify_value (Js.Arr (r0 :: more))
             end)].
Proof.
  intros J.
  apply runs_nodebug; [apply nodebug_outputExpression|].
  unfold outputExpression. rewrite J. now destruct more.
Qed.

End ExpressionPaths.

Section ExpressionPipeline.

Variable env : Env.
Variable args : Args.
Variable c : calls.
Variable schema0 : Schema.
Variable others : list Schema.

Hypothesis N : namedQuery (flags args) = false.
Hypothesis S : schemas_of env c = schema0 :: others.

(** The steps of the JMESPath mode down to the answer of [list]. *)
Ltac enter_expression RL :=
  next_step ltac:(apply runs_debug);
  next_step ltac:(apply runs_debug);
  next_step ltac:(exact RL);
  next_step ltac:(apply runs_debug).

(** The query returns no result. *)
Lemma expression_no_results :
  sheets_list env (n_list c) (schemaId schema0) (query args) = Resolved [] ->
  exists c' out,
    executeQuery env args c = (Exited 1, c', out)
    /\ undebug out
       = (listing_trace env c
          ++ [CallList (schemaId schema0) (query args);
              Stderr ["No results found"]]
          ++ cleanup_trace env args (n_rm c))%list.
Proof.
  intros R.
  destruct (runs_getSchemas env args c) as (n & G). rewrite S in G.
  match type of G with runs _ _ _ ?c1 _ =>
    pose proof (runs_list env (schemaId schema0) (query args) c1) as RL;
    destruct (runs_error_exit env args ["No results found"] 1 (after_list c1))
      as (c' & X)
  end.
  cbn [n_listQueries n_list after_list n_rm] in RL, X.
  rewrite R in RL.
  exists c'. change (runs (executeQuery env args) c (Exited 1) c'
                       (listing_trace env c
                        ++ [CallList (schemaId schema0) (query args);
                            Stderr ["No results found"]]
                        ++ cleanup_trace env args (n_rm c))%list).
  unfold executeQuery. cbv zeta. rewrite N.
  apply runs_try_exited. eapply runs_trace.
  - enter_pipeline G. apply runs_bind_exited.
    enter_expression RL.
    apply runs_bind_exited. exact X.
  - reflexivity.
Qed.

(** The call of [list] fails. *)
Lemma expression_rejected (error : string) :
  sheets_list env (n_list c) (schemaId schema0) (query args) = Rejected error ->
  exists c' out,
    executeQuery env args c = (Exited 1, c', out)
    /\ undebug out
       = (listing_trace env c
          ++ [CallList (schemaId schema0) (query args);
              Stderr ["Error:"; error]]
          ++ cleanup_trace env args (n_rm c))%list.
Proof.
  intros R.
  destruct (runs_getSchemas env args c) as (n & G). rewrite S in G.
  match type of G with runs _ _ _ ?c1 _ =>
    pose proof (runs_list env (schemaId schema0) (query args) c1) as RL;
    destruct (runs_error_exit env args ["Error:"; error] 1 (after_list c1))
      as (c' & X)
  end.
  cbn [n_listQueries n_list after_list n_rm] in RL, X.
  rewrite R in RL.
  exists c'. change (runs (executeQuery env args) c (Exited 1) c'
                       (listing_trace env c
                        ++ [CallList (schemaId schema0) (query args);
                            Stderr ["Error:"; error]]
                        ++ cleanup_trace env args (n_rm c))%list).
  unfold executeQuery. cbv zeta. rewrite N.
  eapply runs_trace.
  - eapply runs_try_thrown; [| exact X].
    enter_pipeline G. apply runs_bind_thrown.
    next_step ltac:(apply runs_debug).
    next_step ltac:(apply runs_debug).
    apply runs_bind_thrown. exact RL.
  - simpl. rewrite <- ?app_assoc. reflexivity.
Qed.

(** The query returns results and they are written. *)
Lemma expression_output_returns (r0 : Js.value) (more : list Js.value)
  (u : list Event) :
  sheets_list env (n_list c) (schemaId schema0) (query args)
  = Resolved (r0 :: more) ->
  (forall c0, runs (outputExpression env args (r0 :: more)) c0 (Val tt) c0 u) ->
  exists c' out,
    executeQuery env args c = (Exited 0, c', out)
    /\ undebug out
       = (listing_trace env c
          ++ [CallList (schemaId schema0) (query args)]
          ++ u ++ cleanup_trace env args (n_rm c))%list.
Proof.
  intros R O.
  destruct (runs_getSchemas env args c) as (n & G). rewrite S in G.
  match type of G with runs _ _ _ ?c1 _ =>
    pose proof (runs_list env (schemaId schema0) (query args) c1) as RL;
    destruct (runs_done_exit env args (after_list c1)) as (c' & X)
  end.
  cbn [n_listQueries n_list after_list n_rm] in RL, X.
  rewrite R in RL.
  exists c'. change (runs (executeQuery env args) c (Exited 0) c'
                       (listing_trace env c
                        ++ [CallList (schemaId schema0) (query args)]
                        ++ u ++ cleanup_trace env args (n_rm c))%list).
  unfold executeQuery. cbv zeta. rewrite N.
  apply runs_try_exited. eapply runs_trace.
  - enter_pipeline G. eapply runs_bind; [| exact X].
    enter_expression RL.
    next_step ltac:(apply runs_ret).
    apply O.
  - simpl. rewrite <- ?app_assoc. reflexivity.
Qed.

End ExpressionPipeline.

(** X17. A JMESPath query that returns no result is fatal: the script
    reports it, tears down and exits with code 1.  The query text has been
    passed to [list] as it was given, against the first schema, and the
    named queries have not been listed. *)
Theorem expression_no_results_is_fatal (env : Env) (args : Args) (c : calls)
  (schema0 : Schema) (others : list Schema) :
  namedQuery (flags args) = false ->
  schemas_of env c = schema0 :: others ->
  sheets_list env (n_list c) (schemaId schema0) (query args) = Resolved [] ->
  exists c' out,
    executeQuery env args c = (Exited 1, c', out)
    /\ undebug out
       = (listing_trace env c
          ++ [CallList (schemaId schema0) (query args);
              Stderr ["No results found"]]
          ++ cleanup_trace env args (n_rm c))%list.
Proof. intros; eapply expression_no_results; eassumption. Qed.

(** A store without a record. *)
Lemma expression_no_results_is_fatal_witness :
  exists c' out,
    executeQuery (Sample.env []) (MoreSamples.expression_args "[0].key" false)
      no_calls
    = (Exited 1, c', out)
    /\ undebug out
       = [CallListSchemas; CallList "schema-1" "[0].key";
          Stderr ["No results found"];
          BlindClose; SwarmDestroy; StoreClose; Rm "/tmp/sheets"].
Proof.
  exact (expression_no_results_is_fatal (Sample.env [])
           (MoreSamples.expression_args "[0].key" false) no_calls
           {| schemaId := "schema-1" |} [] eq_refl eq_refl eq_refl).
Defined.

(** X18. When [list] rejects a JMESPath query, the script reports the
    rejection after the word Error, tears down and exits with code 1: it
    neither calls [list] again nor waits. *)
Theorem expression_failure_is_reported (env : Env) (args : Args) (c : calls)
  (schema0 : Schema) (others : list Schema) (error : string) :
  namedQuery (flags args) = false ->
  schemas_of env c = schema0 :: others ->
  sheets_list env (n_list c) (schemaId schema0) (query args) = Rejected error ->
  exists c' out,
    executeQuery env args c = (Exited 1, c', out)
    /\ undebug out
       = (listing_trace env c
          ++ [CallList (schemaId schema0) (query args);
              Stderr ["Error:"; error]]
          ++ cleanup_trace env args (n_rm c))%list.
Proof. intros; eapply expression_rejected; eassumption. Qed.

(** A store whose query facility fails. *)
Lemma expression_failure_is_reported_witness :
  exists c' out,
    executeQuery Sample.failing_env SampleRuns.failing_args no_calls
    = (Exited 1, c', out)
    /\ undebug out
       = [CallListSchemas; CallList "schema-1" "[0].key";
          Stderr ["Error:"; "not yet synced"];
          BlindClose; SwarmDestroy; StoreClose; Rm "/tmp/sheets"].
Proof.
  exact (expression_failure_is_reported Sample.failing_env
           SampleRuns.failing_args no_calls
           {| schemaId := "schema-1" |} [] "not yet synced"
           eq_refl eq_refl eq_refl).
Defined.



(** X20. With [--json], a JMESPath query with at least one result writes
    exactly one value, whatever the results are: the JSON text of the only
    result, or the JSON text of the array of all the results when there
    are several.  It then tears down and exits with code 0. *)
Theorem expression_json_line (env : Env) (args : Args) (c : calls)
  (schema0 : Schema) (others : list Schema)
  (r0 : Js.value) (more : list Js.value) :
  namedQuery (flags args) = false ->
  json (flags args) = true ->
  schemas_of env c = schema0 :: others ->
  sheets_list env (n_list c) (schemaId schema0) (query args)
  = Resolved (r0 :: more) ->
  exists c' out,
    executeQuery env args c = (Exited 0, c', out)
    /\ undebug out
       = (listing_trace env c
          ++ [CallList (schemaId schema0) (query args)]
          ++ [Stdout (match more with
                      | [] => Js.stringify_value r0
                      | _ => Js.stringify_value (Js.Arr (r0 :: more))
                      end)]
          ++ cleanup_trace env args (n_rm c))%list.
Proof.
  intros N J S R.
  eapply expression_output_returns; try eassumption.
  intros c0. now apply runs_outputExpression_json.
Qed.

(** Two numbers. *)
Lemma expression_json_line_witness :
  exists c' out,
    executeQuery (Sample.env [Js.Num "1"; Js.Num "2"])
      SampleRecords.expression_json_args no_calls
    = (Exited 0, c', out)
    /\ undebug out
       = [CallListSchemas; CallList "schema-1" "[0].key";
          Stdout (Js.Str "[1,2]");
          BlindClose; SwarmDestroy; StoreClose; Rm "/tmp/sheets"].
Proof.
  exact (expression_json_line (Sample.env [Js.Num "1"; Js.Num "2"])
           SampleRecords.expression_json_args no_calls
           {| schemaId := "schema-1" |} [] (Js.Num "1") [Js.Num "2"]
           eq_refl eq_refl eq_refl eq_refl).
Defined.

(* ===================================================================== *)
(** * The JSON output of a named query, in the plain case                 *)
(* ===================================================================== *)

Lemma own_absent (k : string) (fields : list (string * Js.value)) :
  ~ In k (map fst fields) -> Js.own k fields = None.
Proof.
  induction fields as [|[k' v'] l IH]; simpl; intros H; [reflexivity|].
  destruct (String.eqb k' k) eqn:K.
  - apply String.eqb_eq in K. tauto.
  - apply IH. tauto.
Qed.

Lemma own_in (k : string) (v : Js.value) (fields : list (string * Js.value)) :
  Js.own k fields = Some v -> In (k, v) fields.
Proof.
  induction fields as [|[k' v'] l IH]; [discriminate|].
  simpl. destruct (String.eqb k' k) eqn:K.
  - apply String.eqb_eq in K. intros E; inversion E; subst. now left.
  - right; auto.
Qed.

Lemma defined_present (fields : list (string * Js.value)) (prop : string) :
  Js.object_prototype prop = Js.Undefined ->
  (forall k v, In (k, v) fields -> v <> Js.Undefined) ->
  defined (lookup fields prop) = present fields prop.
Proof.
  intros Hp Hf. unfold defined, present, lookup.
  destruct (Js.own prop fields) as [v|] eqn:O.
  - apply own_in in O. specialize (Hf _ _ O). now destruct v.
  - now rewrite Hp.
Qed.

(** The object of the JSON output when the requested names are distinct
    and none is a member of [Object.prototype] or an array index: the
    requested properties that the record holds, in the order of the
    request. *)
Lemma selected_plain (fields : list (string * Js.value))
  (properties : list string) (output : list (string * Js.value)) :
  NoDup properties ->
  (forall prop, In prop properties -> Js.object_prototype prop = Js.Undefined) ->
  (forall prop, In prop properties -> Js.array_index prop = None) ->
  (forall k v, In (k, v) fields -> v <> Js.Undefined) ->
  (forall prop, In prop properties -> ~ In prop (map fst output)) ->
  selected fields properties output
  = (output ++ map (fun prop => (prop, lookup fields prop))
                 (filter (present fields) properties))%list.
Proof.
  revert output.
  induction properties as [|p l IH]; intros output D Hp Hi Hf Ho.
  - simpl. now rewrite app_nil_r.
  - inversion D as [|? ? NI D']; subst.
    change (selected fields (p :: l) output)
      with (selected fields l
              (if defined (lookup fields p) then Js.set p (lookup fields p) output
               else output)).
    cbn [filter].
    rewrite (defined_present fields p (Hp p (or_introl eq_refl)) Hf).
    destruct (present fields p) eqn:P.
    + assert (Js.set p (lookup fields p) output
              = (output ++ [(p, lookup fields p)])%list) as E.
      { unfold Js.set.
        destruct (String.eqb p "__proto__") eqn:Q.
        - apply String.eqb_eq in Q; subst p.
          specialize (Hp _ (or_introl eq_refl)). discriminate.
        - rewrite (own_absent p output (Ho p (or_introl eq_refl))).
          now rewrite (Hi p (or_introl eq_refl)). }
      rewrite E.
      rewrite (IH (output ++ [(p, lookup fields p)])%list D'
                 (fun q H => Hp q (or_intror H))
                 (fun q H => Hi q (or_intror H)) Hf).
      * simpl. now rewrite <- app_assoc.
      * intros q Hq. rewrite map_app, in_app_iff. simpl.
        intros [H | [H | []]].
        -- now apply (Ho q (or_intror Hq)).
        -- subst q. contradiction.
    + exact (IH output D' (fun q H => Hp q (or_intror H))
               (fun q H => Hi q (or_intror H)) Hf
               (fun q H => Ho q (or_intror H))).
Qed.

(** X21. In named mode with a property list and [--json], when the
    requested names are distinct and none is a member of
    [Object.prototype] or an array index, the script writes one value:
    the JSON text of the object made of the requested properties that the
    first result holds, in the order of the request.  It then tears down
    and exits with code 0. *)
Theorem named_json_object (env : Env) (args : Args) (c : calls)
  (schema0 : Schema) (others : list Schema) (queries : list NamedQuery)
  (found : NamedQuery) (properties : list string)
  (fields : list (string * Js.value)) (more : list Js.value) :
  namedQuery (flags args) = true ->
  json (flags args) = true ->
  schemas_of env c = schema0 :: others ->
  sheets_listQueries env (n_listQueries c) (schemaId schema0) = Resolved queries ->
  find (fun q => String.eqb (name q) (fst (parseNamedQuery (query args)))) queries
  = Some found ->
  sheets_list env (n_list c) (schemaId schema0) (JMESPathQuery found)
  = Resolved (Js.Obj fields :: more) ->
  snd (parseNamedQuery (query args)) = Some properties ->
  NoDup properties ->
  (forall prop, In prop properties -> Js.object_prototype prop = Js.Undefined) ->
  (forall prop, In prop properties -> Js.array_index prop = None) ->
  (forall k v, In (k, v) fields -> v <> Js.Undefined) ->
  exists c' out,
    executeQuery env args c = (Exited 0, c', out)
    /\ undebug out
       = (listing_trace env c
          ++ [CallListQueries (schemaId schema0);
              CallList (schemaId schema0) (JMESPathQuery found)]
          ++ [Stdout (Js.stringify_value
                        (Js.Obj (map (fun prop => (prop, lookup fields prop))
                                   (filter (present fields) properties))))]
          ++ cleanup_trace env args (n_rm c))%list.
Proof.
  intros N J S Q F R P D Hp Hi Hf.
  eapply named_output_returns; try eassumption.
  intros c0. unfold named_output. rewrite P.
  apply runs_nodebug; [apply nodebug_outputProperties|].
  unfold outputProperties. rewrite J. unfold bind.
  rewrite selectProperties_object.
  rewrite selected_plain; auto.
Qed.

(** Three properties requested, two of them in the record. *)
Lemma named_json_object_witness :
  exists c' out,
    executeQuery (Sample.env [SampleRecords.keys])
      (SampleRecords.json_args "staging/app1:database-url,secret,api-key")
      no_calls
    = (Exited 0, c', out)
    /\ undebug out
       = [CallListSchemas; CallListQueries "schema-1"; CallList "schema-1" "[0]";
          Stdout (Js.stringify_value
                    (Js.Obj [("database-url", Js.Str "d1");
                             ("api-key", Js.Str "k1")]));
          BlindClose; SwarmDestroy; StoreClose; Rm "/tmp/sheets"].
Proof.
  refine (named_json_object (Sample.env [SampleRecords.keys])
            (SampleRecords.json_args "staging/app1:database-url,secret,api-key")
            no_calls
            {| schemaId := "schema-1" |} []
            [ {| name := "staging/app1"; JMESPathQuery := "[0]" |} ]
            {| name := "staging/app1"; JMESPathQuery := "[0]" |}
            ["database-url"; "secret"; "api-key"]
            [("api-key", Js.Str "k1"); ("database-url", Js.Str "d1")] []
            eq_refl eq_refl eq_refl eq_refl eq_refl eq_refl eq_refl _ _ _ _).
  - repeat constructor; simpl; intuition discriminate.
  - intros prop [<- | [<- | [<- | []]]]; reflexivity.
  - intros prop [<- | [<- | [<- | []]]]; reflexivity.
  - intros k v [E | [E | []]]; inversion E; discriminate.
Defined.

(* ===================================================================== *)
(** * How often the store is queried                                      *)
(* ===================================================================== *)

Section OccurrenceRules.

Variable P : Event -> bool.
Context {A B : Type}.

Lemma silent_ret (a : A) : silent P (ret a).
Proof. intros c; reflexivity. Qed.

Lemma silent_throw (e : string) : silent P (@throw A e).
Proof. intros c; reflexivity. Qed.

Lemma silent_exit (code : nat) : silent P (@process_exit A code).
Proof. intros c; reflexivity. Qed.

Lemma silent_bind (m : M A) (f : A -> M B) :
  silent P m -> (forall a, silent P (f a)) -> silent P (bind m f).
Proof.
  intros Hm Hf c; unfold bind. specialize (Hm c).
  destruct (m c) as [[r c1] o1]; destruct r; simpl in *; try assumption.
  specialize (Hf a c1). destruct (f a c1) as [[r2 c2] o2]; simpl in *.
  now rewrite filter_app, Hm, Hf.
Qed.

Lemma silent_try (body : M A) (handler : string -> M A) :
  silent P body -> (forall e, silent P (handler e)) ->
  silent P (try_catch body handler).
Proof.
  intros Hb Hh c; unfold try_catch. specialize (Hb c).
  destruct (body c) as [[r c1] o1]; destruct r; simpl in *; try assumption.
  specialize (Hh error c1). destruct (handler error c1) as [[r2 c2] o2]; simpl in *.
  now rewrite filter_app, Hb, Hh.
Qed.

Lemma once_of_silent (m : M A) : silent P m -> once P m.
Proof. intros H c. rewrite (H c). simpl; lia. Qed.

(** The one event is made by the first step. *)
Lemma once_then_silent (m : M A) (f : A -> M B) :
  once P m -> (forall a, silent P (f a)) -> once P (bind m f).
Proof.
  intros Hm Hf c; unfold bind. specialize (Hm c).
  destruct (m c) as [[r c1] o1]; destruct r; simpl in *; try assumption.
  specialize (Hf a c1). destruct (f a c1) as [[r2 c2] o2]; simpl in *.
  now rewrite filter_app, Hf, app_nil_r.
Qed.

(** The one event is made by the sequel. *)
Lemma silent_then_once (m : M A) (f : A -> M B) :
  silent P m -> (forall a, once P (f a)) -> once P (bind m f).
Proof.
  intros Hm Hf c; unfold bind. specialize (Hm c).
  destruct (m c) as [[r c1] o1]; destruct r; simpl in *;
    try (rewrite Hm; simpl; lia).
  specialize (Hf a c1). destruct (f a c1) as [[r2 c2] o2]; simpl in *.
  now rewrite filter_app, Hm.
Qed.

Lemma once_try (body : M A) (handler : string -> M A) :
  once P body -> (forall e, silent P (handler e)) ->
  once P (try_catch body handler).
Proof.
  intros Hb Hh c; unfold try_catch. specialize (Hb c).
  destruct (body c) as [[r c1] o1]; destruct r; simpl in *; try assumption.
  specialize (Hh error c1). destruct (handler error c1) as [[r2 c2] o2]; simpl in *.
  now rewrite filter_app, Hh, app_nil_r.
Qed.

Lemma silent_emit (e : Event) : P e = false -> silent P (emit e).
Proof. intros H c. simpl. now rewrite H. Qed.

Lemma once_emit (e : Event) : once P (emit e).
Proof. intros c. simpl. destruct (P e); simpl; lia. Qed.

End OccurrenceRules.

Lemma silent_forEach (P : Event -> bool) {A} (l : list A) (f : A -> M unit) :
  (forall x, silent P (f x)) -> silent P (forEach l f).
Proof.
  intros H. induction l as [|x rest IH]; simpl.
  - intros c; reflexivity.
  - apply silent_bind; [apply H | intros _; exact IH].
Qed.

Section OccurrenceScript.

Variable P : Event -> bool.
Variable env : Env.
Variable args : Args.

Hypothesis debug_apart : forall label, P (DebugLine label) = false.

Lemma silent_debug (label : string) : silent P (debug args label).
Proof.
  unfold debug; destruct (debugFlag _);
    [apply silent_emit, debug_apart | apply silent_ret].
Qed.

Lemma silent_await {A} (o : Outcome A) : silent P (await o).
Proof. destruct o; intros c; reflexivity. Qed.

Lemma silent_await_listSchemas :
  P CallListSchemas = false -> silent P (await_listSchemas env).
Proof.
  intros H c; unfold await_listSchemas, bind, emit.
  destruct (sheets_listSchemas env _); simpl; now rewrite H.
Qed.

Lemma silent_await_listQueries (s : string) :
  P (CallListQueries s) = false -> silent P (await_listQueries env s).
Proof.
  intros H c; unfold await_listQueries, bind, emit.
  destruct (sheets_listQueries env _ _); simpl; now rewrite H.
Qed.

Lemma silent_await_list (s q : string) :
  P (CallList s q) = false -> silent P (await_list env s q).
Proof.
  intros H c; unfold await_list, bind, emit.
  destruct (sheets_list env _ _ _); simpl; now rewrite H.
Qed.

Lemma silent_await_rm (path : string) :
  P (Rm path) = false -> silent P (await_rm env path).
Proof.
  intros H c; unfold await_rm, bind, emit.
  destruct (fs_rm env _ _); simpl; now rewrite H.
Qed.

Lemma once_await_listQueries (s : string) : once P (await_listQueries env s).
Proof.
  intros c; unfold await_listQueries, bind, emit.
  destruct (sheets_listQueries env _ _); simpl; destruct (P _); simpl; lia.
Qed.

Lemma once_await_list (s q : string) : once P (await_list env s q).
Proof.
  intros c; unfold await_list, bind, emit.
  destruct (sheets_list env _ _ _); simpl; destruct (P _); simpl; lia.
Qed.

Lemma silent_first {A} (l : list A) : silent P (first l).
Proof. destruct l; [apply silent_throw | apply silent_ret]. Qed.

Lemma silent_get_property (receiver : Js.value) (k : string) :
  silent P (get_property env receiver k).
Proof.
  unfold get_property; destruct (Js.get _ _ _);
    [apply silent_ret | apply silent_throw].
Qed.

Lemma silent_selectProperties (properties : list string) (asJson : Js.value)
  (output : list (string * Js.value)) :
  silent P (selectProperties env properties asJson output).
Proof.
  revert output; induction properties as [|p l IH]; intros output; simpl.
  - apply silent_ret.
  - apply silent_bind; [apply silent_get_property|].
    intros v; destruct (negb _); apply IH.
Qed.

End OccurrenceScript.

(** A computation of the script that makes no event of the kind [P]. *)
Ltac silent_tac :=
  lazymatch goal with
  | |- forall _, _ => intro; silent_tac
  | |- silent _ (bind _ _) => apply silent_bind; silent_tac
  | |- silent _ (try_catch _ _) => apply silent_try; silent_tac
  | |- silent _ (forEach _ _) => apply silent_forEach; silent_tac
  | |- silent _ (selectProperties _ _ _ _) =>
      apply silent_selectProperties; reflexivity
  | |- silent _ (ret _) => apply silent_ret
  | |- silent _ (throw _) => apply silent_throw
  | |- silent _ (process_exit _) => apply silent_exit
  | |- silent _ (emit _) => apply silent_emit; reflexivity
  | |- silent _ (debug _ _) => apply silent_debug; reflexivity
  | |- silent _ (console_error _) => apply silent_emit; reflexivity
  | |- silent _ (console_log _) => apply silent_emit; reflexivity
  | |- silent _ (sleep _) => apply silent_emit; reflexivity
  | |- silent _ (await _) => apply silent_await
  | |- silent _ (await_listSchemas _) =>
      apply silent_await_listSchemas; reflexivity
  | |- silent _ (await_listQueries _ _) =>
      apply silent_await_listQueries; reflexivity
  | |- silent _ (await_list _ _ _) => apply silent_await_list; reflexivity
  | |- silent _ (await_rm _ _) => apply silent_await_rm; reflexivity
  | |- silent _ (first _) => apply silent_first
  | |- silent _ (get_property _ _ _) => apply silent_get_property
  | |- silent _ (cleanup _ _) => unfold cleanup; silent_tac
  | |- silent _ (getSchemas _ _) =>
      unfold getSchemas, getSchemas_while, getSchemas_turn; silent_tac
  | |- silent _ (outputFirstField _ _) => unfold outputFirstField; silent_tac
  | |- silent _ (outputProperties _ _ _ _) => unfold outputProperties; silent_tac
  | |- silent _ (outputExpression _ _ _) => unfold outputExpression; silent_tac
  | |- silent _ (if ?b then _ else _) => destruct b; silent_tac
  | |- silent _ (match ?x with _ => _ end) => destruct x; silent_tac
  end.

(** A computation of the script that makes at most one event of the kind
    [P]: the first step that is not silent makes it, and what follows is
    silent. *)
Ltac once_tac :=
  lazymatch goal with
  | |- forall _, _ => intro; once_tac
  | |- once _ (try_catch _ _) =>
      apply once_try; [once_tac | solve [silent_tac]]
  | |- once _ (await_listQueries _ _) => apply once_await_listQueries
  | |- once _ (await_list _ _ _) => apply once_await_list
  | |- once _ (if ?b then _ else _) => destruct b; once_tac
  | |- once _ (match ?x with _ => _ end) => destruct x; once_tac
  | |- once _ (bind _ _) =>
      first [ apply silent_then_once; [solve [silent_tac] | once_tac]
            | apply once_then_silent; [once_tac | solve [silent_tac]] ]
  | |- once _ _ => apply once_of_silent; silent_tac
  end.

Section Queries.

Variable env : Env.
Variable args : Args.

Lemma once_list_executeQuery : once is_list (executeQuery env args).
Proof. unfold executeQuery. cbv zeta. once_tac. Qed.

Lemma once_listQueries_executeQuery :
  once is_listQueries (executeQuery env args).
Proof. unfold executeQuery. cbv zeta. once_tac. Qed.

Lemma silent_listQueries_expression :
  namedQuery (flags args) = false ->
  silent is_listQueries (executeQuery env args).
Proof. intros N. unfold executeQuery. cbv zeta. rewrite N. silent_tac. Qed.

(** The second attempt of the last statement never runs. *)
Lemma attempt_alone (handler : string -> M unit) (c : calls) :
  try_catch (executeQuery env args) handler c = executeQuery env args c.
Proof.
  unfold try_catch.
  destruct (executeQuery_exits env args c) as (code & c' & out & E & _).
  now rewrite E.
Qed.

Lemma silent_decode (P : Event -> bool) :
  silent P (match decodeRoomLink (z32_decode env) (roomLink args) with
            | Some d => ret d
            | None => throw "z32.decode: invalid input"
            end).
Proof. destruct (decodeRoomLink _ _); [apply silent_ret | apply silent_throw]. Qed.

Lemma once_attempt (P : Event -> bool) (handler : string -> M unit) :
  once P (executeQuery env args) ->
  once P (try_catch (executeQuery env args) handler).
Proof. intros H c. rewrite attempt_alone. apply H. Qed.

Lemma silent_attempt (P : Event -> bool) (handler : string -> M unit) :
  silent P (executeQuery env args) ->
  silent P (try_catch (executeQuery env args) handler).
Proof. intros H c. rewrite attempt_alone. apply H. Qed.

Lemma once_main (P : Event -> bool) :
  (forall label, P (DebugLine label) = false) ->
  (forall path, P (NewCorestore path) = false) ->
  (forall key encryptionKey, P (NewSchemaSheets key encryptionKey) = false) ->
  P Ready = false -> P Join = false -> P AddAutobaseBackground = false ->
  once P (executeQuery env args) ->
  once P (main env args).
Proof.
  intros D NC NS R J AB H. unfold main, race.
  repeat (apply silent_then_once;
          [first [ apply silent_decode
                 | apply silent_debug; exact D
                 | apply silent_await
                 | apply silent_emit; auto ]
          | intros ?]).
  now apply once_attempt.
Qed.

Lemma silent_main (P : Event -> bool) :
  (forall label, P (DebugLine label) = false) ->
  (forall path, P (NewCorestore path) = false) ->
  (forall key encryptionKey, P (NewSchemaSheets key encryptionKey) = false) ->
  P Ready = false -> P Join = false -> P AddAutobaseBackground = false ->
  silent P (executeQuery env args) ->
  silent P (main env args).
Proof.
  intros D NC NS R J AB H. unfold main, race.
  repeat (apply silent_bind;
          [first [ apply silent_decode
                 | apply silent_debug; exact D
                 | apply silent_await
                 | apply silent_emit; auto ]
          | intros ?]).
  now apply silent_attempt.
Qed.

End Queries.

(** X22. A run queries the store at most once: it makes at most one call
    of [list] and, in named mode, at most one call of [listQueries]; in
    JMESPath mode it does not call [listQueries] at all. *)
Theorem one_query_per_run (env : Env) (args : Args) :
  List.length (filter is_list (snd (run env args))) <= 1
  /\ (if namedQuery (flags args)
      then List.length (filter is_listQueries (snd (run env args))) <= 1
      else filter is_listQueries (snd (run env args)) = []).
Proof.
  unfold run. split.
  - pose proof (once_main env args is_list
                  (fun _ => eq_refl) (fun _ => eq_refl) (fun _ _ => eq_refl)
                  eq_refl eq_refl eq_refl
                  (once_list_executeQuery env args) no_calls) as H.
    now destruct (main env args no_calls) as [[r c] out].
  - destruct (namedQuery (flags args)) eqn:N.
    + pose proof (once_main env args is_listQueries
                    (fun _ => eq_refl) (fun _ => eq_refl) (fun _ _ => eq_refl)
                    eq_refl eq_refl eq_refl
                    (once_listQueries_executeQuery env args) no_calls) as H.
      now destruct (main env args no_calls) as [[r c] out].
    + pose proof (silent_main env args is_listQueries
                    (fun _ => eq_refl) (fun _ => eq_refl) (fun _ _ => eq_refl)
                    eq_refl eq_refl eq_refl
                    (silent_listQueries_expression env args N) no_calls) as H.
      now destruct (main env args no_calls) as [[r c] out].
Qed.

(* ===================================================================== *)
(** * Exit codes and error reports                                        *)
(* ===================================================================== *)

Lemma reports_app (a b : list Event) :
  reports (a ++ b) = (reports a ++ reports b)%list.
Proof. apply filter_app. Qed.

Section SettledRules.

Context {A B : Type}.

Lemma settled_ret (a : A) : settled (ret a).
Proof. intros c; reflexivity. Qed.

Lemma settled_throw (e : string) : settled (@throw A e).
Proof. intros c; reflexivity. Qed.

Lemma settled_done : settled (@process_exit A 0).
Proof. intros c; reflexivity. Qed.

Lemma settled_bind (m : M A) (f : A -> M B) :
  settled m -> (forall a, settled (f a)) -> settled (bind m f).
Proof.
  intros Hm Hf c; unfold bind. specialize (Hm c).
  destruct (m c) as [[r c1] o1]; destruct r; simpl in *; try assumption.
  specialize (Hf a c1). destruct (f a c1) as [[r2 c2] o2]; simpl in *.
  now rewrite reports_app, Hm.
Qed.

Lemma settled_try (body : M A) (handler : string -> M A) :
  settled body -> (forall e, settled (handler e)) ->
  settled (try_catch body handler).
Proof.
  intros Hb Hh c; unfold try_catch. specialize (Hb c).
  destruct (body c) as [[r c1] o1]; destruct r; simpl in *; try assumption.
  specialize (Hh error c1). destruct (handler error c1) as [[r2 c2] o2]; simpl in *.
  now rewrite reports_app, Hb.
Qed.

End SettledRules.

Lemma settled_emit (e : Event) : is_report e = false -> settled (emit e).
Proof. intros H c. unfold reports; simpl. now rewrite H. Qed.

Lemma settled_forEach {A} (l : list A) (f : A -> M unit) :
  (forall x, settled (f x)) -> settled (forEach l f).
Proof.
  intros H. induction l as [|x rest IH]; simpl.
  - intros c; reflexivity.
  - apply settled_bind; [apply H | intros _; exact IH].
Qed.

Section SettledScript.

Variable env : Env.
Variable args : Args.

Lemma settled_debug (label : string) : settled (debug args label).
Proof.
  unfold debug; destruct (debugFlag _); [now apply settled_emit | apply settled_ret].
Qed.

Lemma settled_await {A} (o : Outcome A) : settled (await o).
Proof. destruct o; intros c; reflexivity. Qed.

Lemma settled_await_listSchemas : settled (await_listSchemas env).
Proof.
  intros c; unfold await_listSchemas, bind, emit.
  destruct (sheets_listSchemas env _); reflexivity.
Qed.

Lemma settled_await_listQueries (s : string) : settled (await_listQueries env s).
Proof.
  intros c; unfold await_listQueries, bind, emit.
  destruct (sheets_listQueries env _ _); reflexivity.
Qed.

Lemma settled_await_list (s q : string) : settled (await_list env s q).
Proof.
  intros c; unfold await_list, bind, emit.
  destruct (sheets_list env _ _ _); reflexivity.
Qed.

Lemma settled_await_rm (path : string) : settled (await_rm env path).
Proof.
  intros c; unfold await_rm, bind, emit.
  destruct (fs_rm env _ _); reflexivity.
Qed.

Lemma settled_first {A} (l : list A) : settled (first l).
Proof. destruct l; [apply settled_throw | apply settled_ret]. Qed.

Lemma settled_get_property (receiver : Js.value) (k : string) :
  settled (get_property env receiver k).
Proof.
  unfold get_property; destruct (Js.get _ _ _);
    [apply settled_ret | apply settled_throw].
Qed.

Lemma settled_selectProperties (properties : list string) (asJson : Js.value)
  (output : list (string * Js.value)) :
  settled (selectProperties env properties asJson output).
Proof.
  revert output; induction properties as [|p l IH]; intros output; simpl.
  - apply settled_ret.
  - apply settled_bind; [apply settled_get_property|].
    intros v; destruct (negb _); apply IH.
Qed.

(** An exit sequence: one report, the teardown, code 1. *)
Lemma settled_error_exit (parts : list string) :
  is_report (Stderr parts) = true ->
  settled (console_error parts ;; cleanup env args ;; @process_exit unit 1).
Proof.
  intros R c.
  assert (silent is_report (cleanup env args)) as Q by silent_tac.
  specialize (Q c).
  destruct (cleanup_undebug env args c) as (c' & out & E & _).
  rewrite E in Q. cbn [snd] in Q.
  unfold bind, console_error, emit, process_exit. rewrite E.
  cbn [fst snd app]. unfold reports. cbn [filter]. rewrite R.
  now rewrite app_nil_r, Q.
Qed.

End SettledScript.

(** A computation of the script that reports exactly when it ends the
    process with code 1. *)
Ltac settled_tac :=
  lazymatch goal with
  | |- forall _, _ => intro; settled_tac
  | |- settled (bind (console_error _) _) =>
      apply settled_error_exit; reflexivity
  | |- settled (bind _ _) => apply settled_bind; settled_tac
  | |- settled (try_catch _ _) => apply settled_try; settled_tac
  | |- settled (forEach _ _) => apply settled_forEach; settled_tac
  | |- settled (selectProperties _ _ _ _) => apply settled_selectProperties
  | |- settled (ret _) => apply settled_ret
  | |- settled (throw _) => apply settled_throw
  | |- settled (process_exit 0) => apply settled_done
  | |- settled (emit _) => apply settled_emit; reflexivity
  | |- settled (debug _ _) => apply settled_debug
  | |- settled (console_error _) => apply settled_emit; reflexivity
  | |- settled (console_log _) => apply settled_emit; reflexivity
  | |- settled (sleep _) => apply settled_emit; reflexivity
  | |- settled (await _) => apply settled_await
  | |- settled (await_listSchemas _) => apply settled_await_listSchemas
  | |- settled (await_listQueries _ _) => apply settled_await_listQueries
  | |- settled (await_list _ _ _) => apply settled_await_list
  | |- settled (await_rm _ _) => apply settled_await_rm
  | |- settled (first _) => apply settled_first
  | |- settled (get_property _ _ _) => apply settled_get_property
  | |- settled (cleanup _ _) => unfold cleanup; settled_tac
  | |- settled (getSchemas _ _) =>
      unfold getSchemas, getSchemas_while, getSchemas_turn; settled_tac
  | |- settled (outputFirstField _ _) => unfold outputFirstField; settled_tac
  | |- settled (outputProperties _ _ _ _) => unfold outputProperties; settled_tac
  | |- settled (outputExpression _ _ _) => unfold outputExpression; settled_tac
  | |- settled (if ?b then _ else _) => destruct b; settled_tac
  | |- settled (match ?x with _ => _ end) => destruct x; settled_tac
  end.

Lemma settled_executeQuery (env : Env) (args : Args) :
  settled (executeQuery env args).
Proof. unfold executeQuery. cbv zeta. settled_tac. Qed.

Lemma settled_main (env : Env) (args : Args) : settled (main env args).
Proof.
  unfold main, race.
  repeat (apply settled_bind;
          [first [ apply settled_debug
                 | apply settled_await
                 | apply settled_emit; reflexivity
                 | destruct (decodeRoomLink (z32_decode env) (roomLink args));
                   [apply settled_ret | apply settled_throw] ]
          | intros ?]).
  apply settled_try; [apply settled_executeQuery|].
  intros e. repeat (apply settled_bind;
                    [first [apply settled_debug | apply settled_emit; reflexivity]
                    | intros ?]).
  apply settled_executeQuery.
Qed.

(** X23. The exit code tells whether an error was reported.  A run that
    gets past its startup ends with code 0 and no error report, or with
    code 1 and exactly one error report; no other code is used.  A run
    that does not get past its startup ends with an uncaught exception
    and has reported nothing itself.  The message about a failed removal
    of the storage is the one line of the error stream that does not
    count, as it changes nothing to the exit code. *)
Theorem exit_code_tells_report (env : Env) (args : Args) :
  match fst (run env args) with
  | Exited 0 => started env args = true /\ reports (snd (run env args)) = []
  | Exited 1 =>
      started env args = true
      /\ List.length (reports (snd (run env args))) = 1
  | Exited _ => False
  | Thrown _ => started env args = false /\ reports (snd (run env args)) = []
  | Val _ => False
  end.
Proof.
  pose proof (settled_main env args no_calls) as H.
  destruct (started env args) eqn:S.
  - destruct (run_started env args S) as (code & out & E & _).
    unfold run in *. destruct (main env args no_calls) as [[r c] o].
    inversion E; subst. simpl in *.
    destruct code as [|[|code]]; [now split | now split | exact H].
  - destruct (run_not_started env args S) as (error & out & E & _).
    unfold run in *. destruct (main env args no_calls) as [[r c] o].
    inversion E; subst. simpl in *. now split.
Qed.

(* ===================================================================== *)
(** * A failure of the startup                                            *)
(* ===================================================================== *)

(** X24. The steps of the startup, in their order: the store is created
    on the storage path before the room link is decoded, the session is
    made of the decoded key and secret, then awaited, then the swarm is
    joined.  The first step that fails ends the run with its error as an
    uncaught exception, and nothing is done after it: no later step, no
    query and no teardown. *)
Theorem startup_failure_stops_the_run (env : Env) (args : Args) :
  match decodeRoomLink (z32_decode env) (roomLink args) with
  | None =>
      exists error out,
        run env args = (Thrown error, out)
        /\ undebug out = [NewCorestore (storagePath env args)]
  | Some (key, encryptionKey) =>
      match sheets_ready env with
      | Rejected error =>
          exists out,
            run env args = (Thrown error, out)
            /\ undebug out
               = [NewCorestore (storagePath env args);
                  NewSchemaSheets key encryptionKey; Ready]
      | Resolved _ =>
          match swarm_join env with
          | Rejected error =>
              exists out,
                run env args = (Thrown error, out)
                /\ undebug out
                   = [NewCorestore (storagePath env args);
                      NewSchemaSheets key encryptionKey; Ready; Join]
          | Resolved _ =>
              exists code out rest,
                run env args = (Exited code, out)
                /\ undebug out
                   = (startup_trace env args key encryptionKey ++ rest)%list
          end
      end
  end.
Proof.
  destruct (decodeRoomLink _ _) as [[key secret]|] eqn:Hd.
  - destruct (sheets_ready env) as [[]|error] eqn:Hr.
    + destruct (swarm_join env) as [[]|error] eqn:Hj.
      * destruct (main_reaches_race env args _ _ no_calls Hd Hr Hj)
          as (pre & U & _ & E).
        destruct (race_exits env args no_calls) as (code & c' & out & Er & _).
        unfold run. rewrite E, Er. simpl.
        exists code, (pre ++ out)%list, (undebug out).
        split; [reflexivity|]. now rewrite undebug_app, U.
      * unfold run, main. rewrite Hd, Hr, Hj.
        unfold bind, debug, emit, ret, await, throw.
        destruct (debugFlag (flags args)); simpl; eexists; split; reflexivity.
    + unfold run, main. rewrite Hd, Hr.
      unfold bind, debug, emit, ret, await, throw.
      destruct (debugFlag (flags args)); simpl; eexists; split; reflexivity.
  - unfold run, main. rewrite Hd.
    unfold bind, debug, emit, ret, await, throw.
    destruct (debugFlag (flags args)); simpl; eexists _, _; split; reflexivity.
Qed.
